(** * Search lifecycle of the tool-discovery front end

    A shallow embedding of the React front end's search path:

    - [Validator]: [validateQuery] of [SearchSection.jsx] and the checks that
      [handleSearch] repeats inline before it touches the network;
    - [Json]: the JSON values that travel through [JSON.stringify] and
      [JSON.parse];
    - [Gateway]: [api.searchTools], the classification of a failed
      [axios.post] into a thrown [Error];
    - [Simulator]: the [tick] closure of [handleSearch] (stage table, easing,
      dynamic cap);
    - [Controller]: the [useSearch] hook as a step function over the events
      of the event loop (submission, interval tick, settlement of the
      network call, completion-hold timeout);
    - [Toasts]: [addToast] and [removeToast] of the toast container;
    - [SearchSection] and [App]: the handlers of the search form and the
      component that wires them to the hook;
    - [ResultsSection]: the markup made of the analysis text.

    JavaScript numbers are modelled by exact integers and rationals: clock
    readings and percentages are integers, the easing ratio is a rational.
    The one product of the validator, by [0.3], is also taken in binary64
    arithmetic ([ValidatorDoubles]). *)

From Stdlib Require Import ZArith QArith Qround Lqa NArith List String Ascii Bool Lia.
From Stdlib Require Import Sorted DecimalString DecimalZ DecimalFacts DecimalPos.
From Stdlib Require Import PrimFloat Uint63.
Import ListNotations.

Local Open Scope string_scope.
Local Open Scope Z_scope.

(* ================================================================= *)
(** ** JavaScript strings *)

Module JsString.

(** A JavaScript string is a sequence of UTF-16 code units. *)
Definition code_unit := N.
Definition jsstring := list code_unit.

(** A string literal of the source (ASCII only). *)
Definition lit (s : string) : jsstring :=
  List.map N_of_ascii (list_ascii_of_string s).

Definition length (s : jsstring) : Z := Z.of_nat (List.length s).

(** ECMAScript WhiteSpace and LineTerminator code units: what
    [String.prototype.trim] strips and what [\s] matches. *)
Definition is_space (c : code_unit) : bool :=
  ((9 <=? c) && (c <=? 13) || (c =? 32) || (c =? 160) || (c =? 5760)
   || (8192 <=? c) && (c <=? 8202) || (c =? 8232) || (c =? 8233)
   || (c =? 8239) || (c =? 8287) || (c =? 12288) || (c =? 65279))%N.

(** [\w] is [[A-Za-z0-9_]]. *)
Definition is_word (c : code_unit) : bool :=
  ((65 <=? c) && (c <=? 90) || (97 <=? c) && (c <=? 122)
   || (48 <=? c) && (c <=? 57) || (c =? 95))%N.

Fixpoint trimStart (s : jsstring) : jsstring :=
  match s with
  | c :: s' => if is_space c then trimStart s' else s
  | [] => []
  end.

Definition trimEnd (s : jsstring) : jsstring := rev (trimStart (rev s)).

Definition trim (s : jsstring) : jsstring := trimEnd (trimStart s).

(** [!s] for a string: only the empty string is falsy. *)
Definition falsy (s : jsstring) : bool :=
  match s with [] => true | _ => false end.

End JsString.

(* ================================================================= *)
(** ** The regular expressions of the validator *)

Module Regex.
Import JsString.

(** The patterns of the source are sequences of literal characters, [\s+]
    and [\s*], all under the [i] flag. *)
Inductive item :=
| Chr (c : ascii)
| SpacePlus
| SpaceStar.

Definition pattern := list item.

(** Case-insensitive comparison of a pattern character with a code unit.
    Without the [u] flag a non-ASCII code unit never folds to an ASCII
    letter, so folding is the ASCII one. *)
Definition upper (c : N) : N :=
  if ((97 <=? c) && (c <=? 122))%N then (c - 32)%N else c.

Definition chr_matches (c : ascii) (x : code_unit) : bool :=
  (upper (N_of_ascii c) =? upper x)%N.

Fixpoint match_here (p : pattern) (s : jsstring) {struct p} : bool :=
  match p with
  | [] => true
  | Chr c :: p' =>
      match s with
      | x :: s' => chr_matches c x && match_here p' s'
      | [] => false
      end
  | SpaceStar :: p' =>
      (fix star (s : jsstring) : bool :=
         match_here p' s
         || match s with
            | x :: s' => is_space x && star s'
            | [] => false
            end) s
  | SpacePlus :: p' =>
      match s with
      | x :: s' =>
          is_space x &&
          (fix star (s : jsstring) : bool :=
             match_here p' s
             || match s with
                | x :: s' => is_space x && star s'
                | [] => false
                end) s'
      | [] => false
      end
  end.

(** [pattern.test(s)]: a match at some position. *)
Fixpoint test (p : pattern) (s : jsstring) : bool :=
  match_here p s
  || match s with
     | _ :: s' => test p s'
     | [] => false
     end.

Definition chars (s : string) : pattern := List.map Chr (list_ascii_of_string s).

End Regex.

(* ================================================================= *)
(** ** Query validator *)

Module Validator.
Import JsString Regex.

Definition dangerousPatterns : list pattern :=
  [ chars "<script"; chars "javascript:"; chars "data:text/html";
    chars "vbscript:"; chars "onload="; chars "onerror="; chars "<iframe";
    chars "<object"; chars "<embed"; chars "<link"; chars "<meta";
    chars "<style" ].

Definition sqlPatterns : list pattern :=
  [ (chars "union" ++ [SpacePlus] ++ chars "select")%list;
    (chars "drop" ++ [SpacePlus] ++ chars "table")%list;
    (chars "delete" ++ [SpacePlus] ++ chars "from")%list;
    (chars "insert" ++ [SpacePlus] ++ chars "into")%list;
    (chars "update" ++ [SpacePlus] ++ chars "set")%list;
    (chars ";" ++ [SpaceStar] ++ chars "drop")%list;
    (chars ";" ++ [SpaceStar] ++ chars "delete")%list;
    (chars ";" ++ [SpaceStar] ++ chars "insert")%list;
    (chars ";" ++ [SpaceStar] ++ chars "update")%list ].

(** [(query.match(/[^\w\s]/g) || []).length] *)
Definition specialCharCount (query : jsstring) : Z :=
  Z.of_nat (List.length
              (filter (fun c => negb (is_word c || is_space c)) query)).

(** [specialCharCount > query.length * 0.3], the product taken exactly.
    [ValidatorDoubles] has the comparison as the engine computes it; the two
    agree on every query of at most 200 code units, and no longer query
    reaches this check. *)
Definition tooManySpecial (query : jsstring) : bool :=
  negb (Qle_bool (inject_Z (specialCharCount query))
                 (inject_Z (length query) * (3 # 10))).

Record validation := { isValid : bool; message : option string }.

Definition invalid (m : string) : validation :=
  {| isValid := false; message := Some m |}.

Definition msg_empty := "Query cannot be empty".
Definition msg_short := "Query must be at least 2 characters long".
Definition msg_long := "Query must be less than 200 characters".
Definition msg_dangerous := "Query contains potentially dangerous content".
Definition msg_sql := "Query contains potentially dangerous SQL content".
Definition msg_special := "Query contains too many special characters".

(** [validateQuery] of [SearchSection.jsx]. *)
Definition validateQuery (query : jsstring) : validation :=
  if falsy query || falsy (trim query) then invalid msg_empty
  else if length (trim query) <? 2 then invalid msg_short
  else if length query >? 200 then invalid msg_long
  else if existsb (fun p => test p query) dangerousPatterns
       then invalid msg_dangerous
  else if existsb (fun p => test p query) sqlPatterns then invalid msg_sql
  else if tooManySpecial query then invalid msg_special
  else {| isValid := true; message := None |}.

(** The checks [handleSearch] runs inline.  A blank query returns [null]
    without recording an error; every other rejection records its message. *)
Inductive precheck :=
| Blank
| Rejected (m : string)
| Accepted.

Definition handleSearch_precheck (query : jsstring) : precheck :=
  if falsy (trim query) then Blank
  else if length (trim query) <? 2 then Rejected msg_short
  else if length query >? 200 then Rejected msg_long
  else if existsb (fun p => test p query) dangerousPatterns
       then Rejected msg_dangerous
  else if existsb (fun p => test p query) sqlPatterns then Rejected msg_sql
  else if tooManySpecial query then Rejected msg_special
  else Accepted.

End Validator.

(* ================================================================= *)
(** ** JSON values *)

Module Json.

(** What [JSON.parse] produces and [JSON.stringify] consumes.  Numbers are
    the integers (HTTP status codes, indices in a location path); a string
    is a sequence of 8-bit characters; an object lists its properties in
    insertion order. *)
#[warnings="-register-all"] Inductive json :=
| JNull
| JBool (b : bool)
| JNum (n : Z)
| JStr (s : string)
| JArr (items : list json)
| JObj (props : list (string * json)).

(** A JavaScript value that may be [undefined]. *)
Definition jsval := option json.

(** The last binding of a key: in JSON text a repeated key overrides the
    earlier one. *)
Fixpoint lookup (k : string) (l : list (string * json)) : jsval :=
  match l with
  | [] => None
  | (k', v) :: l' =>
      match lookup k l' with
      | Some v' => Some v'
      | None => if String.eqb k k' then Some v else None
      end
  end.

(** [v.k] on a value that is neither [null] nor [undefined], for a key that
    is no built-in property of strings or arrays. *)
Definition prop (v : json) (k : string) : jsval :=
  match v with
  | JObj l => lookup k l
  | _ => None
  end.

(** ToBoolean. *)
Definition truthy (v : jsval) : bool :=
  match v with
  | None | Some JNull => false
  | Some (JBool b) => b
  | Some (JNum n) => negb (n =? 0)
  | Some (JStr s) => negb (String.eqb s "")
  | Some (JArr _) | Some (JObj _) => true
  end.

(** [Number::toString] on the safe integers, which it prints as their
    decimal digits. *)
Definition number_to_string (n : Z) : string :=
  NilZero.string_of_int (Z.to_int n).

(** [Number.isSafeInteger]: an integer of at most [2^53 - 1] in absolute
    value. *)
Definition safe_integer (n : Z) : bool := Z.abs n <=? 9007199254740991.

(** Every number of the value is a safe integer.  On these values the text
    of a number is the text the engine prints; a statement that shows such a
    text asks for them. *)
Fixpoint safe (v : json) : bool :=
  match v with
  | JNum n => safe_integer n
  | JArr l => forallb safe l
  | JObj l => forallb (fun kv => let '(_, v) := kv in safe v) l
  | _ => true
  end.

(** [Array.prototype.join]: [null] elements read as the empty string; an
    element that cannot be converted ends the join with its [TypeError]
    ([None]). *)
Definition join_with (f : json -> option string) (sep : string)
  : list json -> option string :=
  fix go (l : list json) : option string :=
    match l with
    | [] => Some ""
    | x :: rest =>
        match (match x with JNull => Some "" | _ => f x end) with
        | None => None
        | Some first =>
            match rest with
            | [] => Some first
            | _ :: _ =>
                match go rest with
                | Some others => Some (first ++ sep ++ others)
                | None => None
                end
            end
        end
    end.

(** ToString.  An object is printed by [Object.prototype.toString], unless
    a key [toString] of its own hides that method: a value read from JSON is
    no function, so the conversion finds nothing to call, neither there nor
    in [valueOf], and throws a [TypeError] ([None]). *)
Fixpoint toString (v : json) : option string :=
  match v with
  | JNull => Some "null"
  | JBool true => Some "true"
  | JBool false => Some "false"
  | JNum n => Some (number_to_string n)
  | JStr s => Some s
  | JArr l => join_with toString "," l
  | JObj props =>
      match lookup "toString" props with
      | Some _ => None
      | None => Some "[object Object]"
      end
  end.

Definition join (sep : string) (l : list json) : option string :=
  join_with toString sep l.

(** An object literal as [JSON.stringify] sees it: a property whose value is
    [undefined] is skipped. *)
Fixpoint object (fields : list (string * jsval)) : list (string * json) :=
  match fields with
  | [] => []
  | (k, Some v) :: rest => (k, v) :: object rest
  | (_, None) :: rest => object rest
  end.

(** *** [JSON.stringify] *)

Definition dquote : ascii := ascii_of_N 34.

Definition hex_digit (n : N) : ascii :=
  ascii_of_N (if (n <? 10)%N then 48 + n else 87 + n)%N.

(** QuoteJSONString on one character. *)
Definition escape (c : ascii) : string :=
  let n := N_of_ascii c in
  if (n =? 34)%N then String "\" (String dquote "")
  else if (n =? 92)%N then "\\"
  else if (n =? 8)%N then "\b"
  else if (n =? 12)%N then "\f"
  else if (n =? 10)%N then "\n"
  else if (n =? 13)%N then "\r"
  else if (n =? 9)%N then "\t"
  else if (n <? 32)%N
       then "\u00" ++ String (hex_digit (n / 16)) (String (hex_digit (n mod 16)) "")
  else String c "".

Fixpoint escape_all (s : string) : string :=
  match s with
  | EmptyString => ""
  | String c s' => escape c ++ escape_all s'
  end.

Definition quote (s : string) : string :=
  String dquote (escape_all s ++ String dquote "").

Definition commas : list string -> string :=
  fix go (l : list string) : string :=
    match l with
    | [] => ""
    | x :: rest => x ++ match rest with [] => "" | _ :: _ => "," ++ go rest end
    end.

Fixpoint stringify (v : json) : string :=
  match v with
  | JNull => "null"
  | JBool true => "true"
  | JBool false => "false"
  | JNum n => number_to_string n
  | JStr s => quote s
  | JArr l => "[" ++ commas (List.map stringify l) ++ "]"
  | JObj l =>
      "{" ++ commas (List.map (fun kv => let '(k, v) := kv in
                                         quote k ++ ":" ++ stringify v) l)
          ++ "}"
  end.

(** *** [JSON.parse] *)

(** JSON whitespace: space, tab, line feed, carriage return. *)
Definition json_ws (c : ascii) : bool :=
  let n := N_of_ascii c in
  ((n =? 32) || (n =? 9) || (n =? 10) || (n =? 13))%N.

Fixpoint skip_ws (s : string) : string :=
  match s with
  | String c s' => if json_ws c then skip_ws s' else s
  | EmptyString => EmptyString
  end.

Definition digit (c : ascii) : option (Decimal.uint -> Decimal.uint) :=
  let n := N_of_ascii c in
  if (n =? 48)%N then Some Decimal.D0
  else if (n =? 49)%N then Some Decimal.D1
  else if (n =? 50)%N then Some Decimal.D2
  else if (n =? 51)%N then Some Decimal.D3
  else if (n =? 52)%N then Some Decimal.D4
  else if (n =? 53)%N then Some Decimal.D5
  else if (n =? 54)%N then Some Decimal.D6
  else if (n =? 55)%N then Some Decimal.D7
  else if (n =? 56)%N then Some Decimal.D8
  else if (n =? 57)%N then Some Decimal.D9
  else None.

Fixpoint take_digits (s : string) : Decimal.uint * string :=
  match s with
  | String c s' =>
      match digit c with
      | Some d => let (u, r) := take_digits s' in (d u, r)
      | None => (Decimal.Nil, s)
      end
  | EmptyString => (Decimal.Nil, EmptyString)
  end.

(** A fraction or an exponent would follow here; such numbers are outside
    the integers of the model and are refused. *)
Definition starts_fraction (s : string) : bool :=
  match s with
  | String c _ =>
      let n := N_of_ascii c in ((n =? 46) || (n =? 69) || (n =? 101))%N
  | EmptyString => false
  end.

(** An optional leading minus sign. *)
Definition sign_split (s : string) : bool * string :=
  match s with
  | String c r => if (N_of_ascii c =? 45)%N then (true, r) else (false, s)
  | EmptyString => (false, s)
  end.

Definition parse_number (s : string) : option (Z * string) :=
  let (neg, s1) := sign_split s in
  let (u, r) := take_digits s1 in
  match u with
  | Decimal.Nil => None
  | Decimal.D0 (Decimal.Nil) =>
      if starts_fraction r then None else Some (0, r)
  | Decimal.D0 _ => None
  | _ =>
      if starts_fraction r then None
      else Some (Z.of_int (if neg then Decimal.Neg u else Decimal.Pos u), r)
  end.

Definition hex_value (c : ascii) : option N :=
  let n := N_of_ascii c in
  if ((48 <=? n) && (n <=? 57))%N then Some (n - 48)%N
  else if ((97 <=? n) && (n <=? 102))%N then Some (n - 87)%N
  else if ((65 <=? n) && (n <=? 70))%N then Some (n - 55)%N
  else None.

(** The character after a backslash, [u] apart. *)
Definition unescape (c : ascii) : option ascii :=
  let n := N_of_ascii c in
  if (n =? 34)%N then Some dquote
  else if (n =? 92)%N then Some "\"%char
  else if (n =? 47)%N then Some "/"%char
  else if (n =? 98)%N then Some (ascii_of_N 8)
  else if (n =? 102)%N then Some (ascii_of_N 12)
  else if (n =? 110)%N then Some (ascii_of_N 10)
  else if (n =? 114)%N then Some (ascii_of_N 13)
  else if (n =? 116)%N then Some (ascii_of_N 9)
  else None.

(** [\uXXXX]; a code unit beyond the 8-bit characters of the model is
    refused. *)
Definition hex4 (a b c d : ascii) : option ascii :=
  match hex_value a, hex_value b, hex_value c, hex_value d with
  | Some x, Some y, Some z, Some w =>
      let n := (((x * 16 + y) * 16 + z) * 16 + w)%N in
      if (n <? 256)%N then Some (ascii_of_N n) else None
  | _, _, _, _ => None
  end.

Definition cons_char (c : ascii) (r : option (string * string))
  : option (string * string) :=
  match r with
  | Some (str, rest) => Some (String c str, rest)
  | None => None
  end.

(** The body of a string literal, after its opening quote. *)
Fixpoint parse_chars (s : string) : option (string * string) :=
  match s with
  | EmptyString => None
  | String c s' =>
      if (N_of_ascii c =? 34)%N then Some (EmptyString, s')
      else if (N_of_ascii c =? 92)%N then
        match s' with
        | String e s'' =>
            match unescape e with
            | Some c' => cons_char c' (parse_chars s'')
            | None =>
                if (N_of_ascii e =? 117)%N then
                  match s'' with
                  | String h1 (String h2 (String h3 (String h4 r))) =>
                      match hex4 h1 h2 h3 h4 with
                      | Some c' => cons_char c' (parse_chars r)
                      | None => None
                      end
                  | _ => None
                  end
                else None
            end
        | EmptyString => None
        end
      else if (N_of_ascii c <? 32)%N then None
      else cons_char c (parse_chars s')
  end.

Fixpoint expect (word s : string) : option string :=
  match word, s with
  | EmptyString, _ => Some s
  | String a word', String b s' =>
      if Ascii.eqb a b then expect word' s' else None
  | String _ _, EmptyString => None
  end.

(** Recursive descent; [fuel] bounds the nesting of the calls. *)
Fixpoint parse_value (fuel : nat) (s : string) {struct fuel}
  : option (json * string) :=
  match fuel with
  | O => None
  | S fuel' =>
      match skip_ws s with
      | EmptyString => None
      | String c r =>
          let n := N_of_ascii c in
          if (n =? 110)%N then
            match expect "ull" r with Some r' => Some (JNull, r') | None => None end
          else if (n =? 116)%N then
            match expect "rue" r with
            | Some r' => Some (JBool true, r') | None => None end
          else if (n =? 102)%N then
            match expect "alse" r with
            | Some r' => Some (JBool false, r') | None => None end
          else if (n =? 34)%N then
            match parse_chars r with
            | Some (str, r') => Some (JStr str, r') | None => None end
          else if (n =? 91)%N then
            match skip_ws r with
            | String c' r' =>
                if (N_of_ascii c' =? 93)%N then Some (JArr [], r')
                else match parse_items fuel' (String c' r') with
                     | Some (l, r'') => Some (JArr l, r'')
                     | None => None
                     end
            | EmptyString => None
            end
          else if (n =? 123)%N then
            match skip_ws r with
            | String c' r' =>
                if (N_of_ascii c' =? 125)%N then Some (JObj [], r')
                else match parse_members fuel' (String c' r') with
                     | Some (l, r'') => Some (JObj l, r'')
                     | None => None
                     end
            | EmptyString => None
            end
          else
            match parse_number (String c r) with
            | Some (z, r') => Some (JNum z, r') | None => None end
      end
  end

(** One or more values separated by commas, up to the closing bracket. *)
with parse_items (fuel : nat) (s : string) {struct fuel}
  : option (list json * string) :=
  match fuel with
  | O => None
  | S fuel' =>
      match parse_value fuel' s with
      | Some (v, r) =>
          match skip_ws r with
          | String c r' =>
              if (N_of_ascii c =? 93)%N then Some ([v], r')
              else if (N_of_ascii c =? 44)%N then
                match parse_items fuel' r' with
                | Some (l, r'') => Some (v :: l, r'')
                | None => None
                end
              else None
          | EmptyString => None
          end
      | None => None
      end
  end

(** One or more [key : value] members, up to the closing brace. *)
with parse_members (fuel : nat) (s : string) {struct fuel}
  : option (list (string * json) * string) :=
  match fuel with
  | O => None
  | S fuel' =>
      match skip_ws s with
      | String q r0 =>
          if (N_of_ascii q =? 34)%N then
            match parse_chars r0 with
            | Some (k, r1) =>
                match skip_ws r1 with
                | String colon r2 =>
                    if (N_of_ascii colon =? 58)%N then
                      match parse_value fuel' r2 with
                      | Some (v, r) =>
                          match skip_ws r with
                          | String c r' =>
                              if (N_of_ascii c =? 125)%N then Some ([(k, v)], r')
                              else if (N_of_ascii c =? 44)%N then
                                match parse_members fuel' r' with
                                | Some (l, r'') => Some ((k, v) :: l, r'')
                                | None => None
                                end
                              else None
                          | EmptyString => None
                          end
                      | None => None
                      end
                    else None
                | EmptyString => None
                end
            | None => None
            end
          else None
      | EmptyString => None
      end
  end.

(** [JSON.parse]: one value and nothing but whitespace after it; [None] is
    the [SyntaxError]. *)
Definition parse (s : string) : option json :=
  match parse_value (S (String.length s)) s with
  | Some (v, r) =>
      match skip_ws r with
      | EmptyString => Some v
      | String _ _ => None
      end
  | None => None
  end.

(** *** The shape of printed JSON *)

(** What may follow a value inside printed JSON: nothing, a comma, a
    closing bracket or a closing brace. *)
Definition delimited (rest : string) : Prop :=
  match rest with
  | EmptyString => True
  | String c _ => c = ","%char \/ c = "]"%char \/ c = "}"%char
  end.

(** The first character of a printed number. *)
Definition numeric_head (c : ascii) : bool :=
  let n := N_of_ascii c in ((n =? 45) || (48 <=? n) && (n <=? 57))%N.

(** A printed value opens with a character that is no whitespace and
    closes neither an array nor an object. *)
Definition opens_value (s : string) : Prop :=
  match s with
  | String c _ =>
      json_ws c = false /\ (N_of_ascii c =? 93)%N = false
      /\ (N_of_ascii c =? 125)%N = false
  | EmptyString => False
  end.

(** The parser reads a printed value back, whatever delimited text follows,
    once the fuel covers the length of the print. *)
Definition prints_back (v : json) : Prop :=
  forall (fuel : nat) (rest : string),
    (String.length (stringify v) <= fuel)%nat -> delimited rest ->
    parse_value fuel (stringify v ++ rest) = Some (v, rest).

End Json.

(* ================================================================= *)
(** ** Request gateway: [api.searchTools] *)

Module Gateway.
Import Json.

(** [error.response] of a rejected [axios.post]: the status and the parsed
    body ([JNull] when there is none). *)
Record response := { status : Z; data : json }.

(** What [axios.post] rejects with: an [Error] with its message and, when the
    server answered, the response. *)
Record axios_error := { err_message : string; err_response : option response }.

(** How the single outbound call settles. *)
Inductive axios_result :=
| Fulfilled (body : json)
| Rejected (e : axios_error).

(** What [searchTools] throws: the [Error] it builds, or the engine's
    [TypeError] when the handler itself fails. *)
Inductive exn :=
| Error (message : string)
| TypeError (message : string).

Definition exn_message (e : exn) : string :=
  match e with Error m | TypeError m => m end.

Inductive outcome :=
| Returned (body : json)
| Thrown (e : exn).

Definition msg_check_input := "Please check your input and try again.".
Definition msg_network :=
  "Network error. Please check your connection and try again.".
Definition msg_null_loc := "Cannot read properties of null (reading 'loc')".
Definition msg_join := "err.loc.join is not a function".
Definition msg_primitive := "Cannot convert object to primitive value".

(** The callback of [errorDetail.map]:
    [{ field: err.loc ? err.loc.join(".") : "query", message: err.msg,
       type: "validation" }]. *)
Definition validation_entry (err : json) : exn + json :=
  match err with
  | JNull => inl (TypeError msg_null_loc)
  | _ =>
      let entry (field : string) :=
        JObj (object [("field", Some (JStr field));
                      ("message", prop err "msg");
                      ("type", Some (JStr "validation"))]) in
      if truthy (prop err "loc") then
        match prop err "loc" with
        | Some (JArr path) =>
            match join "." path with
            | Some field => inr (entry field)
            | None => inl (TypeError msg_primitive)
            end
        | _ => inl (TypeError msg_join)
        end
      else inr (entry "query")
  end.

(** [errorDetail.map(...)]: the first callback that throws ends the map. *)
Fixpoint validation_entries (detail : list json) : exn + list json :=
  match detail with
  | [] => inr []
  | err :: rest =>
      match validation_entry err with
      | inl e => inl e
      | inr entry =>
          match validation_entries rest with
          | inl e => inl e
          | inr entries => inr (entry :: entries)
          end
      end
  end.

(** [error.response?.data?.detail] *)
Definition response_detail (e : axios_error) : jsval :=
  match err_response e with
  | None => None
  | Some r =>
      match data r with
      | JNull => None
      | d => prop d "detail"
      end
  end.

Definition validation_payload (entries : list json) : json :=
  JObj (object [("type", Some (JStr "validation"));
                ("errors", Some (JArr entries));
                ("message", Some (JStr msg_check_input))]).

Definition api_payload (errorDetail : json) (st : Z) : json :=
  JObj (object [("type", Some (JStr "api"));
                ("message", Some errorDetail);
                ("status", Some (JNum st))]).

Definition network_payload (e : axios_error) : json :=
  JObj (object [("type", Some (JStr "network"));
                ("message",
                 Some (JStr (if String.eqb (err_message e) "" then msg_network
                             else err_message e)));
                ("originalError", Some (JStr (err_message e)))]).

(** The [catch] block of [searchTools]: it always throws. *)
Definition searchTools_catch (e : axios_error) : exn :=
  match response_detail e, err_response e with
  | Some errorDetail, Some r =>
      if truthy (Some errorDetail) then
        match
          (if status r =? 422 then
             match errorDetail with
             | JArr detail =>
                 match validation_entries detail with
                 | inl te => Some te
                 | inr entries =>
                     Some (Error (stringify (validation_payload entries)))
                 end
             | _ => None
             end
           else None)
        with
        | Some thrown => thrown
        | None => Error (stringify (api_payload errorDetail (status r)))
        end
      else Error (stringify (network_payload e))
  | _, _ => Error (stringify (network_payload e))
  end.

(** [searchTools], from the settlement of its [axios.post]. *)
Definition searchTools (r : axios_result) : outcome :=
  match r with
  | Fulfilled body => Returned body
  | Rejected e => Thrown (searchTools_catch e)
  end.

End Gateway.

(* ================================================================= *)
(** ** Progress simulator: the [tick] closure of [handleSearch] *)

Module Simulator.

Record stage := {
  t : Z;
  label : string;
  min : Z;
  max : Z;
  description : string
}.

Definition maxWhilePendingBase : Z := 92.

Definition stages : list stage :=
  [ {| t := 800;
       label := "Analyzing query and extracting tools...";
       min := 5; max := 25;
       description := "Searching web sources and identifying relevant tools" |};
    {| t := 2500;
       label := "Researching individual tools...";
       min := 25; max := 65;
       description := "Scraping tool websites and gathering detailed information" |};
    {| t := 4500;
       label := "Evaluating and ranking results...";
       min := 65; max := 85;
       description := "Processing tool data and filtering by criteria" |};
    {| t := 6500;
       label := "Generating recommendations...";
       min := 85; max := maxWhilePendingBase;
       description := "Creating personalized recommendations and analysis" |} ].

Definition easeOutCubic (x : Q) : Q := (1 - (1 - x) ^ 3)%Q.

Definition dynamicCap (elapsedMs : Z) : Z :=
  if elapsedMs <? 10000 then 92
  else if elapsedMs <? 18000 then 95
  else if elapsedMs <? 28000 then 97
  else 99.

(** The [for] loop of [tick]: the first stage whose threshold the elapsed
    time has not passed, the last stage when it has passed them all. *)
Fixpoint select (elapsed : Z) (l : list stage) (curr : stage) : stage :=
  match l with
  | [] => curr
  | s :: rest => if elapsed <=? t s then s else select elapsed rest s
  end.

(** [s === curr] compares references; the entries of the table differ
    pairwise, so that is equality of their contents. *)
Definition same_stage (a b : stage) : bool :=
  (t a =? t b) && String.eqb (label a) (label b)
  && (min a =? min b) && (max a =? max b)
  && String.eqb (description a) (description b).

(** [Array.prototype.findIndex], [-1] when nothing is found. *)
Fixpoint findIndex (p : stage -> bool) (l : list stage) (i : Z) : Z :=
  match l with
  | [] => -1
  | s :: rest => if p s then i else findIndex p rest (i + 1)
  end.

Definition at_index (l : list stage) (i : Z) : option stage :=
  if i <? 0 then None else nth_error l (Z.to_nat i).

(** The stage label and the target percentage one tick computes. *)
Definition tick (elapsed : Z) : option (string * Z) :=
  match stages with
  | [] => None
  | first :: _ =>
      let curr := select elapsed stages first in
      let currIndex := findIndex (same_stage curr) stages 0 in
      let prevT :=
        if currIndex >? 0 then
          match at_index stages (currIndex - 1) with
          | Some s => t s
          | None => 0
          end
        else 0 in
      let stageSpan := Z.max 1 (t curr - prevT) in
      let stageElapsed := Z.min (Z.max (elapsed - prevT) 0) stageSpan in
      let ratio := easeOutCubic (inject_Z stageElapsed / inject_Z stageSpan) in
      let cap := dynamicCap elapsed in
      let isLastStage := currIndex =? Z.of_nat (List.length stages) - 1 in
      let stageMax := if isLastStage then cap else Z.min (max curr) cap in
      let target :=
        Qfloor (inject_Z (min curr) + inject_Z (stageMax - min curr) * ratio) in
      Some (label curr, target)
  end.

End Simulator.

(* ================================================================= *)
(** ** Search lifecycle controller: the [useSearch] hook *)

Module Controller.
Import JsString Json Gateway.

(** Timer identifiers of [setInterval] and [setTimeout]: positive, so a
    stored identifier is truthy. *)
Definition handle := positive.

(** The hook's React state and ref, with what the event loop holds for it:
    the live interval tasks (each [tick] closure captured its [startTime]),
    the pending completion-hold timeouts, the requests sent, and the calls
    of [handleSearch] still suspended at their [await]. *)
Record state := {
  loading : bool;
  loadingProgress : Z;
  loadingStage : string;
  error : json;
  tickerRef : option handle;
  intervals : list (handle * Z);
  holds : list handle;
  next_handle : handle;
  requests : list jsstring;
  inflight : list nat
}.

Definition init : state :=
  {| loading := false; loadingProgress := 0; loadingStage := ""; error := JNull;
     tickerRef := None; intervals := []; holds := []; next_handle := 1%positive;
     requests := []; inflight := [] |}.

(** What the hook publishes to its observers. *)
Definition published (s : state) : bool * Z * string * json :=
  (loading s, loadingProgress s, loadingStage s, error s).

Inductive event :=
| Submit (query : jsstring) (now : Z)
| Tick (h : handle) (now : Z)
| Settle (call : nat) (r : axios_result)
| HoldElapsed (h : handle)
| SetError (e : json).

Definition validation_error (m : string) : json :=
  JObj [("type", JStr "validation");
        ("message", JStr m);
        ("errors", JArr [JObj [("field", JStr "query"); ("message", JStr m)]])].

Definition stage_initializing := "Initializing...".

(** The completion label; it opens with the check-mark emoji U+2705. *)
Definition stage_complete : string :=
  String (ascii_of_N 226) (String (ascii_of_N 156) (String (ascii_of_N 133)
    " Research complete!")).

Definition clearInterval (h : handle) (l : list (handle * Z)) : list (handle * Z) :=
  filter (fun p => negb (Pos.eqb (fst p) h)) l.

(** [if (tickerRef.current) { clearInterval(tickerRef.current);
     tickerRef.current = null; }] *)
Definition clear_ticker (s : state) : list (handle * Z) :=
  match tickerRef s with
  | Some h => clearInterval h (intervals s)
  | None => intervals s
  end.

Fixpoint startTime_of (h : handle) (l : list (handle * Z)) : option Z :=
  match l with
  | [] => None
  | (h', t0) :: rest => if Pos.eqb h' h then Some t0 else startTime_of h rest
  end.

(** The error the [catch] block records: the parsed message, or an
    [unknown] error when the message is no JSON. *)
Definition errorDetails (e : exn) : json :=
  match parse (exn_message e) with
  | Some details => details
  | None =>
      JObj [("type", JStr "unknown");
            ("message",
             JStr (if String.eqb (exn_message e) ""
                   then "An unexpected error occurred" else exn_message e))]
  end.

(** [handleSearch(query)] up to its [await], called when the clock reads
    [now]. *)
Definition handleSearch (query : jsstring) (now : Z) (s : state) : state :=
  match Validator.handleSearch_precheck query with
  | Validator.Blank => s
  | Validator.Rejected m =>
      {| loading := loading s; loadingProgress := loadingProgress s;
         loadingStage := loadingStage s; error := validation_error m;
         tickerRef := tickerRef s; intervals := intervals s; holds := holds s;
         next_handle := next_handle s; requests := requests s;
         inflight := inflight s |}
  | Validator.Accepted =>
      {| loading := true; loadingProgress := 0;
         loadingStage := stage_initializing; error := JNull;
         tickerRef := Some (next_handle s);
         intervals := intervals s ++ [(next_handle s, now)];
         holds := holds s;
         next_handle := Pos.succ (next_handle s);
         requests := requests s ++ [query];
         inflight := inflight s ++ [List.length (requests s)] |}
  end.

(** One firing of an interval task. *)
Definition on_tick (h : handle) (now : Z) (s : state) : state :=
  match startTime_of h (intervals s) with
  | None => s
  | Some startTime =>
      match Simulator.tick (now - startTime) with
      | None => s
      | Some (label, target) =>
          {| loading := loading s;
             loadingProgress :=
               if target >? loadingProgress s then target else loadingProgress s;
             loadingStage := label; error := error s;
             tickerRef := tickerRef s; intervals := intervals s;
             holds := holds s; next_handle := next_handle s;
             requests := requests s; inflight := inflight s |}
      end
  end.

(** [handleSearch] after its [await], for a result. *)
Definition on_success (s : state) : state :=
  {| loading := loading s; loadingProgress := 100;
     loadingStage := stage_complete; error := error s;
     tickerRef := None; intervals := clear_ticker s;
     holds := holds s ++ [next_handle s];
     next_handle := Pos.succ (next_handle s);
     requests := requests s; inflight := inflight s |}.

(** The [catch] block of [handleSearch]. *)
Definition on_failure (e : exn) (s : state) : state :=
  {| loading := false; loadingProgress := 0; loadingStage := "";
     error := errorDetails e;
     tickerRef := None; intervals := clear_ticker s;
     holds := holds s; next_handle := next_handle s;
     requests := requests s; inflight := inflight s |}.

Definition awaiting (call : nat) (s : state) : bool :=
  existsb (Nat.eqb call) (inflight s).

Definition resume (call : nat) (s : state) : state :=
  {| loading := loading s; loadingProgress := loadingProgress s;
     loadingStage := loadingStage s; error := error s;
     tickerRef := tickerRef s; intervals := intervals s; holds := holds s;
     next_handle := next_handle s; requests := requests s;
     inflight := filter (fun c => negb (Nat.eqb c call)) (inflight s) |}.

Definition on_settle (call : nat) (r : axios_result) (s : state) : state :=
  if awaiting call s then
    match searchTools r with
    | Returned _ => on_success (resume call s)
    | Thrown e => on_failure e (resume call s)
    end
  else s.

(** The callback of [setTimeout(..., 700)]. *)
Definition on_hold (h : handle) (s : state) : state :=
  if existsb (Pos.eqb h) (holds s) then
    {| loading := false; loadingProgress := 0; loadingStage := "";
       error := error s;
       tickerRef := tickerRef s; intervals := intervals s;
       holds := filter (fun k => negb (Pos.eqb k h)) (holds s);
       next_handle := next_handle s; requests := requests s;
       inflight := inflight s |}
  else s.

Definition setError (e : json) (s : state) : state :=
  {| loading := loading s; loadingProgress := loadingProgress s;
     loadingStage := loadingStage s; error := e;
     tickerRef := tickerRef s; intervals := intervals s; holds := holds s;
     next_handle := next_handle s; requests := requests s;
     inflight := inflight s |}.

Definition step (e : event) (s : state) : state :=
  match e with
  | Submit query now => handleSearch query now s
  | Tick h now => on_tick h now s
  | Settle call r => on_settle call r s
  | HoldElapsed h => on_hold h s
  | SetError e => setError e s
  end.

Definition run (evs : list event) (s : state) : state :=
  fold_left (fun s e => step e s) evs s.

(** The states an observer sees along a run, the starting one first. *)
Fixpoint observed (evs : list event) (s : state) : list state :=
  s :: match evs with
       | [] => []
       | e :: rest => observed rest (step e s)
       end.

Definition reachable (s : state) : Prop := exists evs, s = run evs init.

End Controller.

(* ================================================================= *)
(** ** Toast container *)

Module Toasts.

(** [id] is [Date.now() + Math.random()]. *)
Record toast := { id : Q; message : string; type : string; duration : Z }.

(** The [toasts] state and the auto-remove timeouts still pending. *)
Record state := { toasts : list toast; timers : list Q }.

Definition init : state := {| toasts := []; timers := [] |}.

Definition identical (message0 type0 : string) (x : toast) : bool :=
  String.eqb (message x) message0 && String.eqb (type x) type0.

(** [addToast(message, type = "error", duration = 5000)]; [fresh] is the
    identifier the call draws. *)
Definition chosen_type (type0 : option string) : string :=
  match type0 with Some x => x | None => "error" end.

Definition chosen_duration (duration0 : option Z) : Z :=
  match duration0 with Some d => d | None => 5000 end.

Definition addToast (message0 : string) (type0 : option string)
    (duration0 : option Z) (fresh : Q) (s : state) : state :=
  let type1 := chosen_type type0 in
  let duration1 := chosen_duration duration0 in
  let exists_ := existsb (identical message0 type1) (toasts s) in
  if exists_ then s
  else
    let newToast :=
      {| id := fresh; message := message0; type := type1;
         duration := duration1 |} in
    {| toasts := toasts s ++ [newToast];
       timers := if duration1 >? 0 then timers s ++ [fresh] else timers s |}.

Definition removeToast (id0 : Q) (s : state) : state :=
  {| toasts := filter (fun x => negb (Qeq_bool (id x) id0)) (toasts s);
     timers := timers s |}.

Inductive event :=
| Add (message0 : string) (type0 : option string) (duration0 : option Z)
      (fresh : Q)
| TimerFired (id0 : Q)
| Close (id0 : Q).

Definition step (e : event) (s : state) : state :=
  match e with
  | Add m ty d fresh => addToast m ty d fresh s
  | TimerFired id0 =>
      if existsb (Qeq_bool id0) (timers s) then
        removeToast id0
          {| toasts := toasts s;
             timers := filter (fun k => negb (Qeq_bool k id0)) (timers s) |}
      else s
  | Close id0 => removeToast id0 s
  end.

Definition run (evs : list event) (s : state) : state :=
  fold_left (fun s e => step e s) evs s.

Definition key (x : toast) : string * string := (message x, type x).

(** No two toasts share their message and type. *)
Definition distinct (s : state) : Prop := NoDup (List.map key (toasts s)).

End Toasts.

(* ================================================================= *)
(** ** The simulator as the specification words it *)

Module SimulatorSpec.
Import Simulator.

Definition clamp01 (x : Q) : Q :=
  if Qle_bool x 0 then 0%Q else if Qle_bool 1 x then 1%Q else x.

(** 92 below 10s, 95 below 18s, 97 below 28s, 99 beyond. *)
Definition cap (elapsed : Z) : Z :=
  if elapsed <? 10000 then 92
  else if elapsed <? 18000 then 95
  else if elapsed <? 28000 then 97
  else 99.

(** The threshold of the stage before the stage at position [i], [0] for
    the first stage. *)
Definition prevThreshold (i : nat) : Z :=
  match i with
  | O => 0
  | S j => match nth_error stages j with Some s => t s | None => 0 end
  end.

(** [min + (effectiveMax - min) * eased] for the stage at position [i]. *)
Definition target_at (i : nat) (s : stage) (elapsed : Z) : Q :=
  let prev := prevThreshold i in
  let ratio := clamp01 (inject_Z (elapsed - prev) / inject_Z (t s - prev)) in
  let eased := (1 - (1 - ratio) ^ 3)%Q in
  let effectiveMax :=
    if Nat.eqb (S i) (List.length stages) then cap elapsed else max s in
  (inject_Z (min s) + inject_Z (effectiveMax - min s) * eased)%Q.

(** As stated: the current stage is the last whose threshold is at most the
    elapsed time. *)
Fixpoint last_reached (elapsed : Z) (l : list stage) (i : nat) : option nat :=
  match l with
  | [] => None
  | s :: rest =>
      match last_reached elapsed rest (S i) with
      | Some j => Some j
      | None => if t s <=? elapsed then Some i else None
      end
  end.

Definition stated_tick (elapsed : Z) : option (string * Q) :=
  match last_reached elapsed stages 0 with
  | Some i =>
      match nth_error stages i with
      | Some s => Some (label s, target_at i s elapsed)
      | None => None
      end
  | None => None
  end.

(** As amended: the current stage is the first whose threshold is at least
    the elapsed time, the final stage once every threshold has passed, and
    the target is rounded down. *)
Fixpoint first_unpassed (elapsed : Z) (l : list stage) (i : nat) : nat :=
  match l with
  | [] => i
  | [_] => i
  | s :: rest => if elapsed <=? t s then i else first_unpassed elapsed rest (S i)
  end.

Definition amended_tick (elapsed : Z) : option (string * Z) :=
  let i := first_unpassed elapsed stages 0 in
  match nth_error stages i with
  | Some s => Some (label s, Qfloor (target_at i s elapsed))
  | None => None
  end.

(** The code's tick agrees with a specified one: same label, same value. *)
Definition agrees (code : option (string * Z)) (spec : option (string * Q)) : Prop :=
  match code, spec with
  | Some (l1, target), Some (l2, q) => l1 = l2 /\ (inject_Z target == q)%Q
  | None, None => True
  | _, _ => False
  end.

(** The target of a stage with bounds [lo] and [hi] that began at [prevT]
    and spans [span] milliseconds, as the code computes it. *)
Definition eased (lo hi elapsed prevT span : Z) : Z :=
  Qfloor (inject_Z lo + inject_Z (hi - lo)
          * easeOutCubic (inject_Z (Z.min (Z.max (elapsed - prevT) 0) span)
                          / inject_Z span)).

End SimulatorSpec.

(* ================================================================= *)
(** ** The controller's guarantees as the specification words them *)

Module ControllerSpec.
Import JsString Json Gateway Controller.

Definition accepted (q : jsstring) : Prop :=
  Validator.handleSearch_precheck q = Validator.Accepted.

(** As stated: once [submit(b)] has followed [submit(a)], neither the
    settlement of [a]'s call nor a tick of [a]'s interval changes what the
    hook publishes. *)
Definition superseded_generation_is_inert : Prop :=
  forall (s0 : state) (a b : jsstring) (t0 t1 : Z),
    reachable s0 -> accepted a -> accepted b ->
    let s2 := step (Submit b t1) (step (Submit a t0) s0) in
    (forall r,
        published (step (Settle (List.length (requests s0)) r) s2)
        = published s2)
    /\ (forall now,
           published (step (Tick (next_handle s0) now) s2) = published s2).

(** As stated: a failure of a call in flight clears [loading], progress and
    stage and destroys the scheduled ticker, so that no tick publishes
    anything afterwards. *)
Definition error_path_leaves_nothing : Prop :=
  forall (s : state) (call : nat) (e : axios_error),
    reachable s -> awaiting call s = true ->
    let s' := step (Settle call (Rejected e)) s in
    loading s' = false /\ loadingProgress s' = 0 /\ loadingStage s' = ""
    /\ forall h now, published (step (Tick h now) s') = published s'.

(** As stated: whenever [loading] is set, the progress is below 100. *)
Definition pending_implies_below_100 : Prop :=
  forall s : state, reachable s -> loading s = true -> loadingProgress s < 100.

Definition is_tick (e : event) : bool :=
  match e with Tick _ _ => true | _ => false end.

(** Every event but a call that settles with a result. *)
Definition not_success (e : event) : bool :=
  match e with Settle _ (Fulfilled _) => false | _ => true end.

(** Timer identifiers are handed out once: every live interval carries an
    identifier below the next one. *)
Definition fresh_handles (s : state) : Prop :=
  Forall (fun p => (fst p < next_handle s)%positive) (intervals s).

End ControllerSpec.

(* ================================================================= *)
(** ** The gateway's guarantees as the specification words them *)

Module GatewaySpec.
Import Json Gateway.

(** A field error of a 422 body: [{loc: [...], msg: "..."}]. *)
Definition field_error : Type := list string * string.

Definition field_error_json (fe : field_error) : json :=
  JObj [("loc", JArr (List.map JStr (fst fe))); ("msg", JStr (snd fe))].

Definition detail_json (fes : list field_error) : json :=
  JArr (List.map field_error_json fes).

(** As stated: [{field, message}] under the kind [serverValidation]. *)
Definition stated_entry (fe : field_error) : json :=
  JObj [("field", JStr (String.concat "." (fst fe))); ("message", JStr (snd fe))].

Definition server_validation_as_stated : Prop :=
  forall (e : axios_error) (body : json) (fes : list field_error),
    err_response e = Some {| status := 422; data := body |} ->
    prop body "detail" = Some (detail_json fes) ->
    exists m payload,
      searchTools (Rejected e) = Thrown (Error m)
      /\ parse m = Some payload
      /\ prop payload "type" = Some (JStr "serverValidation")
      /\ prop payload "errors" = Some (JArr (List.map stated_entry fes))
      /\ prop payload "message" = Some (JStr msg_check_input).

(** As amended.  A field error is an object with a [loc] that lists field
    names and list indices and with a [msg], whatever its other keys and
    their order. *)
Definition segment (v : json) : bool :=
  match v with
  | JStr _ => true
  | JNum n => safe_integer n
  | _ => false
  end.

Definition is_field_error (err : json) : bool :=
  match prop err "loc", prop err "msg" with
  | Some (JArr path), Some _ => forallb segment path
  | _, _ => false
  end.

(** A name reads as it is, an index in decimal. *)
Definition segment_text (v : json) : string :=
  match v with
  | JStr s => s
  | JNum n => NilZero.string_of_int (Z.to_int n)
  | _ => ""
  end.

Definition location_path (err : json) : list json :=
  match prop err "loc" with
  | Some (JArr path) => path
  | _ => []
  end.

(** The kind is [validation], and every entry carries it too. *)
Definition amended_entry (err : json) : json :=
  JObj [("field",
         JStr (String.concat "." (List.map segment_text (location_path err))));
        ("message", match prop err "msg" with Some msg => msg | None => JNull end);
        ("type", JStr "validation")].

(** A message that is JSON for an object with a [type] among the three
    kinds and a [message]. *)
Definition structured (m : string) : Prop :=
  exists fields ty msg,
    parse m = Some (JObj fields)
    /\ lookup "type" fields = Some (JStr ty)
    /\ In ty ["validation"; "api"; "network"]
    /\ lookup "message" fields = Some msg.

(** As stated: whatever the failure, the thrown message is structured. *)
Definition every_failure_structured : Prop :=
  forall e : axios_error, structured (exn_message (searchTools_catch e)).

(** No object of the value, at any depth of nested arrays, has a key
    [toString] of its own. *)
Fixpoint printable (v : json) : bool :=
  match v with
  | JArr l => forallb printable l
  | JObj props =>
      match lookup "toString" props with
      | Some _ => false
      | None => true
      end
  | _ => true
  end.

(** An entry the map callback handles: not [null], its [loc] falsy or an
    array of printable values. *)
Definition entry_ok (err : json) : bool :=
  match err with
  | JNull => false
  | _ =>
      if truthy (prop err "loc") then
        match prop err "loc" with
        | Some (JArr path) => forallb printable path
        | _ => false
        end
      else true
  end.

(** The entries of a 422 detail list, when the failure carries one. *)
Definition detail_entries (e : axios_error) : list json :=
  match err_response e, response_detail e with
  | Some r, Some (JArr l) => if status r =? 422 then l else []
  | _, _ => []
  end.

End GatewaySpec.

(* ================================================================= *)
(** ** Sample failures *)

Module Samples.
Import JsString Json Gateway.

(** The 422 answer to a query that is too short. *)
Definition too_short_422 : axios_error :=
  {| err_message := "Request failed with status code 422";
     err_response :=
       Some {| status := 422;
               data := JObj [("detail",
                              JArr [JObj [("loc", JArr [JStr "body"; JStr "query"]);
                                          ("msg", JStr "too short")]])] |} |}.

(** A 422 answer whose detail list holds [null]. *)
Definition null_entry_422 : axios_error :=
  {| err_message := "Request failed with status code 422";
     err_response := Some {| status := 422;
                             data := JObj [("detail", JArr [JNull])] |} |}.

(** A 422 answer whose entry gives its location as a string. *)
Definition string_loc_422 : axios_error :=
  {| err_message := "Request failed with status code 422";
     err_response :=
       Some {| status := 422;
               data := JObj [("detail",
                              JArr [JObj [("loc", JStr "query");
                                          ("msg", JStr "too short")]])] |} |}.

(** A 422 answer as FastAPI sends it: the entry carries [type], [input] and
    [ctx] besides, and its location goes through a list index. *)
Definition pydantic_entry : json :=
  JObj [("type", JStr "string_too_short");
        ("loc", JArr [JStr "body"; JStr "items"; JNum 0; JStr "name"]);
        ("msg", JStr "String should have at least 2 characters");
        ("input", JStr "a");
        ("ctx", JObj [("min_length", JNum 2)])].

Definition pydantic_body : json := JObj [("detail", JArr [pydantic_entry])].

Definition pydantic_422 : axios_error :=
  {| err_message := "Request failed with status code 422";
     err_response := Some {| status := 422; data := pydantic_body |} |}.

(** A 422 answer whose location holds an object with a key [toString]. *)
Definition toString_key_422 : axios_error :=
  {| err_message := "Request failed with status code 422";
     err_response :=
       Some {| status := 422;
               data := JObj [("detail",
                              JArr [JObj [("loc", JArr [JStr "body";
                                                        JObj [("toString", JNum 1)]]);
                                          ("msg", JStr "bad")]])] |} |}.

(** The connection could not be made. *)
Definition connection_refused : axios_error :=
  {| err_message := "Network Error"; err_response := None |}.

(** A search submitted when the clock reads 0, three seconds in. *)
Definition pending_3s : Controller.state :=
  Controller.run [Controller.Submit (lit "Python web frameworks") 0;
                  Controller.Tick 1%positive 3000] Controller.init.

(** A second search submitted 100 ms after the first, both calls pending. *)
Definition two_pending : Controller.state :=
  Controller.run [Controller.Submit (lit "ab") 0;
                  Controller.Submit (lit "cd") 100] Controller.init.

(** The first call of a search has just succeeded. *)
Definition just_succeeded : Controller.state :=
  Controller.run [Controller.Submit (lit "ab") 0;
                  Controller.Settle 0 (Fulfilled JNull)] Controller.init.

(** The container after one warning toast. *)
Definition one_warning : Toasts.state :=
  Toasts.run [Toasts.Add "Query cannot be empty" (Some "warning") (Some 4000)
                         (7 # 2)] Toasts.init.

End Samples.

(* ================================================================= *)
(** ** The validator's patterns, word by word *)

Module ValidatorSpec.
Import JsString Regex Validator.

(** The literals of [dangerousPatterns]. *)
Definition dangerous_words : list string :=
  [ "<script"; "javascript:"; "data:text/html"; "vbscript:"; "onload=";
    "onerror="; "<iframe"; "<object"; "<embed"; "<link"; "<meta"; "<style" ].

(** The shapes of [sqlPatterns]: a keyword, a run of whitespace, a keyword. *)
Definition sql_shapes : list (string * item * string) :=
  [ ("union", SpacePlus, "select"); ("drop", SpacePlus, "table");
    ("delete", SpacePlus, "from"); ("insert", SpacePlus, "into");
    ("update", SpacePlus, "set"); (";", SpaceStar, "drop");
    (";", SpaceStar, "delete"); (";", SpaceStar, "insert");
    (";", SpaceStar, "update") ].

Definition shape_pattern (shape : string * item * string) : pattern :=
  let '(k1, sep, k2) := shape in (chars k1 ++ [sep] ++ chars k2)%list.

(** The code units [xs] spell the word [w], letter case apart. *)
Definition spelled (w : string) (xs : jsstring) : Prop :=
  Forall2 (fun c x => chr_matches c x = true) (list_ascii_of_string w) xs.

(** A run of whitespace that the separator of a shape accepts. *)
Definition separates (sep : item) (ws : jsstring) : Prop :=
  forallb is_space ws = true
  /\ match sep with SpacePlus => ws <> [] | _ => True end.

(** The loop of [\s*]: try the rest of the pattern here, or skip one
    whitespace character. *)
Definition star (p : pattern) : jsstring -> bool :=
  fix star (s : jsstring) : bool :=
    match_here p s
    || match s with
       | x :: s' => is_space x && star s'
       | [] => false
       end.

Definition count_visible (s : jsstring) : nat :=
  List.length (filter (fun c => negb (is_space c)) s).

End ValidatorSpec.

(* ================================================================= *)
(** ** The special-character check in double arithmetic *)

Module ValidatorDoubles.
Import JsString Validator.

(** A length or a count as a double: both are integers far below [2^53]. *)
Definition double_of (n : Z) : float := PrimFloat.of_uint63 (Uint63.of_Z n).

(** [specialCharCount > query.length * 0.3] as the engine computes it: the
    literal [0.3] is the double [0x1.3333333333333p-2], the product is
    rounded to the nearest double, and two doubles are compared. *)
Definition tooManySpecial_double (query : jsstring) : bool :=
  PrimFloat.ltb
    (PrimFloat.mul (double_of (length query)) 0x1.3333333333333p-2%float)
    (double_of (specialCharCount query)).

End ValidatorDoubles.

(* ================================================================= *)
(** ** More of the gateway's payloads *)

Module GatewayShapes.
Import Json Gateway.

(** What the map callback makes of one entry of a 422 detail list. *)
Definition entry_of (err entry : json) : Prop :=
  prop entry "type" = Some (JStr "validation")
  /\ prop entry "message" = prop err "msg"
  /\ prop entry "field"
     = match prop err "loc" with
       | Some (JArr path) => option_map JStr (join "." path)
       | _ => Some (JStr "query")
       end.

(** A 404 with FastAPI's [detail] string. *)
Definition not_found_404 : axios_error :=
  {| err_message := "Request failed with status code 404";
     err_response := Some {| status := 404;
                             data := JObj [("detail", JStr "Not Found")] |} |}.

(** A 502 from a proxy, with an HTML body. *)
Definition bad_gateway_502 : axios_error :=
  {| err_message := "Request failed with status code 502";
     err_response := Some {| status := 502;
                             data := JStr "<html>Bad Gateway</html>" |} |}.

(** A detail list whose second entry names no location and no message. *)
Definition bare_entry_detail : list json :=
  [ JObj [("loc", JArr [JStr "body"; JNum 0; JStr "name"]); ("msg", JStr "required")];
    JObj [("ctx", JNull)] ].

End GatewayShapes.


(* ================================================================= *)
(** ** Readings of the simulator *)

Module SimulatorReadings.
Import Simulator.

(** The target of a tick, [0] if the stage table were empty. *)
Definition target_of (elapsed : Z) : Z :=
  match tick elapsed with Some (_, target) => target | None => 0 end.

End SimulatorReadings.

(* ================================================================= *)
(** ** The hook's bookkeeping *)

Module ControllerLedger.
Import JsString Json Gateway Controller.

(** The queries of the submissions that pass the hook's checks, in order. *)
Fixpoint accepted_queries (evs : list event) : list jsstring :=
  match evs with
  | [] => []
  | Submit q _ :: rest =>
      match Validator.handleSearch_precheck q with
      | Validator.Accepted => q :: accepted_queries rest
      | _ => accepted_queries rest
      end
  | _ :: rest => accepted_queries rest
  end.

(** What holds of the timers and calls the hook keeps track of. *)
Definition tidy (s : state) : Prop :=
  (forall h, tickerRef s = Some h -> startTime_of h (intervals s) <> None)
  /\ NoDup (List.map fst (intervals s))
  /\ Forall (fun p => (fst p < next_handle s)%positive) (intervals s)
  /\ Forall (fun k => (k < next_handle s)%positive) (holds s)
  /\ NoDup (inflight s)
  /\ Forall (fun c => (c < List.length (requests s))%nat) (inflight s).

End ControllerLedger.

(* ================================================================= *)
(** ** The search form: the handlers of [SearchSection.jsx] *)

Module SearchSection.
Import JsString Json Validator.

(** What a handler asks of its surroundings: the props it calls and the
    global [window.addToast]. *)
Inductive action :=
| OnSearch
| SetQuery (q : jsstring)
| OnValidationError (e : json)
| AddToast (message0 type0 : string) (duration0 : Z).

(** [String.prototype.includes]. *)
Fixpoint includes (hay needle : string) : bool :=
  String.prefix needle hay
  || match hay with
     | String _ hay' => includes hay' needle
     | EmptyString => false
     end.

(** [validation.message] of a refusal; [validateQuery] gives every refusal
    one. *)
Definition message_of (v : validation) : string :=
  match message v with Some m => m | None => "" end.

(** The [else] branch shared by [handleKeyPress] and [handleSearchClick]. *)
Definition report (v : validation) : list action :=
  [ AddToast (message_of v) "warning" 4000;
    OnValidationError
      (JObj [("type", JStr "validation");
             ("message", JStr (message_of v));
             ("errors", JArr [JObj [("field", JStr "query");
                                    ("message", JStr (message_of v))]])]) ].

Definition handleSearchClick (query : jsstring) : list action :=
  let validation := validateQuery query in
  if isValid validation then [OnSearch] else report validation.

Definition handleKeyPress (key : string) (query : jsstring) : list action :=
  if String.eqb key "Enter" then
    let validation := validateQuery query in
    if isValid validation then [OnSearch] else report validation
  else [].

Definition handleInputChange (newQuery : jsstring) (error : json) : list action :=
  [SetQuery newQuery]
  ++ (if truthy (Some error) then [OnValidationError JNull] else [])
  ++ (if length newQuery >? 0 then
        let validation := validateQuery newQuery in
        if negb (isValid validation)
           && (includes (message_of validation) "dangerous"
               || includes (message_of validation) "SQL")
        then [AddToast (message_of validation) "warning" 3000]
        else []
      else [])%list.

(** The effect on [error]: the toast it schedules 100 ms later, if any.
    [error.message || "An error occurred"] is kept as the JSON value it
    is. *)
Definition errorToast (error : json) : option (json * string * Z) :=
  if truthy (Some error) then
    let toastType :=
      match prop error "type" with
      | Some (JStr "validation") => "warning"
      | _ => "error"
      end in
    let message :=
      if truthy (prop error "message") then
        match prop error "message" with
        | Some m => m
        | None => JStr "An error occurred"
        end
      else JStr "An error occurred" in
    Some (message, toastType, 6000)
  else None.

(** [disabled] of the text input and of the example buttons. *)
Definition input_disabled (loading : bool) : bool := loading.

(** [disabled] of the search button: [loading || !query.trim()]. *)
Definition button_disabled (loading : bool) (query : jsstring) : bool :=
  loading || falsy (trim query).

(** A list of actions that never starts a search. *)
Definition quiet (acts : list action) : Prop :=
  Forall (fun act => act <> OnSearch) acts.

Definition exampleQueries : list jsstring :=
  [ lit "JavaScript testing frameworks"; lit "Python web frameworks";
    lit "React state management tools"; lit "Machine learning libraries";
    lit "Web scraping tools"; lit "C++ libraries and frameworks" ].

End SearchSection.

(* ================================================================= *)
(** ** The [App] component around the hook and the form *)

Module App.
Import JsString Json Gateway SearchSection.

(** [query] and [results] of [App] and the state of its [useSearch] hook.
    The route and the toast container keep their own state and take no part
    here. *)
Record app := {
  query : jsstring;
  results : json;
  hook : Controller.state
}.

Definition init : app :=
  {| query := []; results := JNull; hook := Controller.init |}.

Fixpoint same_string (a b : jsstring) : bool :=
  match a, b with
  | [], [] => true
  | x :: a', y :: b' => (x =? y)%N && same_string a' b'
  | _, _ => false
  end.

(** [setQuery], with the effect of [App] that runs when [query] has
    changed: [if (error) setError(null)]. *)
Definition setQuery (q : jsstring) (a : app) : app :=
  {| query := q; results := results a;
     hook := if negb (same_string q (query a))
                && truthy (Some (Controller.error (hook a)))
             then Controller.setError JNull (hook a)
             else hook a |}.

(** One action of a form handler, at clock reading [now].  [onSearch] calls
    [handleSearch(query)]; toasts go to the toast container. *)
Definition perform (now : Z) (a : app) (act : action) : app :=
  match act with
  | OnSearch =>
      {| query := query a; results := results a;
         hook := Controller.handleSearch (query a) now (hook a) |}
  | SetQuery q => setQuery q a
  | OnValidationError e =>
      {| query := query a; results := results a;
         hook := Controller.setError e (hook a) |}
  | AddToast _ _ _ => a
  end.

Definition perform_all (now : Z) (acts : list action) (a : app) : app :=
  fold_left (perform now) acts a.

Inductive event :=
| Change (newQuery : jsstring)
| PressKey (key : string) (now : Z)
| Click (now : Z)
| PickExample (i : nat)
| Hook (e : Controller.event).

(** [onSearch] after its [await]: [if (searchResults) setResults(...)]. *)
Definition after_search (e : Controller.event) (a : app) : json :=
  match e with
  | Controller.Settle call (Fulfilled body) =>
      if Controller.awaiting call (hook a) && truthy (Some body)
      then body else results a
  | _ => results a
  end.

(** The events the event loop delivers to the hook on its own: ticks,
    settlements and the completion hold.  Submissions come from the form
    only. *)
Definition delivered (e : Controller.event) : bool :=
  match e with
  | Controller.Tick _ _ | Controller.Settle _ _ | Controller.HoldElapsed _ => true
  | _ => false
  end.

Definition step (e : event) (a : app) : app :=
  let loading := Controller.loading (hook a) in
  match e with
  | Change newQuery =>
      if input_disabled loading then a
      else perform_all 0 (handleInputChange newQuery (Controller.error (hook a))) a
  | PressKey key now =>
      if input_disabled loading then a
      else perform_all now (handleKeyPress key (query a)) a
  | Click now =>
      if button_disabled loading (query a) then a
      else perform_all now (handleSearchClick (query a)) a
  | PickExample i =>
      if input_disabled loading then a
      else match nth_error exampleQueries i with
           | Some example => setQuery example a
           | None => a
           end
  | Hook e =>
      if delivered e then
        {| query := query a; results := after_search e a;
           hook := Controller.step e (hook a) |}
      else a
  end.

Definition run (evs : list event) (a : app) : app :=
  fold_left (fun a e => step e a) evs a.

(** [!loading && results]: the results section is on screen. *)
Definition shows_results (a : app) : bool :=
  negb (Controller.loading (hook a)) && truthy (Some (results a)).

(** The app after its first render, with [q] in the input. *)
Definition typed (q : jsstring) : app :=
  {| query := q; results := JNull; hook := Controller.init |}.

(** A search for Python web frameworks, just submitted. *)
Definition searching : app :=
  run [Change (lit "Python web frameworks"); Click 0] init.

(** A query with too many special characters has just been refused. *)
Definition refused : app := step (Click 0) (typed (lit "a!!b")).

End App.

(* ================================================================= *)
(** ** The phases of the hook *)

Module Phases.
Import Json Controller.

Definition idle (s : state) : Prop :=
  loading s = false /\ loadingProgress s = 0 /\ loadingStage s = ""
  /\ tickerRef s = None /\ intervals s = [] /\ holds s = []
  /\ inflight s = [].

Definition pending (s : state) : Prop :=
  loading s = true /\ 0 <= loadingProgress s < 100 /\ holds s = []
  /\ exists call h startTime,
       inflight s = [call] /\ intervals s = [(h, startTime)]
       /\ tickerRef s = Some h.

Definition holding (s : state) : Prop :=
  loading s = true /\ loadingProgress s = 100 /\ loadingStage s = stage_complete
  /\ tickerRef s = None /\ intervals s = [] /\ inflight s = []
  /\ exists k, holds s = [k].

Definition phase (s : state) : Prop := idle s \/ pending s \/ holding s.

End Phases.


(* ================================================================= *)
(** ** The toast container's timeouts *)

Module ToastLedger.
Import Toasts.

(** Every toast that is to expire has its timeout pending. *)
Definition timed (s : state) : Prop :=
  forall x, In x (toasts s) -> duration x > 0 ->
            existsb (Qeq_bool (id x)) (timers s) = true.

End ToastLedger.

(* ================================================================= *)
(** ** The results section: the markup made of the analysis text *)

Module ResultsSection.
Import JsString.

Definition is_star (c : code_unit) : bool := (c =? 42)%N.

(** What [.] does not match: the line terminators, line feed, carriage
    return, U+2028 and U+2029. *)
Definition line_terminator (c : code_unit) : bool :=
  ((c =? 10) || (c =? 13) || (c =? 8232) || (c =? 8233))%N.

Definition line_feed (c : code_unit) : bool := (c =? 10)%N.

Definition cons_inner (c : code_unit) (r : option (jsstring * jsstring))
  : option (jsstring * jsstring) :=
  match r with
  | Some (inner, rest) => Some (c :: inner, rest)
  | None => None
  end.

(** [(.*?)\*\*]: the shortest run of characters up to the next [**], within
    the line; the run and what follows the [**]. *)
Fixpoint closing (s : jsstring) : option (jsstring * jsstring) :=
  match s with
  | [] => None
  | a :: s' =>
      let further :=
        if line_terminator a then None else cons_inner a (closing s') in
      match s' with
      | b :: rest => if is_star a && is_star b then Some ([], rest) else further
      | [] => further
      end
  end.

(** [/\*\*(.*?)\*\*/] at the head of [s]. *)
Definition bold_here (s : jsstring) : option (jsstring * jsstring) :=
  match s with
  | a :: b :: rest => if is_star a && is_star b then closing rest else None
  | _ => None
  end.

(** [.replace(/\*\*(.*?)\*\*/g, "<strong>$1</strong>")]: matches are taken
    from left to right, each search resuming after the match before. *)
Fixpoint bold (fuel : nat) (s : jsstring) : jsstring :=
  match fuel with
  | O => s
  | S fuel' =>
      match bold_here s with
      | Some (inner, rest) =>
          (lit "<strong>" ++ inner ++ lit "</strong>" ++ bold fuel' rest)%list
      | None =>
          match s with
          | a :: s' => a :: bold fuel' s'
          | [] => []
          end
      end
  end.

(** [.replace(/\n/g, "<br />")] *)
Fixpoint breaks (s : jsstring) : jsstring :=
  match s with
  | [] => []
  | c :: s' =>
      if line_feed c then (lit "<br />" ++ breaks s')%list
      else c :: breaks s'
  end.

(** The [__html] handed to [dangerouslySetInnerHTML]. *)
Definition formatAnalysis (analysis : jsstring) : jsstring :=
  breaks (bold (List.length analysis) analysis).

End ResultsSection.

(* ================================================================= *)
(** * Runs of the definitions on concrete inputs *)

Module ValidatorExamples.
Import JsString Regex Validator.

Example validate_frameworks :
  validateQuery (lit "Python web frameworks") = {| isValid := true; message := None |}.
Proof. vm_compute. reflexivity. Qed.

Example validate_script :
  validateQuery (lit "<script>alert(1)</script>") = invalid msg_dangerous.
Proof. vm_compute. reflexivity. Qed.

Example validate_union :
  validateQuery (lit "union select * from users") = invalid msg_sql.
Proof. vm_compute. reflexivity. Qed.

Example validate_special :
  validateQuery (lit "a!!b") = invalid msg_special.
Proof. vm_compute. reflexivity. Qed.

End ValidatorExamples.

Module JsonExamples.
Import Json.

Example stringify_nested :
  stringify (JObj [("a", JArr [JNum 1; JNull; JStr "x"]); ("b", JBool true)])
  = String "{" (quote "a" ++ ":[1,null," ++ quote "x" ++ "]," ++ quote "b" ++ ":true}").
Proof. vm_compute. reflexivity. Qed.

Example parse_nested :
  let v := JObj [("a", JArr [JNum (-12); JNull; JStr "x"; JArr []; JObj []]);
                 ("b", JObj [("c", JBool false)])] in
  parse (stringify v) = Some v.
Proof. vm_compute. reflexivity. Qed.

Example parse_spaced :
  parse (" [ 1 , { " ++ quote "k" ++ " : [ ] } ] ")
  = Some (JArr [JNum 1; JObj [("k", JArr [])]]).
Proof. vm_compute. reflexivity. Qed.

Example parse_plain_text :
  parse "Cannot read properties of null (reading 'loc')" = None.
Proof. vm_compute. reflexivity. Qed.

Example join_mixed :
  join "." [JStr "body"; JNum 0; JNull; JBool true;
            JArr [JNum 1; JArr [JNull; JNum (-2)]]; JObj [("valueOf", JNum 1)]]
  = Some "body.0..true.1,,-2.[object Object]".
Proof. vm_compute. reflexivity. Qed.

Example join_hidden_method :
  join "." [JStr "body"; JArr [JObj [("toString", JNull)]]] = None.
Proof. vm_compute. reflexivity. Qed.

End JsonExamples.

Module GatewayExamples.
Import Json Gateway Samples.

Example too_short_thrown :
  option_map (fun m => parse m)
    (match searchTools (Rejected too_short_422) with
     | Thrown (Error m) => Some m | _ => None end)
  = Some (Some (JObj [("type", JStr "validation");
                      ("errors", JArr [JObj [("field", JStr "body.query");
                                            ("message", JStr "too short");
                                            ("type", JStr "validation")]]);
                      ("message", JStr msg_check_input)])).
Proof. vm_compute. reflexivity. Qed.

End GatewayExamples.

Module SimulatorExamples.
Import Simulator.

Example tick_0 : tick 0 = Some ("Analyzing query and extracting tools...", 5).
Proof. vm_compute. reflexivity. Qed.

Example tick_400 : tick 400 = Some ("Analyzing query and extracting tools...", 22).
Proof. vm_compute. reflexivity. Qed.

Example tick_1000 : tick 1000 = Some ("Researching individual tools...", 37).
Proof. vm_compute. reflexivity. Qed.

Example tick_6500 : tick 6500 = Some ("Generating recommendations...", 92).
Proof. vm_compute. reflexivity. Qed.

Example tick_30000 : tick 30000 = Some ("Generating recommendations...", 99).
Proof. vm_compute. reflexivity. Qed.

End SimulatorExamples.

Module ControllerExamples.
Import JsString Json Gateway Controller.

Example single_search :
  List.map published
    (observed [Submit (lit "Python web frameworks") 1000;
               Tick 1%positive 1150; Tick 1%positive 1400;
               Settle 0 (Fulfilled (JObj [("companies", JArr []);
                                          ("analysis", JStr "none")]));
               HoldElapsed 2%positive] init)
  = [ (false, 0, "", JNull);
      (true, 0, "Initializing...", JNull);
      (true, 14, "Analyzing query and extracting tools...", JNull);
      (true, 22, "Analyzing query and extracting tools...", JNull);
      (true, 100, stage_complete, JNull);
      (false, 0, "", JNull) ].
Proof. vm_compute. reflexivity. Qed.

Example failed_search :
  published
    (run [Submit (lit "Python web frameworks") 1000; Tick 1%positive 1150;
          Settle 0 (Rejected Samples.too_short_422)] init)
  = (false, 0, "",
     JObj [("type", JStr "validation");
           ("errors", JArr [JObj [("field", JStr "body.query");
                                 ("message", JStr "too short");
                                 ("type", JStr "validation")]]);
           ("message", JStr msg_check_input)]).
Proof. vm_compute. reflexivity. Qed.

End ControllerExamples.

(* ================================================================= *)
(** * Proofs *)

(** ** [JSON.parse] reads back what [JSON.stringify] prints *)

Module JsonFacts.
Import Json.

(** *** Strings *)

Lemma parse_chars_escape (c : ascii) (tail : string) :
  parse_chars (escape c ++ tail) = cons_char c (parse_chars tail).
Proof.
  destruct c as [[] [] [] [] [] [] [] []]; reflexivity.
Qed.

Lemma append_assoc (a b c : string) : (a ++ b) ++ c = a ++ (b ++ c).
Proof. induction a as [|x a IH]; cbn; [reflexivity | rewrite IH; reflexivity]. Qed.

Lemma parse_chars_escape_all (s rest : string) :
  parse_chars (escape_all s ++ String dquote rest) = Some (s, rest).
Proof.
  induction s as [|c s IH]; cbn [escape_all].
  - reflexivity.
  - rewrite append_assoc, parse_chars_escape, IH. reflexivity.
Qed.

Lemma quote_append (s rest : string) :
  quote s ++ rest = String dquote (escape_all s ++ String dquote rest).
Proof. unfold quote. cbn. rewrite append_assoc. reflexivity. Qed.

(** *** Numbers *)

Lemma take_digits_delimited (rest : string) :
  delimited rest -> take_digits rest = (Decimal.Nil, rest).
Proof.
  destruct rest as [|c r]; cbn; [reflexivity|].
  intros [->|[->| ->]]; reflexivity.
Qed.

Lemma starts_fraction_delimited (rest : string) :
  delimited rest -> starts_fraction rest = false.
Proof.
  destruct rest as [|c r]; cbn; [reflexivity|].
  intros [->|[->| ->]]; reflexivity.
Qed.

Lemma take_digits_print (u : Decimal.uint) (rest : string) :
  delimited rest ->
  take_digits (NilEmpty.string_of_uint u ++ rest) = (u, rest).
Proof.
  intros Hrest.
  induction u; cbn [NilEmpty.string_of_uint append];
    [apply take_digits_delimited, Hrest | cbn; rewrite IHu; reflexivity ..].
Qed.

Lemma to_uint_normal (p : positive) : Pos.to_uint p = Decimal.unorm (Pos.to_uint p).
Proof.
  rewrite <- (Unsigned.to_of (Pos.to_uint p)), Unsigned.of_to. reflexivity.
Qed.

Lemma to_uint_no_leading_zero (p : positive) (u : Decimal.uint) :
  Pos.to_uint p <> Decimal.D0 u.
Proof.
  intros H. pose proof (to_uint_normal p) as Hn.
  pose proof (Unsigned.to_uint_nonzero p) as Hz.
  unfold Decimal.unorm in Hn.
  destruct (Decimal.nzhead (Pos.to_uint p)) as [|u0|u0|u0|u0|u0|u0|u0|u0|u0|u0] eqn:E;
    try congruence.
  apply (nzhead_nonzero (Pos.to_uint p) u0). congruence.
Qed.

Lemma sign_split_digits (u : Decimal.uint) (rest : string) :
  u <> Decimal.Nil ->
  sign_split (NilEmpty.string_of_uint u ++ rest)
  = (false, NilEmpty.string_of_uint u ++ rest).
Proof. destruct u; intros H; [contradiction | reflexivity ..]. Qed.

Lemma parse_number_unsigned (neg : bool) (p : positive) (rest : string) :
  delimited rest ->
  (let (u, r) := take_digits (NilEmpty.string_of_uint (Pos.to_uint p) ++ rest) in
   match u with
   | Decimal.Nil => None
   | Decimal.D0 Decimal.Nil => if starts_fraction r then None else Some (0, r)
   | Decimal.D0 _ => None
   | _ =>
       if starts_fraction r then None
       else Some (Z.of_int (if neg then Decimal.Neg u else Decimal.Pos u), r)
   end)
  = Some (Z.of_int (if neg then Decimal.Neg (Pos.to_uint p)
                    else Decimal.Pos (Pos.to_uint p)), rest).
Proof.
  intros Hrest. rewrite (take_digits_print _ _ Hrest).
  rewrite (starts_fraction_delimited _ Hrest).
  pose proof (to_uint_no_leading_zero p) as Hz.
  pose proof (Unsigned.to_uint_nonnil p) as Hn.
  destruct (Pos.to_uint p) as [|u|u|u|u|u|u|u|u|u|u];
    [contradiction | exfalso; apply (Hz u); reflexivity | reflexivity ..].
Qed.

Lemma string_of_uint_nonnil (u : Decimal.uint) :
  u <> Decimal.Nil -> NilZero.string_of_uint u = NilEmpty.string_of_uint u.
Proof. destruct u; intros H; [contradiction | reflexivity ..]. Qed.

Lemma parse_number_print (z : Z) (rest : string) :
  delimited rest ->
  parse_number (number_to_string z ++ rest) = Some (z, rest).
Proof.
  intros Hrest. unfold parse_number, number_to_string.
  pose proof (DecimalZ.of_to z) as Hz.
  destruct z as [|p|p]; cbn [Z.to_int NilZero.string_of_int] in *.
  - cbn. rewrite (take_digits_delimited _ Hrest), (starts_fraction_delimited _ Hrest).
    reflexivity.
  - rewrite string_of_uint_nonnil by apply Unsigned.to_uint_nonnil.
    rewrite sign_split_digits by apply Unsigned.to_uint_nonnil.
    rewrite (parse_number_unsigned false p rest Hrest), Hz. reflexivity.
  - rewrite string_of_uint_nonnil by apply Unsigned.to_uint_nonnil.
    cbn [append sign_split]. change (N_of_ascii "-" =? 45)%N with true. cbv iota.
    rewrite (parse_number_unsigned true p rest Hrest), Hz. reflexivity.
Qed.


(** *** Values *)

Lemma json_nested_ind (P : json -> Prop) :
  P JNull ->
  (forall b, P (JBool b)) ->
  (forall n, P (JNum n)) ->
  (forall s, P (JStr s)) ->
  (forall l, Forall P l -> P (JArr l)) ->
  (forall l, Forall (fun kv => P (snd kv)) l -> P (JObj l)) ->
  forall v, P v.
Proof.
  intros HNull HBool HNum HStr HArr HObj.
  fix IH 1. intros [|b|n|s|l|l].
  - exact HNull.
  - apply HBool.
  - apply HNum.
  - apply HStr.
  - apply HArr. induction l as [|v l IHl]; constructor; [apply IH | exact IHl].
  - apply HObj. induction l as [|[k v] l IHl]; constructor; [apply IH | exact IHl].
Qed.

Lemma parse_value_number (fuel : nat) (c : ascii) (r : string) :
  numeric_head c = true ->
  parse_value (S fuel) (String c r)
  = match parse_number (String c r) with
    | Some (z, r') => Some (JNum z, r')
    | None => None
    end.
Proof.
  destruct c as [[] [] [] [] [] [] [] []]; intros H; try discriminate H; reflexivity.
Qed.

Lemma number_head (z : Z) (rest : string) :
  exists c r, number_to_string z ++ rest = String c r /\ numeric_head c = true.
Proof.
  unfold number_to_string. destruct z as [|p|p]; cbn [Z.to_int NilZero.string_of_int].
  - eexists _, _. split; reflexivity.
  - rewrite string_of_uint_nonnil by apply Unsigned.to_uint_nonnil.
    pose proof (Unsigned.to_uint_nonnil p) as Hn.
    destruct (Pos.to_uint p); [contradiction | eexists _, _; split; reflexivity ..].
  - eexists _, _. split; reflexivity.
Qed.

Lemma parse_value_num (fuel : nat) (z : Z) (rest : string) :
  delimited rest ->
  parse_value (S fuel) (number_to_string z ++ rest) = Some (JNum z, rest).
Proof.
  intros Hrest. destruct (number_head z rest) as (c & r & Hs & Hc).
  rewrite Hs, (parse_value_number fuel c r Hc), <- Hs.
  rewrite (parse_number_print z rest Hrest). reflexivity.
Qed.

Lemma parse_value_str (fuel : nat) (s rest : string) :
  parse_value (S fuel) (quote s ++ rest) = Some (JStr s, rest).
Proof.
  rewrite quote_append.
  change (parse_value (S fuel) (String dquote (escape_all s ++ String dquote rest)))
    with (match parse_chars (escape_all s ++ String dquote rest) with
          | Some (str, r') => Some (JStr str, r')
          | None => None
          end).
  rewrite parse_chars_escape_all. reflexivity.
Qed.

Lemma stringify_opens (v : json) (rest : string) : opens_value (stringify v ++ rest).
Proof.
  destruct v as [|[]|n|s|l|l]; try (cbn; repeat split; reflexivity).
  cbn [stringify]. destruct (number_head n rest) as (c & r & -> & Hc).
  cbn. destruct c as [[] [] [] [] [] [] [] []]; try discriminate Hc;
    repeat split; reflexivity.
Qed.

Lemma length_append (a b : string) :
  String.length (a ++ b) = (String.length a + String.length b)%nat.
Proof. induction a as [|c a IH]; cbn; [reflexivity | rewrite IH; reflexivity]. Qed.

Lemma stringify_nonempty (v : json) : (1 <= String.length (stringify v))%nat.
Proof.
  pose proof (stringify_opens v "") as H.
  destruct (stringify v ++ "") as [|c r] eqn:E; [contradiction|].
  assert (L : String.length (stringify v ++ "") = S (String.length r))
    by (rewrite E; reflexivity).
  rewrite length_append in L. cbn in L. lia.
Qed.


Lemma skip_ws_opens (s : string) : opens_value s -> skip_ws s = s.
Proof.
  destruct s as [|c r]; [contradiction|]. intros (Hws & _). cbn. rewrite Hws.
  reflexivity.
Qed.

Lemma parse_value_array (fuel : nat) (r : string) :
  opens_value r ->
  parse_value (S fuel) (String "[" r)
  = match parse_items fuel r with
    | Some (l, r') => Some (JArr l, r')
    | None => None
    end.
Proof.
  intros H.
  change (parse_value (S fuel) (String "[" r))
    with (match skip_ws r with
          | String c' r' =>
              if (N_of_ascii c' =? 93)%N then Some (JArr [], r')
              else match parse_items fuel (String c' r') with
                   | Some (l, r'') => Some (JArr l, r'')
                   | None => None
                   end
          | EmptyString => None
          end).
  rewrite (skip_ws_opens r H). destruct r as [|c r']; [contradiction|].
  destruct H as (_ & -> & _). reflexivity.
Qed.

Lemma parse_value_object (fuel : nat) (r : string) :
  parse_value (S fuel) (String "{" (String dquote r))
  = match parse_members fuel (String dquote r) with
    | Some (l, r') => Some (JObj l, r')
    | None => None
    end.
Proof. reflexivity. Qed.

Lemma parse_items_step (fuel : nat) (s : string) :
  parse_items (S fuel) s
  = match parse_value fuel s with
    | Some (v, r) =>
        match skip_ws r with
        | String c r' =>
            if (N_of_ascii c =? 93)%N then Some ([v], r')
            else if (N_of_ascii c =? 44)%N then
              match parse_items fuel r' with
              | Some (l, r'') => Some (v :: l, r'')
              | None => None
              end
            else None
        | EmptyString => None
        end
    | None => None
    end.
Proof. reflexivity. Qed.

Lemma parse_members_step (fuel : nat) (k r : string) :
  parse_members (S fuel) (quote k ++ String ":" r)
  = match parse_value fuel r with
    | Some (v, r1) =>
        match skip_ws r1 with
        | String c r' =>
            if (N_of_ascii c =? 125)%N then Some ([(k, v)], r')
            else if (N_of_ascii c =? 44)%N then
              match parse_members fuel r' with
              | Some (l, r'') => Some ((k, v) :: l, r'')
              | None => None
              end
            else None
        | EmptyString => None
        end
    | None => None
    end.
Proof.
  rewrite quote_append.
  change (parse_members (S fuel) (String dquote (escape_all k ++ String dquote (String ":" r))))
    with (match parse_chars (escape_all k ++ String dquote (String ":" r)) with
          | Some (k, r1) =>
              match skip_ws r1 with
              | String colon r2 =>
                  if (N_of_ascii colon =? 58)%N then
                    match parse_value fuel r2 with
                    | Some (v, r) =>
                        match skip_ws r with
                        | String c r' =>
                            if (N_of_ascii c =? 125)%N then Some ([(k, v)], r')
                            else if (N_of_ascii c =? 44)%N then
                              match parse_members fuel r' with
                              | Some (l, r'') => Some ((k, v) :: l, r'')
                              | None => None
                              end
                            else None
                        | EmptyString => None
                        end
                    | None => None
                    end
                  else None
              | EmptyString => None
              end
          | None => None
          end).
  rewrite parse_chars_escape_all. reflexivity.
Qed.

Lemma commas_cons (x : string) (l : list string) :
  commas (x :: l) = x ++ match l with [] => "" | _ :: _ => "," ++ commas l end.
Proof. reflexivity. Qed.

Lemma append_empty (s : string) : s ++ "" = s.
Proof. induction s as [|c s IH]; cbn; [reflexivity | rewrite IH; reflexivity]. Qed.

Lemma items_text_cons (v : json) (l : list json) :
  commas (List.map stringify (v :: l))
  = stringify v
    ++ match l with
       | [] => ""
       | _ :: _ => String "," (commas (List.map stringify l))
       end.
Proof. destruct l; reflexivity. Qed.

Lemma parse_items_print (l : list json) :
  Forall prints_back l -> l <> [] ->
  forall (fuel : nat) (rest : string),
    (S (String.length (commas (List.map stringify l))) <= fuel)%nat ->
    parse_items fuel (commas (List.map stringify l) ++ String "]" rest)
    = Some (l, rest).
Proof.
  induction 1 as [|v l Hv Hl IH]; intros Hne fuel rest Hfuel; [contradiction|].
  rewrite items_text_cons in *. rewrite length_append in Hfuel.
  destruct fuel as [|fuel]; [lia|]. rewrite parse_items_step, append_assoc.
  pose proof (stringify_nonempty v) as Hlen.
  destruct l as [|v' l'].
  - cbn [append]. rewrite (Hv fuel (String "]" rest)).
    + reflexivity.
    + cbn in Hfuel. lia.
    + cbn. auto.
  - set (tail := commas (List.map stringify (v' :: l'))) in *.
    cbn [append String.length] in *.
    rewrite (Hv fuel (String "," (tail ++ String "]" rest))).
    + cbn [skip_ws]. change (json_ws ",") with false. cbv iota.
      change (N_of_ascii "," =? 93)%N with false.
      change (N_of_ascii "," =? 44)%N with true. cbv iota.
      rewrite IH; [reflexivity | discriminate | lia].
    + lia.
    + cbn. auto.
Qed.

Lemma members_text_cons (k : string) (v : json) (l : list (string * json)) :
  commas (List.map (fun kv => let '(k, v) := kv in quote k ++ ":" ++ stringify v)
                   ((k, v) :: l))
  = quote k ++ String ":" (stringify v
    ++ match l with
       | [] => ""
       | _ :: _ =>
           String "," (commas (List.map (fun kv => let '(k, v) := kv in
                                         quote k ++ ":" ++ stringify v) l))
       end).
Proof. destruct l; cbn [List.map commas]; rewrite !append_assoc; reflexivity. Qed.

Lemma length_quote (k : string) : (2 <= String.length (quote k))%nat.
Proof. unfold quote. cbn. rewrite length_append. cbn. lia. Qed.

Lemma parse_members_print (l : list (string * json)) :
  Forall (fun kv => prints_back (snd kv)) l -> l <> [] ->
  forall (fuel : nat) (rest : string),
    (S (String.length
          (commas (List.map (fun kv => let '(k, v) := kv in
                             quote k ++ ":" ++ stringify v) l))) <= fuel)%nat ->
    parse_members fuel
      (commas (List.map (fun kv => let '(k, v) := kv in
                         quote k ++ ":" ++ stringify v) l) ++ String "}" rest)
    = Some (l, rest).
Proof.
  induction 1 as [|[k v] l Hv Hl IH]; intros Hne fuel rest Hfuel; [contradiction|].
  cbn [snd] in Hv. rewrite members_text_cons in *.
  rewrite length_append in Hfuel. cbn [String.length] in Hfuel.
  rewrite length_append in Hfuel. pose proof (length_quote k) as Hq.
  destruct fuel as [|fuel]; [lia|].
  rewrite append_assoc. cbn [append]. rewrite parse_members_step, append_assoc.
  destruct l as [|kv' l'].
  - cbn [append]. rewrite (Hv fuel (String "}" rest)).
    + reflexivity.
    + cbn in Hfuel. lia.
    + cbn. auto.
  - set (tail := commas (List.map _ (kv' :: l'))) in *.
    cbn [append String.length] in *.
    rewrite (Hv fuel (String "," (tail ++ String "}" rest))).
    + cbn [skip_ws]. change (json_ws ",") with false. cbv iota.
      change (N_of_ascii "," =? 125)%N with false.
      change (N_of_ascii "," =? 44)%N with true. cbv iota.
      rewrite IH; [reflexivity | discriminate | lia].
    + lia.
    + cbn. auto.
Qed.

Lemma stringify_prints_back (v : json) : prints_back v.
Proof.
  induction v as [|b|n|s|l IH|l IH] using json_nested_ind;
    intros fuel rest Hfuel Hrest;
    match goal with
    | |- context [stringify ?x] => pose proof (stringify_nonempty x) as Hlen
    end;
    (destruct fuel as [|fuel]; [lia|]).
  - reflexivity.
  - destruct b; reflexivity.
  - apply parse_value_num, Hrest.
  - apply parse_value_str.
  - cbn [stringify] in *. rewrite append_assoc. cbn [append].
    destruct l as [|v l].
    + reflexivity.
    + rewrite parse_value_array.
      * rewrite append_assoc. cbn [append].
        rewrite parse_items_print; [reflexivity | exact IH | discriminate |].
        rewrite length_append in Hfuel. cbn [String.length] in Hfuel.
        rewrite length_append in Hfuel. cbn [String.length] in Hfuel. lia.
      * rewrite items_text_cons, !append_assoc. apply stringify_opens.
  - cbn [stringify] in *. rewrite append_assoc. cbn [append].
    destruct l as [|[k v] l].
    + reflexivity.
    + rewrite append_assoc. cbn [append].
      set (text := commas _) in *.
      assert (Htext : exists r, text = String dquote r).
      { subst text. rewrite members_text_cons, quote_append. eauto. }
      destruct Htext as (r & Htext).
      assert (Hobj : parse_value (S fuel) (String "{" (text ++ String "}" rest))
                     = match parse_members fuel (text ++ String "}" rest) with
                       | Some (l0, r') => Some (JObj l0, r')
                       | None => None
                       end).
      { rewrite Htext. apply parse_value_object. }
      rewrite Hobj. subst text.
      rewrite parse_members_print; [reflexivity | exact IH | discriminate |].
      rewrite length_append in Hfuel. cbn [String.length] in Hfuel.
      rewrite length_append in Hfuel. cbn [String.length] in Hfuel. lia.
Qed.

Theorem parse_stringify (v : json) : parse (stringify v) = Some v.
Proof.
  unfold parse.
  rewrite <- (append_empty (stringify v)) at 2.
  rewrite (stringify_prints_back v (S (String.length (stringify v))) "");
    [reflexivity | lia | exact I].
Qed.

End JsonFacts.
(* ================================================================= *)
(** ** The gateway *)

Module GatewayTheorems.
Import Json Gateway GatewaySpec JsonFacts Samples.

Lemma join_cons (sep : string) (x : json) (rest : list json) :
  join sep (x :: rest)
  = match (match x with JNull => Some "" | _ => toString x end) with
    | None => None
    | Some first =>
        match rest with
        | [] => Some first
        | _ :: _ =>
            match join sep rest with
            | Some others => Some (first ++ sep ++ others)
            | None => None
            end
        end
    end.
Proof. reflexivity. Qed.

Lemma join_segments (path : list json) :
  forallb segment path = true ->
  join "." path = Some (String.concat "." (List.map segment_text path)).
Proof.
  induction path as [|x path IH]; [reflexivity|].
  cbn [forallb]. intros H. apply andb_true_iff in H. destruct H as [Hx Hp].
  rewrite join_cons, (IH Hp).
  assert (Hel : match x with JNull => Some "" | _ => toString x end
                = Some (segment_text x))
    by (destruct x; try discriminate Hx; reflexivity).
  rewrite Hel. destruct path; reflexivity.
Qed.

Lemma validation_entry_field_error (err : json) :
  is_field_error err = true -> validation_entry err = inr (amended_entry err).
Proof.
  unfold is_field_error, validation_entry, amended_entry, location_path.
  destruct err as [|b|n|s|l|fields]; try discriminate. cbn [prop].
  destruct (lookup "loc" fields) as [[|b|n|s|path|o]|]; try discriminate.
  destruct (lookup "msg" fields) as [msg|]; [|discriminate].
  intros Hp. cbn [truthy]. rewrite (join_segments path Hp). reflexivity.
Qed.

Lemma validation_entries_field_errors (detail : list json) :
  forallb is_field_error detail = true ->
  validation_entries detail = inr (List.map amended_entry detail).
Proof.
  induction detail as [|err detail IH]; [reflexivity|].
  cbn [forallb]. intros H. apply andb_true_iff in H. destruct H as [Herr Hd].
  cbn [List.map validation_entries].
  rewrite (validation_entry_field_error err Herr), (IH Hd). reflexivity.
Qed.

(** ToString succeeds on the printable values, and on no others. *)
Lemma join_defined_step (sep : string) (l : list json) :
  Forall (fun v => match toString v with Some _ => true | None => false end
                   = printable v) l ->
  match join sep l with Some _ => true | None => false end = forallb printable l.
Proof.
  induction 1 as [|x rest Hx _ IH]; [reflexivity|].
  rewrite join_cons. cbn [forallb]. rewrite <- Hx, <- IH.
  assert (Hel : match (match x with JNull => Some "" | _ => toString x end) with
                | Some _ => true | None => false end
                = match toString x with Some _ => true | None => false end)
    by (destruct x; reflexivity).
  destruct (match x with JNull => Some "" | _ => toString x end) as [first|];
    destruct (toString x); try discriminate Hel; [|reflexivity].
  destruct rest as [|y rest]; [reflexivity|].
  destruct (join sep (y :: rest)); reflexivity.
Qed.

Lemma toString_defined (v : json) :
  match toString v with Some _ => true | None => false end = printable v.
Proof.
  induction v as [|b|n|s|l IH|l IH] using json_nested_ind; try reflexivity.
  - destruct b; reflexivity.
  - change (toString (JArr l)) with (join "," l).
    apply join_defined_step, IH.
  - cbn. destruct (lookup "toString" l); reflexivity.
Qed.

Lemma join_defined (sep : string) (l : list json) :
  match join sep l with Some _ => true | None => false end = forallb printable l.
Proof.
  apply join_defined_step, Forall_forall. intros v _. apply toString_defined.
Qed.

Lemma response_detail_of (e : axios_error) (st : Z) (body detail : json) :
  err_response e = Some {| status := st; data := body |} ->
  prop body "detail" = Some detail ->
  response_detail e = Some detail.
Proof.
  intros He Hd. unfold response_detail. rewrite He. cbn [data].
  destruct body; try discriminate Hd. exact Hd.
Qed.

(** C5, as stated, fails on the specification's own example: for the 422
    body [{detail:[{loc:["body","query"], msg:"too short"}]}] the thrown
    message carries the type [validation], not [serverValidation], and its
    one entry carries a [type] next to [field] and [message]. *)
Lemma server_validation_not_as_stated :
  (exists m,
      searchTools (Rejected too_short_422) = Thrown (Error m)
      /\ parse m
         = Some (JObj [("type", JStr "validation");
                       ("errors", JArr [JObj [("field", JStr "body.query");
                                             ("message", JStr "too short");
                                             ("type", JStr "validation")]]);
                       ("message", JStr msg_check_input)]))
  /\ ~ server_validation_as_stated.
Proof.
  split.
  - eexists. split; vm_compute; reflexivity.
  - intros H.
    destruct (H too_short_422
                (JObj [("detail", detail_json [(["body"; "query"], "too short")])])
                [(["body"; "query"], "too short")] eq_refl eq_refl)
      as (m & payload & Hm & Hp & Hty & _).
    vm_compute in Hm. injection Hm as <-.
    vm_compute in Hp. injection Hp as <-.
    vm_compute in Hty. discriminate Hty.
Qed.

(** C5, amended: for every HTTP 422 response whose body carries a list of
    field errors under [detail], each an object with a [loc] of field names
    and list indices and with a [msg], whatever its other keys and their
    order, [searchTools] throws an [Error] whose message is the JSON of an
    object with type [validation], with one entry per field error (its
    location path joined with ["."] as [field], its [msg] as [message], and
    the type [validation] again), and with the fixed message "Please check
    your input and try again.". *)
Theorem validation_422_payload
    (e : axios_error) (body : json) (detail : list json) :
  err_response e = Some {| status := 422; data := body |} ->
  prop body "detail" = Some (JArr detail) ->
  forallb is_field_error detail = true ->
  exists m,
    searchTools (Rejected e) = Thrown (Error m)
    /\ parse m
       = Some (JObj [("type", JStr "validation");
                     ("errors", JArr (List.map amended_entry detail));
                     ("message", JStr msg_check_input)]).
Proof.
  intros He Hd Hfe. eexists. split.
  - cbn [searchTools]. unfold searchTools_catch.
    rewrite (response_detail_of e 422 body _ He Hd), He.
    cbn [truthy status Z.eqb Pos.eqb].
    rewrite (validation_entries_field_errors detail Hfe). reflexivity.
  - apply parse_stringify.
Qed.

Lemma validation_422_payload_witness :
  err_response pydantic_422 = Some {| status := 422; data := pydantic_body |}
  /\ prop pydantic_body "detail" = Some (JArr [pydantic_entry])
  /\ forallb is_field_error [pydantic_entry] = true
  /\ exists m,
       searchTools (Rejected pydantic_422) = Thrown (Error m)
       /\ parse m
          = Some (JObj [("type", JStr "validation");
                        ("errors",
                         JArr [JObj [("field", JStr "body.items.0.name");
                                     ("message",
                                      JStr "String should have at least 2 characters");
                                     ("type", JStr "validation")]]);
                        ("message", JStr msg_check_input)]).
Proof.
  split; [reflexivity | split; [reflexivity | split; [reflexivity|]]].
  apply (validation_422_payload pydantic_422 pydantic_body [pydantic_entry]);
    reflexivity.
Defined.

(** C8: for every failure of the call with no HTTP response, [searchTools]
    throws an [Error] whose message is the JSON of an object with type
    [network] that carries the failure's own description, as [originalError]
    and, unless it is empty, as [message]. *)
Theorem no_response_is_network (e : axios_error) :
  err_response e = None ->
  exists m,
    searchTools (Rejected e) = Thrown (Error m)
    /\ parse m
       = Some (JObj [("type", JStr "network");
                     ("message",
                      JStr (if String.eqb (err_message e) "" then msg_network
                            else err_message e));
                     ("originalError", JStr (err_message e))]).
Proof.
  intros He. eexists. split.
  - cbn [searchTools]. unfold searchTools_catch, response_detail. rewrite He.
    reflexivity.
  - apply parse_stringify.
Qed.

Lemma no_response_is_network_witness :
  err_response connection_refused = None
  /\ exists m,
       searchTools (Rejected connection_refused) = Thrown (Error m)
       /\ parse m
          = Some (JObj [("type", JStr "network");
                        ("message", JStr "Network Error");
                        ("originalError", JStr "Network Error")]).
Proof.
  split; [reflexivity|].
  apply (no_response_is_network connection_refused). reflexivity.
Defined.

(** C10, as stated, fails: a 422 body [{detail:[null]}] makes the map
    callback read [loc] of [null]; the [TypeError] escapes, and its message
    is no JSON. *)
Lemma unstructured_failure_escapes :
  searchTools (Rejected null_entry_422) = Thrown (TypeError msg_null_loc)
  /\ parse msg_null_loc = None
  /\ ~ every_failure_structured.
Proof.
  split; [reflexivity | split; [vm_compute; reflexivity|]].
  intros H. destruct (H null_entry_422) as (fields & ty & msg & Hp & _).
  vm_compute in Hp. discriminate Hp.
Qed.

Lemma validation_entries_ok (l : list json) :
  forallb entry_ok l = true -> exists entries, validation_entries l = inr entries.
Proof.
  induction l as [|err l IH]; cbn [forallb validation_entries]; intros H.
  - eauto.
  - apply andb_true_iff in H. destruct H as [Herr Hl].
    destruct (IH Hl) as (entries & ->).
    assert (He : exists entry, validation_entry err = inr entry).
    { unfold entry_ok in Herr. unfold validation_entry.
      destruct err; try discriminate Herr;
        (destruct (truthy (prop _ "loc")); [|eauto]);
        (destruct (prop _ "loc") as [[| | | |path|]|]; try discriminate Herr;
         pose proof (join_defined "." path) as Hj; rewrite Herr in Hj;
         destruct (join "." path); [eauto | discriminate Hj]). }
    destruct He as (entry & ->). eauto.
Qed.

Lemma stringified_structured
    (fields : list (string * json)) (ty : string) (msg : json) :
  lookup "type" fields = Some (JStr ty) ->
  In ty ["validation"; "api"; "network"] ->
  lookup "message" fields = Some msg ->
  structured (stringify (JObj fields)).
Proof.
  intros Hty Hin Hmsg. exists fields, ty, msg.
  split; [apply parse_stringify | auto].
Qed.

Ltac structured_payload :=
  eexists; split;
  [reflexivity
  | eapply stringified_structured; [reflexivity | cbn; auto | reflexivity]].

(** C10, amended: for every failing call whose 422 detail list, if it
    carries one, holds only entries that are not [null] and whose [loc] is
    falsy or an array in which no object, at any depth of nested arrays, has
    a key [toString] of its own, [searchTools] throws an [Error] whose
    message is the JSON of an object with a [type] among [validation], [api]
    and [network] and with a [message]. *)
Theorem well_formed_failure_structured (e : axios_error) :
  forallb entry_ok (detail_entries e) = true ->
  exists m, searchTools (Rejected e) = Thrown (Error m) /\ structured m.
Proof.
  intros Hok. cbn [searchTools]. unfold searchTools_catch.
  unfold detail_entries in Hok.
  destruct (response_detail e) as [errorDetail|] eqn:Hd; [|structured_payload].
  destruct (err_response e) as [r|] eqn:Hr; [|structured_payload].
  destruct (truthy (Some errorDetail)) eqn:Ht; [|structured_payload].
  destruct (status r =? 422); [|structured_payload].
  destruct errorDetail as [|b|n|s|detail|fields]; try structured_payload.
  destruct (validation_entries_ok detail Hok) as (entries & ->).
  structured_payload.
Qed.

Lemma well_formed_failure_structured_witness :
  forallb entry_ok (detail_entries too_short_422) = true
  /\ exists m,
       searchTools (Rejected too_short_422) = Thrown (Error m) /\ structured m.
Proof.
  split; [reflexivity|].
  apply (well_formed_failure_structured too_short_422). reflexivity.
Defined.

(** The other way round: an entry the callback cannot handle lets the
    [TypeError] through, and the controller then records an [unknown]
    error. *)
Lemma string_loc_escapes :
  searchTools (Rejected string_loc_422) = Thrown (TypeError msg_join)
  /\ Controller.errorDetails (TypeError msg_join)
     = JObj [("type", JStr "unknown"); ("message", JStr msg_join)].
Proof. split; vm_compute; reflexivity. Qed.

(** So does a location that holds an object with a key [toString]: joining
    the path cannot convert it. *)
Lemma toString_key_escapes :
  searchTools (Rejected toString_key_422) = Thrown (TypeError msg_primitive)
  /\ Controller.errorDetails (TypeError msg_primitive)
     = JObj [("type", JStr "unknown"); ("message", JStr msg_primitive)].
Proof. split; vm_compute; reflexivity. Qed.

End GatewayTheorems.

(* ================================================================= *)
(** ** The simulator *)

Module SimulatorFacts.
Import Simulator SimulatorSpec.

Lemma cube_bounds (y : Q) : (0 <= y <= 1)%Q -> (0 <= y * y * y <= 1)%Q.
Proof.
  intros [H0 H1].
  assert (Hs0 : (0 <= y * y)%Q) by (apply Qmult_le_0_compat; assumption).
  assert (Hs1 : (y * y <= 1)%Q).
  { apply Qle_trans with (1 * y)%Q; [apply Qmult_le_compat_r; assumption | lra]. }
  split.
  - apply Qmult_le_0_compat; assumption.
  - apply Qle_trans with (1 * y)%Q; [apply Qmult_le_compat_r; assumption | lra].
Qed.

Lemma ease_bounds (x : Q) : (0 <= x <= 1)%Q -> (0 <= easeOutCubic x <= 1)%Q.
Proof.
  intros [H0 H1]. unfold easeOutCubic.
  assert (E : ((1 - x) ^ 3 == (1 - x) * (1 - x) * (1 - x))%Q) by (simpl; ring).
  rewrite E. clear E.
  destruct (cube_bounds (1 - x)%Q) as [A B]; [lra|]. lra.
Qed.

Lemma ratio_le_0 (d : Z) (p : positive) :
  (inject_Z d / inject_Z (Z.pos p) <= 0)%Q <-> d <= 0.
Proof. unfold Qle, Qdiv, Qmult, Qinv, inject_Z; simpl. lia. Qed.

Lemma ratio_ge_1 (d : Z) (p : positive) :
  (1 <= inject_Z d / inject_Z (Z.pos p))%Q <-> Z.pos p <= d.
Proof. unfold Qle, Qdiv, Qmult, Qinv, inject_Z; simpl. lia. Qed.

(** Clamping the quotient to [0, 1] is clamping the numerator to
    [0, span], which is what the code does. *)
Lemma clamp_ratio (d span : Z) :
  0 < span ->
  (clamp01 (inject_Z d / inject_Z span)
   == inject_Z (Z.min (Z.max d 0) span) / inject_Z span)%Q.
Proof.
  intros Hspan. destruct span as [|p|p]; try lia. unfold clamp01.
  destruct (Qle_bool (inject_Z d / inject_Z (Z.pos p)) 0) eqn:E0.
  - apply Qle_bool_iff in E0. apply (proj1 (ratio_le_0 d p)) in E0.
    replace (Z.min (Z.max d 0) (Z.pos p)) with 0 by lia.
    unfold Qeq, Qdiv, Qmult, Qinv, inject_Z; simpl; lia.
  - assert (H0 : ~ d <= 0).
    { intro H. apply (proj2 (ratio_le_0 d p)) in H.
      apply Qle_bool_iff in H. congruence. }
    destruct (Qle_bool 1 (inject_Z d / inject_Z (Z.pos p))) eqn:E1.
    + apply Qle_bool_iff in E1. apply (proj1 (ratio_ge_1 d p)) in E1.
      replace (Z.min (Z.max d 0) (Z.pos p)) with (Z.pos p) by lia.
      unfold Qeq, Qdiv, Qmult, Qinv, inject_Z; simpl; lia.
    + assert (H1 : ~ Z.pos p <= d).
      { intro H. apply (proj2 (ratio_ge_1 d p)) in H.
        apply Qle_bool_iff in H. congruence. }
      replace (Z.min (Z.max d 0) (Z.pos p)) with d by lia. reflexivity.
Qed.

Lemma dynamicCap_range (elapsed : Z) : 92 <= dynamicCap elapsed <= 99.
Proof.
  unfold dynamicCap.
  destruct (elapsed <? 10000); [lia|].
  destruct (elapsed <? 18000); [lia|].
  destruct (elapsed <? 28000); lia.
Qed.

(** Evaluates the closed parts of [tick] once the current stage is known:
    its index, the previous threshold, the span, the last-stage test. *)
Ltac tick_known_stage elapsed :=
  repeat match goal with
  | |- context [findIndex ?p ?l ?i] =>
      let v := eval vm_compute in (findIndex p l i) in
      change (findIndex p l i) with v
  end;
  cbv beta iota zeta; cbn [t min max label];
  match goal with
  | |- context [Z.max (elapsed - ?p) 0] =>
      let v := eval vm_compute in p in change p with v
  end;
  match goal with
  | |- context [Z.max 1 ?x] =>
      let v := eval vm_compute in (Z.max 1 x) in change (Z.max 1 x) with v
  end;
  match goal with
  | |- context [?i =? Z.of_nat ?n - 1] =>
      let v := eval vm_compute in (i =? Z.of_nat n - 1) in
      change (i =? Z.of_nat n - 1) with v
  end;
  cbv iota.

(** The loop, the index searches and the cap of [tick], stage by stage. *)
Lemma tick_closed (elapsed : Z) :
  tick elapsed =
  if elapsed <=? 800
  then Some ("Analyzing query and extracting tools...", eased 5 25 elapsed 0 800)
  else if elapsed <=? 2500
  then Some ("Researching individual tools...", eased 25 65 elapsed 800 1700)
  else if elapsed <=? 4500
  then Some ("Evaluating and ranking results...", eased 65 85 elapsed 2500 2000)
  else Some ("Generating recommendations...",
             eased 85 (dynamicCap elapsed) elapsed 4500 2000).
Proof.
  pose proof (dynamicCap_range elapsed) as Hcap.
  unfold tick, stages. cbn [select t].
  destruct (elapsed <=? 800) eqn:E1; [|destruct (elapsed <=? 2500) eqn:E2;
    [|destruct (elapsed <=? 4500) eqn:E3; [|destruct (elapsed <=? 6500) eqn:E4]]];
  tick_known_stage elapsed; unfold eased; rewrite ?Z.min_l by lia; reflexivity.
Qed.

Lemma eased_as_specified (lo hi elapsed prevT span : Z) :
  0 < span ->
  eased lo hi elapsed prevT span
  = Qfloor (inject_Z lo + inject_Z (hi - lo)
            * (1 - (1 - clamp01 (inject_Z (elapsed - prevT) / inject_Z span)) ^ 3))%Q.
Proof.
  intros Hspan. unfold eased, easeOutCubic. apply Qfloor_comp.
  rewrite (clamp_ratio (elapsed - prevT) span Hspan). reflexivity.
Qed.

(** C4, as stated, fails.  One second in, the code is in its second stage
    and publishes 37; the stage that is the last whose threshold the elapsed
    time has reached is the first one, whose formula gives 25.  And where no
    threshold has been reached yet the statement names no stage, while the
    code publishes the rounded-down 22 for a target of 22.5. *)
Lemma tick_not_as_stated :
  tick 1000 = Some ("Researching individual tools...", 37)
  /\ (exists q, stated_tick 1000
                = Some ("Analyzing query and extracting tools...", q)
                /\ (q == 25)%Q)
  /\ tick 400 = Some ("Analyzing query and extracting tools...", 22)
  /\ stated_tick 400 = None
  /\ ~ (forall elapsed, agrees (tick elapsed) (stated_tick elapsed)).
Proof.
  split; [vm_compute; reflexivity|].
  split; [eexists; split; [vm_compute; reflexivity | vm_compute; reflexivity]|].
  split; [vm_compute; reflexivity|].
  split; [vm_compute; reflexivity|].
  intros H. specialize (H 1000). vm_compute in H. destruct H as [H _].
  discriminate H.
Qed.

(** C4, amended: each tick is a function of the elapsed time and the stage
    table alone.  The current stage is the first whose threshold is at least
    the elapsed time, the final stage once every threshold has passed;
    ratio = clamp((elapsed - prevThreshold) / (threshold - prevThreshold), 0, 1);
    eased = 1 - (1 - ratio)^3; the effective maximum is the stage's own,
    except that the final stage uses the dynamic cap (92 below 10s, 95 below
    18s, 97 below 28s, 99 beyond); and the target is
    min + (effectiveMax - min) * eased rounded down to an integer. *)
Theorem tick_as_amended (elapsed : Z) : tick elapsed = amended_tick elapsed.
Proof.
  rewrite tick_closed. unfold amended_tick, stages. cbn [first_unpassed t].
  destruct (elapsed <=? 800) eqn:E1; [|destruct (elapsed <=? 2500) eqn:E2;
    [|destruct (elapsed <=? 4500) eqn:E3]];
  cbn [nth_error label]; rewrite eased_as_specified by lia; reflexivity.
Qed.

Lemma eased_range (lo hi elapsed prevT span : Z) :
  lo <= hi -> 0 < span -> lo <= eased lo hi elapsed prevT span <= hi.
Proof.
  intros Hlh Hspan. unfold eased.
  set (d := Z.min (Z.max (elapsed - prevT) 0) span).
  assert (Hd : 0 <= d <= span) by (subst d; lia).
  assert (Hr : (0 <= inject_Z d / inject_Z span <= 1)%Q).
  { destruct span as [|p|p]; try lia.
    unfold Qle, Qdiv, Qmult, Qinv, inject_Z; simpl. lia. }
  apply ease_bounds in Hr. destruct Hr as [E0 E1].
  set (e := easeOutCubic (inject_Z d / inject_Z span)) in *.
  assert (Hw : (0 <= inject_Z (hi - lo))%Q) by (unfold Qle, inject_Z; simpl; lia).
  assert (Hm0 : (0 <= inject_Z (hi - lo) * e)%Q)
    by (apply Qmult_le_0_compat; assumption).
  assert (Hm1 : (inject_Z (hi - lo) * e <= inject_Z (hi - lo))%Q).
  { apply Qle_trans with (inject_Z (hi - lo) * 1)%Q.
    - rewrite !(Qmult_comm (inject_Z (hi - lo))).
      apply Qmult_le_compat_r; assumption.
    - rewrite Qmult_1_r. apply Qle_refl. }
  split.
  - rewrite <- (Qfloor_Z lo) at 1. apply Qfloor_resp_le. lra.
  - rewrite <- (Qfloor_Z hi) at 2. apply Qfloor_resp_le.
    unfold Zminus in Hm1. rewrite inject_Z_plus, inject_Z_opp in Hm1.
    unfold Zminus. rewrite inject_Z_plus, inject_Z_opp. lra.
Qed.

Lemma tick_total (elapsed : Z) :
  exists lbl target, tick elapsed = Some (lbl, target).
Proof.
  rewrite tick_closed.
  destruct (elapsed <=? 800); [|destruct (elapsed <=? 2500);
    [|destruct (elapsed <=? 4500)]]; eauto.
Qed.

(** Whatever the clock reads, a tick aims between 5 and 99. *)
Lemma tick_range (elapsed : Z) (lbl : string) (target : Z) :
  tick elapsed = Some (lbl, target) -> 5 <= target <= 99.
Proof.
  rewrite tick_closed. pose proof (dynamicCap_range elapsed) as Hc.
  destruct (elapsed <=? 800); [|destruct (elapsed <=? 2500);
    [|destruct (elapsed <=? 4500)]]; intros H; inversion H; subst; clear H.
  - pose proof (eased_range 5 25 elapsed 0 800). lia.
  - pose proof (eased_range 25 65 elapsed 800 1700). lia.
  - pose proof (eased_range 65 85 elapsed 2500 2000). lia.
  - pose proof (eased_range 85 (dynamicCap elapsed) elapsed 4500 2000). lia.
Qed.

End SimulatorFacts.

(* ================================================================= *)
(** ** The controller *)

Module ControllerFacts.
Import JsString Json Gateway Controller ControllerSpec.
Local Open Scope list_scope.

Lemma run_snoc (evs : list event) (e : event) (s : state) :
  run (evs ++ [e]) s = step e (run evs s).
Proof. unfold run. rewrite fold_left_app. reflexivity. Qed.

Lemma reachable_init : reachable init.
Proof. exists []. reflexivity. Qed.

Lemma reachable_step (e : event) (s : state) :
  reachable s -> reachable (step e s).
Proof.
  intros [evs ->]. exists (evs ++ [e]). symmetry. apply run_snoc.
Qed.

Lemma reachable_induction (P : state -> Prop) :
  P init -> (forall e s, reachable s -> P s -> P (step e s)) ->
  forall s, reachable s -> P s.
Proof.
  intros Hinit Hstep s [evs ->].
  induction evs as [|e evs IH] using rev_ind.
  - exact Hinit.
  - rewrite run_snoc. apply Hstep; [exists evs; reflexivity | exact IH].
Qed.

(** *** Timer identifiers are handed out once *)

Lemma clearInterval_incl (h : handle) (l : list (handle * Z)) :
  incl (clearInterval h l) l.
Proof. unfold clearInterval. intros p Hp. apply filter_In in Hp. tauto. Qed.

Lemma clear_ticker_incl (s : state) : incl (clear_ticker s) (intervals s).
Proof.
  unfold clear_ticker. destruct (tickerRef s).
  - apply clearInterval_incl.
  - apply incl_refl.
Qed.

Lemma step_fresh (e : event) (s : state) :
  fresh_handles s -> fresh_handles (step e s).
Proof.
  unfold fresh_handles. intros H. destruct e as [q now|h now|c r|h|j]; cbn [step].
  - unfold handleSearch. destruct (Validator.handleSearch_precheck q); cbn [intervals next_handle]; trivial.
    apply Forall_app; split.
    + eapply Forall_impl; [|exact H]. cbn. intros; lia.
    + constructor; [cbn; lia | constructor].
  - unfold on_tick. destruct (startTime_of h (intervals s)); trivial.
  - unfold on_settle. destruct (awaiting c s); trivial.
    destruct (searchTools r); cbn.
    + apply Forall_forall. intros p Hp.
      apply (clear_ticker_incl (resume c s)) in Hp. cbn in Hp.
      rewrite Forall_forall in H. specialize (H p Hp). lia.
    + apply Forall_forall. intros p Hp.
      apply (clear_ticker_incl (resume c s)) in Hp. cbn in Hp.
      rewrite Forall_forall in H. exact (H p Hp).
  - unfold on_hold. destruct (existsb (Pos.eqb h) (holds s)); trivial.
  - exact H.
Qed.

Lemma reachable_fresh (s : state) : reachable s -> fresh_handles s.
Proof.
  apply reachable_induction.
  - constructor.
  - intros e s' _ H. apply step_fresh, H.
Qed.

Lemma startTime_of_app (h : handle) (l1 l2 : list (handle * Z)) :
  startTime_of h (l1 ++ l2)
  = match startTime_of h l1 with
    | Some t0 => Some t0
    | None => startTime_of h l2
    end.
Proof.
  induction l1 as [|[h' t0] l1 IH]; cbn; [reflexivity|].
  destruct (Pos.eqb h' h); [reflexivity | exact IH].
Qed.

Lemma startTime_of_fresh (h : handle) (l : list (handle * Z)) :
  Forall (fun p => (fst p < h)%positive) l -> startTime_of h l = None.
Proof.
  induction 1 as [|[h' t0] l Hlt _ IH]; cbn; [reflexivity|].
  cbn in Hlt. destruct (Pos.eqb_spec h' h); [lia | exact IH].
Qed.

Lemma startTime_of_cleared (h : handle) (l : list (handle * Z)) :
  startTime_of h (clearInterval h l) = None.
Proof.
  induction l as [|[h' t0] l IH]; cbn; [reflexivity|].
  destruct (Pos.eqb_spec h' h); cbn; [exact IH|].
  destruct (Pos.eqb_spec h' h); [contradiction | exact IH].
Qed.

Lemma startTime_of_other (h k : handle) (l : list (handle * Z)) :
  h <> k -> startTime_of h (clearInterval k l) = startTime_of h l.
Proof.
  intros Hne. induction l as [|[h' t0] l IH]; cbn; [reflexivity|].
  destruct (Pos.eqb_spec h' k); cbn.
  - destruct (Pos.eqb_spec h' h); [congruence | exact IH].
  - destruct (Pos.eqb h' h); [reflexivity | exact IH].
Qed.

Lemma existsb_snoc {A} (f : A -> bool) (l : list A) (x : A) :
  f x = true -> existsb f (l ++ [x]) = true.
Proof. intros H. rewrite existsb_app. cbn. rewrite H. apply orb_true_iff. right. reflexivity. Qed.

(** *** What each handler publishes *)

Lemma settle_published (call : nat) (r : axios_result) (s : state) :
  awaiting call s = true ->
  published (step (Settle call r) s)
  = match searchTools r with
    | Returned _ => (loading s, 100, stage_complete, error s)
    | Thrown e => (false, 0, "", errorDetails e)
    end.
Proof.
  intros H. cbn [step]. unfold on_settle. rewrite H.
  destruct (searchTools r); reflexivity.
Qed.

Lemma settle_intervals (call : nat) (r : axios_result) (s : state) :
  awaiting call s = true ->
  intervals (step (Settle call r) s) = clear_ticker s
  /\ tickerRef (step (Settle call r) s) = None.
Proof.
  intros H. cbn [step]. unfold on_settle. rewrite H.
  destruct (searchTools r); split; reflexivity.
Qed.

Lemma tick_published (h : handle) (now startTime : Z) (s : state) :
  startTime_of h (intervals s) = Some startTime ->
  exists lbl target,
    Simulator.tick (now - startTime) = Some (lbl, target)
    /\ published (step (Tick h now) s)
       = (loading s, Z.max (loadingProgress s) target, lbl, error s).
Proof.
  intros H. destruct (SimulatorFacts.tick_total (now - startTime)) as (lbl & target & Ht).
  exists lbl, target. split; [exact Ht|].
  cbn [step]. unfold on_tick. rewrite H, Ht. unfold published. cbn.
  destruct (target >? loadingProgress s) eqn:E; repeat f_equal; lia.
Qed.

End ControllerFacts.

Module ControllerTheorems.
Import JsString Json Gateway Controller ControllerSpec ControllerFacts Samples.
Local Open Scope list_scope.

(** C1, as stated, fails: the hook keeps no generation token.  After
    [submit("ab")] at time 0 and [submit("cd")] at time 100, the success of
    the first call lifts the progress from 0 to 100 and swaps the stage
    label, and a tick of the first interval at time 1000 publishes 37 and
    its own label. *)
Lemma superseded_generation_not_inert :
  published two_pending = (true, 0, "Initializing...", JNull)
  /\ published (step (Settle 0 (Fulfilled JNull)) two_pending)
     = (true, 100, stage_complete, JNull)
  /\ published (step (Tick 1%positive 1000) two_pending)
     = (true, 37, "Researching individual tools...", JNull)
  /\ ~ superseded_generation_is_inert.
Proof.
  split; [vm_compute; reflexivity|].
  split; [vm_compute; reflexivity|].
  split; [vm_compute; reflexivity|].
  intros H.
  destruct (H init (lit "ab") (lit "cd") 0 100 reachable_init
              eq_refl eq_refl) as [Hsettle _].
  specialize (Hsettle (Fulfilled JNull)). vm_compute in Hsettle. discriminate.
Qed.

(** C1, amended: the hook keeps no generation token; a second submission
    during a pending one is held off only by the search form, which disables
    its input and its button while [loading] is set.  When [submit(b)] does
    follow [submit(a)] before [a]'s call settles, the settlement of [a]'s call
    still runs its handler on the shared state: success publishes progress
    100 and the completion label, failure publishes [loading = false],
    progress 0, an empty stage and the error.  Either one clears the interval
    that [tickerRef] holds, which is [b]'s, while [a]'s own interval stays
    scheduled and each of its ticks goes on publishing its stage label and
    max(progress, target). *)
Theorem superseded_settlement_still_applies
    (s0 : state) (a b : jsstring) (t0 t1 : Z) (r : axios_result) :
  reachable s0 -> accepted a -> accepted b ->
  let ha := next_handle s0 in
  let hb := Pos.succ ha in
  let s2 := step (Submit b t1) (step (Submit a t0) s0) in
  let s3 := step (Settle (List.length (requests s0)) r) s2 in
  published s3
  = match searchTools r with
    | Returned _ => (true, 100, stage_complete, JNull)
    | Thrown e => (false, 0, "", errorDetails e)
    end
  /\ tickerRef s2 = Some hb
  /\ tickerRef s3 = None
  /\ startTime_of hb (intervals s3) = None
  /\ startTime_of ha (intervals s3) = Some t0
  /\ forall now, exists lbl target,
       Simulator.tick (now - t0) = Some (lbl, target)
       /\ published (step (Tick ha now) s3)
          = (loading s3, Z.max (loadingProgress s3) target, lbl, error s3).
Proof.
  intros Hreach Ha Hb ha hb s2 s3.
  assert (Hs2 : s2 = 
    {| loading := true; loadingProgress := 0;
       loadingStage := stage_initializing; error := JNull;
       tickerRef := Some hb;
       intervals := (intervals s0 ++ [(ha, t0)]) ++ [(hb, t1)];
       holds := holds s0;
       next_handle := Pos.succ hb;
       requests := (requests s0 ++ [a]) ++ [b];
       inflight := (inflight s0 ++ [List.length (requests s0)])
                   ++ [List.length (requests s0 ++ [a])] |}).
  { subst s2. cbn [step]. unfold handleSearch at 2. red in Ha. rewrite Ha.
    unfold handleSearch. red in Hb. rewrite Hb. reflexivity. }
  assert (Haw : awaiting (List.length (requests s0)) s2 = true).
  { rewrite Hs2. unfold awaiting. cbn [inflight].
    rewrite existsb_app. apply orb_true_iff. left.
    apply existsb_snoc. apply Nat.eqb_refl. }
  assert (Hfresh : startTime_of ha (intervals s0) = None).
  { apply startTime_of_fresh. apply (reachable_fresh s0 Hreach). }
  assert (Hne : ha <> hb) by (subst hb; lia).
  destruct (settle_intervals _ r _ Haw) as [Hint Href].
  fold s3 in Hint, Href.
  assert (Hclear : intervals s3 = clearInterval hb (intervals s2)).
  { rewrite Hint. unfold clear_ticker. rewrite Hs2. reflexivity. }
  assert (Hha : startTime_of ha (intervals s3) = Some t0).
  { rewrite Hclear, (startTime_of_other ha hb _ Hne), Hs2. cbn [intervals].
    rewrite !startTime_of_app, Hfresh. cbn. rewrite Pos.eqb_refl. reflexivity. }
  split; [|split; [|split; [|split; [|split]]]].
  - subst s3. rewrite (settle_published _ r _ Haw), Hs2. reflexivity.
  - rewrite Hs2. reflexivity.
  - exact Href.
  - rewrite Hclear. apply startTime_of_cleared.
  - exact Hha.
  - intros now. apply tick_published, Hha.
Qed.

Lemma superseded_settlement_still_applies_witness :
  reachable init /\ accepted (lit "ab") /\ accepted (lit "cd")
  /\ published
       (step (Settle 0 (Rejected connection_refused))
          (step (Submit (lit "cd") 100) (step (Submit (lit "ab") 0) init)))
     = (false, 0, "",
        JObj [("type", JStr "network"); ("message", JStr "Network Error");
              ("originalError", JStr "Network Error")]).
Proof.
  split; [exact reachable_init | split; [reflexivity | split; [reflexivity|]]].
  destruct (superseded_settlement_still_applies init (lit "ab") (lit "cd") 0 100
              (Rejected connection_refused) reachable_init eq_refl eq_refl)
    as [H _].
  exact H.
Defined.


(** C2, as stated, fails: when the call of [submit("ab")] succeeds, the
    progress is 100 while [loading] is still set, until the completion hold
    of 700 ms runs out. *)
Lemma pending_at_100 :
  reachable just_succeeded
  /\ loading just_succeeded = true
  /\ loadingProgress just_succeeded = 100
  /\ ~ pending_implies_below_100.
Proof.
  assert (Hr : reachable just_succeeded) by (eexists; reflexivity).
  split; [exact Hr | split; [reflexivity | split; [reflexivity|]]].
  intros H. specialize (H just_succeeded Hr eq_refl).
  vm_compute in H. discriminate.
Qed.

Lemma step_keeps_below_100 (e : event) (s : state) :
  not_success e = true -> loadingProgress s < 100 ->
  loadingProgress (step e s) < 100.
Proof.
  intros He Hs. destruct e as [q now|h now|c r|h|j]; cbn [step].
  - unfold handleSearch. destruct (Validator.handleSearch_precheck q); cbn; lia.
  - unfold on_tick. destruct (startTime_of h (intervals s)) as [t0|]; [|exact Hs].
    destruct (Simulator.tick (now - t0)) as [[lbl target]|] eqn:Ht; [|exact Hs].
    apply SimulatorFacts.tick_range in Ht. cbn.
    destruct (target >? loadingProgress s); lia.
  - destruct r as [body|err]; [discriminate|].
    unfold on_settle. destruct (awaiting c s); [|exact Hs]. cbn. lia.
  - unfold on_hold. destruct (existsb (Pos.eqb h) (holds s)); [cbn; lia | exact Hs].
  - exact Hs.
Qed.

Lemma observed_below_100 (evs : list event) (s : state) :
  forallb not_success evs = true -> loadingProgress s < 100 ->
  Forall (fun s' => loadingProgress s' < 100) (observed evs s).
Proof.
  revert s. induction evs as [|e evs IH]; intros s Hevs Hs; cbn [observed].
  - constructor; [exact Hs | constructor].
  - cbn in Hevs. apply andb_true_iff in Hevs. destruct Hevs as [He Hevs].
    constructor; [exact Hs|]. apply IH; [exact Hevs|].
    apply step_keeps_below_100; assumption.
Qed.

(** C2, amended: from an accepted submission on, as long as no call has
    settled with a result, the published progress stays below 100 at every
    observable instant; and the moment a call settles with a result the
    progress is 100, with [loading] left as it was, that is still set
    during the completion hold. *)
Theorem below_100_until_success
    (s0 : state) (q : jsstring) (now : Z) (evs : list event) :
  accepted q -> forallb not_success evs = true ->
  Forall (fun s => loadingProgress s < 100)
         (observed evs (step (Submit q now) s0))
  /\ forall (s : state) (call : nat) (body : json),
       awaiting call s = true ->
       loadingProgress (step (Settle call (Fulfilled body)) s) = 100
       /\ loading (step (Settle call (Fulfilled body)) s) = loading s.
Proof.
  intros Hq Hevs. split.
  - apply observed_below_100; [exact Hevs|].
    cbn [step]. unfold handleSearch. red in Hq. rewrite Hq. cbn. lia.
  - intros s call body Haw. cbn [step]. unfold on_settle. rewrite Haw.
    cbn. split; reflexivity.
Qed.

Lemma below_100_until_success_witness :
  accepted (lit "Python web frameworks")
  /\ forallb not_success [Tick 1%positive 150; Tick 1%positive 30000] = true
  /\ Forall (fun s => loadingProgress s < 100)
       (observed [Tick 1%positive 150; Tick 1%positive 30000]
          (step (Submit (lit "Python web frameworks") 0) init)).
Proof.
  split; [reflexivity | split; [reflexivity|]].
  apply (below_100_until_success init (lit "Python web frameworks") 0
           [Tick 1%positive 150; Tick 1%positive 30000]); reflexivity.
Defined.


Lemma tick_never_lowers (e : event) (s : state) :
  is_tick e = true -> loadingProgress s <= loadingProgress (step e s).
Proof.
  destruct e as [q now|h now|c r|h|j]; try discriminate. intros _.
  cbn [step]. unfold on_tick.
  destruct (startTime_of h (intervals s)) as [t0|]; [|lia].
  destruct (Simulator.tick (now - t0)) as [[lbl target]|]; [|lia].
  cbn. destruct (target >? loadingProgress s) eqn:E; lia.
Qed.

Lemma ticks_stay_above (evs : list event) (s : state) (p : Z) :
  forallb is_tick evs = true -> p <= loadingProgress s ->
  Forall (Z.le p) (List.map loadingProgress (observed evs s)).
Proof.
  revert s. induction evs as [|e evs IH]; intros s Hevs Hp; cbn [observed List.map].
  - constructor; [exact Hp | constructor].
  - cbn in Hevs. apply andb_true_iff in Hevs. destruct Hevs as [He Hevs].
    constructor; [exact Hp|]. apply IH; [exact Hevs|].
    pose proof (tick_never_lowers e s He). lia.
Qed.

(** C3: along every sequence of simulator ticks the published progress
    never goes down, and each tick publishes the larger of the current
    progress and its target. *)
Theorem ticks_publish_non_decreasing (s : state) (evs : list event) :
  forallb is_tick evs = true ->
  StronglySorted Z.le (List.map loadingProgress (observed evs s))
  /\ forall (s' : state) (h : handle) (now startTime : Z),
       startTime_of h (intervals s') = Some startTime ->
       exists lbl target,
         Simulator.tick (now - startTime) = Some (lbl, target)
         /\ loadingProgress (step (Tick h now) s')
            = Z.max (loadingProgress s') target.
Proof.
  intros Hevs. split.
  - revert s Hevs. induction evs as [|e evs IH]; intros s Hevs; cbn [observed List.map].
    + constructor; constructor.
    + cbn in Hevs. apply andb_true_iff in Hevs. destruct Hevs as [He Hevs].
      constructor; [apply IH, Hevs|].
      apply ticks_stay_above; [exact Hevs | apply tick_never_lowers, He].
  - intros s' h now startTime Hh.
    destruct (tick_published h now startTime s' Hh) as (lbl & target & Ht & Hp).
    exists lbl, target. split; [exact Ht|].
    unfold published in Hp. congruence.
Qed.

Lemma ticks_publish_non_decreasing_witness :
  forallb is_tick [Tick 1%positive 150; Tick 1%positive 7000; Tick 1%positive 300] = true
  /\ StronglySorted Z.le
       (List.map loadingProgress
          (observed [Tick 1%positive 150; Tick 1%positive 7000; Tick 1%positive 300]
             (step (Submit (lit "Python web frameworks") 0) init))).
Proof.
  split; [reflexivity|].
  apply (ticks_publish_non_decreasing
           (step (Submit (lit "Python web frameworks") 0) init)
           [Tick 1%positive 150; Tick 1%positive 7000; Tick 1%positive 300]).
  reflexivity.
Defined.


(** C6, as stated, fails when submissions overlap: with two searches
    pending, the failure of the first call clears the interval of the second
    search, the one [tickerRef] holds, and leaves the interval of the first
    scheduled; its next tick publishes a stage label and the progress 37
    while [loading] is off. *)
Lemma failure_leaves_ticker_running :
  reachable two_pending
  /\ awaiting 0 two_pending = true
  /\ intervals (step (Settle 0 (Rejected connection_refused)) two_pending)
     = [(1%positive, 0)]
  /\ published (step (Tick 1%positive 1000)
                  (step (Settle 0 (Rejected connection_refused)) two_pending))
     = (false, 37, "Researching individual tools...",
        errorDetails (searchTools_catch connection_refused))
  /\ ~ error_path_leaves_nothing.
Proof.
  assert (Hr : reachable two_pending) by (eexists; reflexivity).
  split; [exact Hr|]. split; [reflexivity|]. split; [reflexivity|].
  split; [vm_compute; reflexivity|].
  intros H.
  destruct (H two_pending 0%nat connection_refused Hr eq_refl)
    as (_ & _ & _ & Htick).
  specialize (Htick 1%positive 1000). vm_compute in Htick. discriminate Htick.
Qed.

(** C6, amended: on every error path of a submission that passed
    validation, that is whenever its call settles with a failure, the
    handler clears [loading], resets the progress to 0, empties the stage
    label and destroys the ticker it holds in [tickerRef], whatever the state
    was, and it records the error.  When the held ticker is the only one
    scheduled, none is left and no tick changes the state afterwards. *)
Theorem error_path_cleans_up (s : state) (call : nat) (e : axios_error) :
  awaiting call s = true ->
  let s' := step (Settle call (Rejected e)) s in
  loading s' = false
  /\ loadingProgress s' = 0
  /\ loadingStage s' = ""
  /\ tickerRef s' = None
  /\ (forall h, tickerRef s = Some h -> startTime_of h (intervals s') = None)
  /\ error s' = errorDetails (searchTools_catch e)
  /\ ((forall h startTime, In (h, startTime) (intervals s) -> tickerRef s = Some h)
      -> intervals s' = []
         /\ forall h now, step (Tick h now) s' = s').
Proof.
  intros Haw s'.
  assert (Hquiet : intervals s' = [] ->
                   intervals s' = [] /\ forall h now, step (Tick h now) s' = s').
  { intros Hnil. split; [exact Hnil|]. intros h now. cbn [step]. unfold on_tick.
    rewrite Hnil. reflexivity. }
  revert Hquiet. subst s'. cbn [step]. unfold on_settle. rewrite Haw.
  cbn [searchTools on_failure resume loading loadingProgress loadingStage
       tickerRef intervals error].
  intros Hquiet. do 4 (split; [reflexivity|]). split; [|split; [reflexivity|]].
  - intros h Hh. unfold clear_ticker, resume. cbn [tickerRef intervals]. rewrite Hh.
    apply startTime_of_cleared.
  - intros Hown. apply Hquiet. unfold clear_ticker, resume. cbn [tickerRef intervals].
    destruct (tickerRef s) as [h|] eqn:Hh.
    + unfold clearInterval.
      destruct (filter (fun p => negb (fst p =? h)%positive) (intervals s))
        as [|[h' t'] l] eqn:Hf; [reflexivity|].
      assert (Hin : In (h', t') (filter (fun p => negb (fst p =? h)%positive) (intervals s)))
        by (rewrite Hf; left; reflexivity).
      apply filter_In in Hin. destruct Hin as [Hin Hneq]. cbn in Hneq.
      specialize (Hown h' t' Hin). injection Hown as ->.
      rewrite Pos.eqb_refl in Hneq. discriminate.
    + destruct (intervals s) as [|[h' t'] l]; [reflexivity|].
      specialize (Hown h' t' (or_introl eq_refl)). discriminate.
Qed.

Lemma error_path_cleans_up_witness :
  awaiting 0 pending_3s = true
  /\ published pending_3s
     = (true, 76, "Evaluating and ranking results...", JNull)
  /\ published (step (Settle 0 (Rejected too_short_422)) pending_3s)
     = (false, 0, "", errorDetails (searchTools_catch too_short_422))
  /\ intervals (step (Settle 0 (Rejected too_short_422)) pending_3s) = [].
Proof.
  split; [reflexivity | split; [reflexivity|]].
  destruct (error_path_cleans_up pending_3s 0 too_short_422 eq_refl)
    as (H1 & H2 & H3 & _ & _ & H6 & H7).
  split.
  - unfold published. rewrite H1, H2, H3, H6. reflexivity.
  - apply H7. intros h t0 [Hin|[]]. inversion Hin. reflexivity.
Defined.

(** C7: a query whose trimmed length is below 2 or whose length is above
    200 is invalid for [validateQuery], and submitting it sends no request:
    [handleSearch] returns before it starts a ticker or calls the gateway. *)
Theorem short_or_long_query_never_sent (q : jsstring) :
  length (trim q) < 2 \/ length q > 200 ->
  Validator.isValid (Validator.validateQuery q) = false
  /\ forall (now : Z) (s : state),
       requests (step (Submit q now) s) = requests s
       /\ inflight (step (Submit q now) s) = inflight s
       /\ intervals (step (Submit q now) s) = intervals s.
Proof.
  intros H.
  assert (Hpre : Validator.handleSearch_precheck q <> Validator.Accepted).
  { unfold Validator.handleSearch_precheck.
    destruct (falsy (trim q)); [discriminate|].
    destruct (length (trim q) <? 2) eqn:E1; [discriminate|].
    destruct (length q >? 200) eqn:E2; [discriminate|]. lia. }
  split.
  - unfold Validator.validateQuery.
    destruct (falsy q || falsy (trim q)); [reflexivity|].
    destruct (length (trim q) <? 2) eqn:E1; [reflexivity|].
    destruct (length q >? 200) eqn:E2; [reflexivity|]. lia.
  - intros now s. cbn [step]. unfold handleSearch.
    destruct (Validator.handleSearch_precheck q); cbn;
      [repeat split | repeat split | contradiction].
Qed.

Lemma short_or_long_query_never_sent_witness :
  (length (trim (lit " a ")) < 2 \/ length (lit " a ") > 200)
  /\ Validator.isValid (Validator.validateQuery (lit " a ")) = false
  /\ requests (step (Submit (lit " a ") 0) init) = [].
Proof.
  split; [left; reflexivity|].
  destruct (short_or_long_query_never_sent (lit " a ")) as [Hv Hs];
    [left; reflexivity|].
  split; [exact Hv | apply (Hs 0 init)].
Defined.

End ControllerTheorems.

(* ================================================================= *)
(** ** The toast container *)

Module ToastTheorems.
Import Toasts Samples.
Local Open Scope list_scope.

Lemma identical_spec (m ty : string) (x : toast) :
  identical m ty x = true <-> key x = (m, ty).
Proof.
  unfold identical, key. rewrite andb_true_iff, !String.eqb_eq.
  split; [intros [-> ->]; reflexivity | intros H; inversion H; auto].
Qed.

Lemma not_identical_not_in (m ty : string) (l : list toast) :
  existsb (identical m ty) l = false -> ~ In (m, ty) (List.map key l).
Proof.
  intros H Hin. apply in_map_iff in Hin. destruct Hin as (x & Hk & Hx).
  assert (He : existsb (identical m ty) l = true).
  { apply existsb_exists. exists x. split; [exact Hx | apply identical_spec, Hk]. }
  congruence.
Qed.

Lemma NoDup_map_filter {A B} (f : A -> B) (p : A -> bool) (l : list A) :
  NoDup (List.map f l) -> NoDup (List.map f (filter p l)).
Proof.
  induction l as [|x l IH]; cbn; intros H; [constructor|].
  inversion H as [|y ys Hnotin Hnd]; subst.
  destruct (p x); cbn; [|apply IH, Hnd].
  constructor; [|apply IH, Hnd].
  intros Hin. apply Hnotin. apply in_map_iff in Hin.
  destruct Hin as (z & Hz & Hin). apply filter_In in Hin.
  apply in_map_iff. exists z. tauto.
Qed.

Lemma NoDup_snoc {A} (l : list A) (x : A) :
  NoDup l -> ~ In x l -> NoDup (l ++ [x]).
Proof.
  intros Hnd Hx. induction Hnd as [|y l Hy Hnd IH]; cbn.
  - constructor; [intros [] | constructor].
  - constructor.
    + rewrite in_app_iff. cbn. intros [H|[H|[]]]; [contradiction|].
      subst. apply Hx. left. reflexivity.
    + apply IH. intros H. apply Hx. right. exact H.
Qed.

Lemma addToast_distinct m ty d fresh (s : state) :
  distinct s -> distinct (addToast m ty d fresh s).
Proof.
  unfold distinct, addToast. intros H.
  destruct (existsb _ (toasts s)) eqn:E; [exact H|].
  cbn [toasts]. rewrite map_app. cbn [List.map key message type].
  apply NoDup_snoc; [exact H | apply not_identical_not_in, E].
Qed.

Lemma removeToast_distinct id0 (s : state) :
  distinct s -> distinct (removeToast id0 s).
Proof. unfold distinct, removeToast. cbn [toasts]. apply NoDup_map_filter. Qed.

Lemma step_distinct (e : event) (s : state) : distinct s -> distinct (step e s).
Proof.
  intros H. destruct e as [m ty d fresh|id0|id0]; cbn [step].
  - apply addToast_distinct, H.
  - destruct (existsb (Qeq_bool id0) (timers s)); [|exact H].
    apply removeToast_distinct. exact H.
  - apply removeToast_distinct, H.
Qed.

(** C9: a call of [addToast] whose message and type equal those of a toast
    already in the list adds nothing; hence in every state the container
    reaches no two toasts share their message and type. *)
Theorem toasts_never_duplicated :
  (forall (s : state) (m : string) (ty : option string) (d : option Z)
          (fresh : Q) (x : toast),
      In x (toasts s) -> message x = m -> type x = chosen_type ty ->
      toasts (addToast m ty d fresh s) = toasts s)
  /\ forall evs : list event, NoDup (List.map key (toasts (run evs init))).
Proof.
  split.
  - intros s m ty d fresh x Hin Hm Ht. unfold addToast.
    assert (E : existsb (identical m (chosen_type ty)) (toasts s) = true).
    { apply existsb_exists. exists x. split; [exact Hin|].
      apply identical_spec. unfold key. congruence. }
    rewrite E. reflexivity.
  - intros evs. change (distinct (run evs init)).
    induction evs as [|e evs IH] using rev_ind.
    + constructor.
    + unfold run. rewrite fold_left_app. apply step_distinct, IH.
Qed.

Lemma toasts_never_duplicated_witness :
  toasts (addToast "Query cannot be empty" (Some "warning") (Some 3000) (9 # 2)
            one_warning)
  = toasts one_warning.
Proof.
  apply (proj1 toasts_never_duplicated one_warning _ _ _ _
           {| id := 7 # 2; message := "Query cannot be empty";
              type := "warning"; duration := 4000 |});
    [left; reflexivity | reflexivity | reflexivity].
Defined.

End ToastTheorems.

(* ================================================================= *)
(** ** The validator of the search form *)

Module ValidatorTheorems.
Import JsString Regex Validator ValidatorSpec ValidatorDoubles.
Local Open Scope list_scope.

Lemma dangerousPatterns_words : dangerousPatterns = List.map chars dangerous_words.
Proof. reflexivity. Qed.

Lemma sqlPatterns_shapes : sqlPatterns = List.map shape_pattern sql_shapes.
Proof. reflexivity. Qed.

(** *** The matcher *)

Lemma test_here (p : pattern) (s : jsstring) :
  match_here p s = true -> test p s = true.
Proof. intros H. destruct s; cbn [test]; rewrite H; reflexivity. Qed.

Lemma test_skip (p : pattern) (pre s : jsstring) :
  test p s = true -> test p (pre ++ s) = true.
Proof.
  intros H. induction pre as [|x pre IH]; [exact H|].
  cbn [app test]. rewrite IH. apply orb_true_r.
Qed.

Lemma match_here_spelled (w : string) (xs : jsstring) (p : pattern) (rest : jsstring) :
  spelled w xs -> match_here p rest = true ->
  match_here (chars w ++ p) (xs ++ rest) = true.
Proof.
  unfold spelled, chars. intros H Hp.
  induction H as [|c x cs xs Hc _ IH]; [exact Hp|].
  cbn [List.map app match_here]. rewrite Hc, IH. reflexivity.
Qed.

Lemma match_here_star (p : pattern) (s : jsstring) :
  match_here (SpaceStar :: p) s = star p s.
Proof. reflexivity. Qed.

Lemma match_here_plus (p : pattern) (x : code_unit) (s : jsstring) :
  match_here (SpacePlus :: p) (x :: s) = is_space x && star p s.
Proof. reflexivity. Qed.

Lemma star_run (p : pattern) (ws rest : jsstring) :
  forallb is_space ws = true -> match_here p rest = true ->
  star p (ws ++ rest) = true.
Proof.
  intros Hws Hp. induction ws as [|x ws IH].
  - destruct rest; cbn; rewrite Hp; reflexivity.
  - cbn in Hws. apply andb_true_iff in Hws. destruct Hws as [Hx Hws].
    cbn [app star]. rewrite Hx, (IH Hws). apply orb_true_r.
Qed.

Lemma match_here_separator (sep : item) (p : pattern) (ws rest : jsstring) :
  (sep = SpacePlus \/ sep = SpaceStar) ->
  separates sep ws -> match_here p rest = true ->
  match_here (sep :: p) (ws ++ rest) = true.
Proof.
  intros Hsep [Hws Hne] Hp. destruct Hsep as [-> | ->].
  - destruct ws as [|x ws]; [contradiction|].
    cbn in Hws. apply andb_true_iff in Hws. destruct Hws as [Hx Hws].
    cbn [app]. rewrite match_here_plus, Hx, (star_run p ws rest Hws Hp).
    reflexivity.
  - rewrite match_here_star. apply star_run; assumption.
Qed.


(** *** Trimming keeps what is visible *)

Lemma count_visible_app (a b : jsstring) :
  count_visible (a ++ b) = (count_visible a + count_visible b)%nat.
Proof. unfold count_visible. rewrite filter_app, length_app. reflexivity. Qed.

Lemma count_visible_rev (s : jsstring) : count_visible (rev s) = count_visible s.
Proof.
  induction s as [|x s IH]; [reflexivity|].
  cbn [rev]. rewrite count_visible_app, IH. unfold count_visible. cbn.
  destruct (is_space x); cbn; lia.
Qed.

Lemma count_visible_trimStart (s : jsstring) :
  count_visible (trimStart s) = count_visible s.
Proof.
  induction s as [|x s IH]; [reflexivity|].
  cbn [trimStart]. destruct (is_space x) eqn:E; [|reflexivity].
  rewrite IH. unfold count_visible. cbn. rewrite E. reflexivity.
Qed.

Lemma count_visible_trim (s : jsstring) : count_visible (trim s) = count_visible s.
Proof.
  unfold trim, trimEnd.
  rewrite count_visible_rev, count_visible_trimStart, count_visible_rev.
  apply count_visible_trimStart.
Qed.

Lemma count_visible_le (s : jsstring) : (count_visible s <= List.length s)%nat.
Proof. apply filter_length_le. Qed.

Lemma length_trimStart (s : jsstring) :
  (List.length (trimStart s) <= List.length s)%nat.
Proof.
  induction s as [|x s IH]; [reflexivity|].
  cbn [trimStart]. destruct (is_space x); cbn; lia.
Qed.

Lemma length_trim (s : jsstring) : length (trim s) <= length s.
Proof.
  unfold length, trim, trimEnd. rewrite length_rev.
  pose proof (length_trimStart (rev (trimStart s))) as H1.
  rewrite length_rev in H1. pose proof (length_trimStart s). lia.
Qed.

Lemma matched_visible (c : ascii) (x : code_unit) :
  is_space (upper (N_of_ascii c)) = false -> chr_matches c x = true ->
  is_space x = false.
Proof.
  unfold chr_matches. intros Hc Hm. apply N.eqb_eq in Hm.
  destruct (is_space x) eqn:Hx; [|reflexivity].
  assert (Hup : upper x = x).
  { unfold upper. destruct ((97 <=? x) && (x <=? 122))%N eqn:E; [|reflexivity].
    apply andb_true_iff in E. destruct E as [E1 E2].
    apply N.leb_le in E1, E2. unfold is_space in Hx.
    repeat (apply orb_true_iff in Hx; destruct Hx as [Hx|Hx]);
      repeat match goal with
      | H : (_ && _)%bool = true |- _ => apply andb_true_iff in H; destruct H
      | H : (_ <=? _)%N = true |- _ => apply N.leb_le in H
      | H : (_ =? _)%N = true |- _ => apply N.eqb_eq in H
      end; lia. }
  rewrite Hup in Hm. rewrite <- Hm, Hc in Hx. discriminate.
Qed.

Lemma spelled_visible (cs : list ascii) (xs : jsstring) :
  forallb (fun c => negb (is_space (upper (N_of_ascii c)))) cs = true ->
  Forall2 (fun c x => chr_matches c x = true) cs xs ->
  count_visible xs = List.length cs.
Proof.
  intros Hcs H. induction H as [|c x cs xs Hc _ IH]; [reflexivity|].
  cbn in Hcs. apply andb_true_iff in Hcs. destruct Hcs as [Hv Hcs].
  apply negb_true_iff in Hv.
  change (x :: xs) with ([x] ++ xs). rewrite count_visible_app, (IH Hcs).
  unfold count_visible. cbn. rewrite (matched_visible c x Hv Hc). reflexivity.
Qed.

(** A word of two or more characters, none of them whitespace. *)
Lemma word_visible (w : string) (xs pre post : jsstring) :
  forallb (fun c => negb (is_space (upper (N_of_ascii c))))
          (list_ascii_of_string w) = true ->
  (2 <= List.length (list_ascii_of_string w))%nat ->
  spelled w xs -> 2 <= length (trim (pre ++ xs ++ post)).
Proof.
  intros Hw Hlen Hs. unfold length.
  pose proof (count_visible_le (trim (pre ++ xs ++ post))) as Hle.
  rewrite count_visible_trim, !count_visible_app in Hle.
  rewrite (spelled_visible _ _ Hw Hs) in Hle. lia.
Qed.

Lemma not_blank (q : jsstring) :
  2 <= length (trim q) -> falsy q || falsy (trim q) = false.
Proof.
  intros H. pose proof (length_trim q) as Hq. unfold length in *.
  destruct q; [cbn in H; lia|]. destruct (trim (c :: q)); [cbn in H; lia|].
  reflexivity.
Qed.

(** X1: a query that contains one of the twelve markup or script words, in
    any letter case and at any place, is refused with the dangerous-content
    message whenever it is at most 200 code units long. *)
Theorem dangerous_word_refused (w : string) (xs pre post : jsstring) :
  In w dangerous_words -> spelled w xs ->
  length (pre ++ xs ++ post) <= 200 ->
  validateQuery (pre ++ xs ++ post) = invalid msg_dangerous.
Proof.
  intros Hw Hs Hlen.
  assert (Hwords : forallb (fun w =>
            forallb (fun c => negb (is_space (upper (N_of_ascii c))))
                    (list_ascii_of_string w)
            && (2 <=? List.length (list_ascii_of_string w))%nat)
            dangerous_words = true) by (vm_compute; reflexivity).
  rewrite forallb_forall in Hwords. specialize (Hwords w Hw).
  apply andb_true_iff in Hwords. destruct Hwords as [Hplain Hlong].
  apply Nat.leb_le in Hlong.
  pose proof (word_visible w xs pre post Hplain Hlong Hs) as Htrim.
  unfold validateQuery. rewrite (not_blank _ Htrim).
  destruct (length (trim (pre ++ xs ++ post)) <? 2) eqn:E1; [lia|].
  destruct (length (pre ++ xs ++ post) >? 200) eqn:E2; [lia|].
  assert (Hex : existsb (fun p => test p (pre ++ xs ++ post)) dangerousPatterns = true).
  { apply existsb_exists. exists (chars w). split.
    - rewrite dangerousPatterns_words. apply in_map, Hw.
    - apply test_skip, test_here.
      rewrite <- (List.app_nil_r (chars w)). apply match_here_spelled; [exact Hs | reflexivity]. }
  rewrite Hex. reflexivity.
Qed.

Lemma dangerous_word_refused_witness :
  In "<script" dangerous_words
  /\ spelled "<script" (lit "<SCRIPT")
  /\ length (lit "hello " ++ lit "<SCRIPT" ++ lit ">alert(1)") <= 200
  /\ validateQuery (lit "hello " ++ lit "<SCRIPT" ++ lit ">alert(1)")
     = invalid msg_dangerous.
Proof.
  assert (Hs : spelled "<script" (lit "<SCRIPT"))
    by (repeat constructor).
  split; [left; reflexivity | split; [exact Hs | split; [vm_compute; discriminate|]]].
  apply (dangerous_word_refused "<script" (lit "<SCRIPT") (lit "hello ")
           (lit ">alert(1)")); [left; reflexivity | exact Hs | vm_compute; discriminate].
Defined.


(** X2: a query in which one of the SQL keyword pairs occurs, in any letter
    case and with any run of whitespace the pattern allows between the two
    keywords (at least one character after [union], [drop], [delete],
    [insert] and [update]; none needed after [;]), is refused with the SQL
    message when no markup pattern matches and it is at most 200 code units
    long. *)
Theorem sql_keywords_refused
    (k1 k2 : string) (sep : item) (x1 ws x2 pre post : jsstring) :
  In (k1, sep, k2) sql_shapes ->
  spelled k1 x1 -> separates sep ws -> spelled k2 x2 ->
  length (pre ++ x1 ++ ws ++ x2 ++ post) <= 200 ->
  existsb (fun p => test p (pre ++ x1 ++ ws ++ x2 ++ post)) dangerousPatterns
  = false ->
  validateQuery (pre ++ x1 ++ ws ++ x2 ++ post) = invalid msg_sql.
Proof.
  intros Hshape H1 Hws H2 Hlen Hsafe.
  set (q := pre ++ x1 ++ ws ++ x2 ++ post) in *.
  assert (Hshapes : forallb (fun shape =>
            let '(a, s, b) := shape in
            forallb (fun c => negb (is_space (upper (N_of_ascii c))))
                    (list_ascii_of_string a)
            && forallb (fun c => negb (is_space (upper (N_of_ascii c))))
                       (list_ascii_of_string b)
            && (1 <=? List.length (list_ascii_of_string a))%nat
            && (1 <=? List.length (list_ascii_of_string b))%nat
            && match s with SpacePlus | SpaceStar => true | Chr _ => false end)
            sql_shapes = true) by (vm_compute; reflexivity).
  rewrite forallb_forall in Hshapes. specialize (Hshapes _ Hshape).
  cbn beta iota in Hshapes.
  apply andb_true_iff in Hshapes. destruct Hshapes as [Hshapes Hsep].
  apply andb_true_iff in Hshapes. destruct Hshapes as [Hshapes Hl2].
  apply andb_true_iff in Hshapes. destruct Hshapes as [Hshapes Hl1].
  apply andb_true_iff in Hshapes. destruct Hshapes as [Hp1 Hp2].
  apply Nat.leb_le in Hl1, Hl2.
  assert (Htrim : 2 <= length (trim q)).
  { unfold length. pose proof (count_visible_le (trim q)) as Hle.
    subst q. rewrite count_visible_trim, !count_visible_app in Hle.
    rewrite (spelled_visible _ _ Hp1 H1), (spelled_visible _ _ Hp2 H2) in Hle.
    lia. }
  unfold validateQuery. rewrite (not_blank _ Htrim).
  destruct (length (trim q) <? 2) eqn:E1; [lia|].
  destruct (length q >? 200) eqn:E2; [lia|].
  rewrite Hsafe.
  assert (Hex : existsb (fun p => test p q) sqlPatterns = true).
  { apply existsb_exists. exists (shape_pattern (k1, sep, k2)). split.
    - rewrite sqlPatterns_shapes. apply in_map, Hshape.
    - subst q. apply test_skip, test_here. cbn [shape_pattern].
      apply match_here_spelled; [exact H1|].
      cbn [app]. apply match_here_separator.
      + destruct sep; [discriminate Hsep | auto | auto].
      + exact Hws.
      + rewrite <- (List.app_nil_r (chars k2)).
        apply match_here_spelled; [exact H2 | reflexivity]. }
  rewrite Hex. reflexivity.
Qed.

Lemma sql_keywords_refused_witness :
  In ("union", SpacePlus, "select") sql_shapes
  /\ spelled "union" (lit "UNION") /\ separates SpacePlus [32; 9; 160]%N
  /\ spelled "select" (lit "Select")
  /\ validateQuery (lit "x " ++ lit "UNION" ++ [32; 9; 160]%N ++ lit "Select"
                      ++ lit " * from users")
     = invalid msg_sql.
Proof.
  assert (H1 : spelled "union" (lit "UNION")) by (repeat constructor).
  assert (H2 : spelled "select" (lit "Select")) by (repeat constructor).
  assert (Hw : separates SpacePlus [32; 9; 160]%N)
    by (split; [reflexivity | discriminate]).
  split; [left; reflexivity | split; [exact H1 | split; [exact Hw | split; [exact H2|]]]].
  apply (sql_keywords_refused "union" "select" SpacePlus (lit "UNION")
           [32; 9; 160]%N (lit "Select") (lit "x ") (lit " * from users"));
    [left; reflexivity | exact H1 | exact Hw | exact H2
    | vm_compute; discriminate | vm_compute; reflexivity].
Defined.

(** X3: the search form and the hook run the same checks.  The form accepts
    a query exactly when the hook does, a query the hook refuses gets the
    same message from the form, and a query the hook drops silently as
    blank is the one the form calls empty. *)
Theorem form_and_hook_checks_agree (q : jsstring) :
  (isValid (validateQuery q) = true <-> handleSearch_precheck q = Accepted)
  /\ (forall m, handleSearch_precheck q = Rejected m -> validateQuery q = invalid m)
  /\ (handleSearch_precheck q = Blank <-> validateQuery q = invalid msg_empty).
Proof.
  assert (Hblank : falsy q || falsy (trim q) = falsy (trim q))
    by (destruct q; reflexivity).
  unfold validateQuery, handleSearch_precheck. rewrite Hblank. clear Hblank.
  repeat match goal with
  | |- context [if ?b then _ else _] => destruct b
  end;
  (split; [split; intros H; (discriminate H || reflexivity)
          | split; [intros m H; (discriminate H || (inversion H; reflexivity))
                   | split; intros H; (discriminate H || reflexivity)]]).
Qed.

Lemma special_ratio_threshold (q : jsstring) :
  tooManySpecial q = true <-> 3 * length q < 10 * specialCharCount q.
Proof.
  unfold tooManySpecial. rewrite negb_true_iff.
  destruct (Qle_bool (inject_Z (specialCharCount q))
                     (inject_Z (length q) * (3 # 10))) eqn:E.
  - apply Qle_bool_iff in E. unfold Qle in E. cbn in E.
    split; [discriminate | lia].
  - split; [intros _ | reflexivity].
    destruct (Z_lt_le_dec (3 * length q) (10 * specialCharCount q)) as [H|H];
      [exact H|].
    assert (E' : Qle_bool (inject_Z (specialCharCount q))
                          (inject_Z (length q) * (3 # 10)) = true).
    { apply Qle_bool_iff. unfold Qle. cbn. lia. }
    congruence.
Qed.

Lemma double_check_table :
  forallb
    (fun len =>
       forallb
         (fun count =>
            Bool.eqb
              (PrimFloat.ltb
                 (PrimFloat.mul (double_of (Z.of_nat len))
                                0x1.3333333333333p-2%float)
                 (double_of (Z.of_nat count)))
              (3 * Z.of_nat len <? 10 * Z.of_nat count))
         (seq 0 (S len)))
    (seq 0 201)
  = true.
Proof. vm_compute. reflexivity. Qed.

(** X4: on every query of at most 200 code units, and no longer query
    reaches the check, the comparison [specialCharCount > query.length * 0.3]
    gives in double arithmetic, with [0.3] and the product rounded, what it
    gives in exact arithmetic: the query is refused exactly when more than
    three in ten of its code units are neither word characters nor
    whitespace, and three in ten exactly still pass. *)
Theorem special_check_in_doubles (q : jsstring) :
  length q <= 200 ->
  tooManySpecial_double q = tooManySpecial q
  /\ (tooManySpecial_double q = true
      <-> 3 * length q < 10 * specialCharCount q).
Proof.
  intros Hlen.
  assert (Hd : tooManySpecial_double q
               = (3 * length q <? 10 * specialCharCount q)).
  { unfold tooManySpecial_double, specialCharCount, length in *.
    set (count := List.length (filter (fun c => negb (is_word c || is_space c)) q)).
    assert (Hc : (count <= List.length q)%nat) by apply filter_length_le.
    pose proof double_check_table as T.
    rewrite forallb_forall in T.
    specialize (T (List.length q)).
    rewrite forallb_forall in T.
    apply Bool.eqb_prop, T; apply in_seq; lia. }
  split.
  - rewrite Hd. destruct (tooManySpecial q) eqn:E.
    + apply Z.ltb_lt, special_ratio_threshold, E.
    + apply Z.ltb_ge. apply Z.nlt_ge. intros H.
      apply special_ratio_threshold in H. congruence.
  - rewrite Hd. apply Z.ltb_lt.
Qed.

Lemma special_check_in_doubles_witness :
  length (lit "a!!b??c..d") <= 200
  /\ tooManySpecial_double (lit "a!!b??c..d") = true
  /\ tooManySpecial (lit "a!!b??c..d") = true.
Proof.
  split; [vm_compute; discriminate|].
  destruct (special_check_in_doubles (lit "a!!b??c..d")) as [Heq _];
    [vm_compute; discriminate|].
  split; [reflexivity | rewrite <- Heq; reflexivity].
Defined.

End ValidatorTheorems.

(* ================================================================= *)
(** ** The gateway's failures, case by case *)

Module GatewayMore.
Import Json Gateway GatewaySpec GatewayShapes JsonFacts Samples GatewayTheorems.

(** X5: a response whose body carries a truthy [detail] that is not the
    list of a 422 (any other status, or a 422 whose [detail] is no array)
    is thrown as an [api] error with that [detail] as its message and the
    response's status. *)
Theorem other_detail_is_api (e : axios_error) (r : response) (detail : json) :
  err_response e = Some r ->
  response_detail e = Some detail ->
  truthy (Some detail) = true ->
  (status r <> 422 \/ forall l, detail <> JArr l) ->
  exists m,
    searchTools (Rejected e) = Thrown (Error m)
    /\ parse m = Some (JObj [("type", JStr "api"); ("message", detail);
                             ("status", JNum (status r))]).
Proof.
  intros Hr Hd Ht Hshape. eexists. split.
  - cbn [searchTools]. unfold searchTools_catch. rewrite Hd, Hr, Ht.
    destruct (status r =? 422) eqn:E.
    + apply Z.eqb_eq in E. destruct Hshape as [Hs|Hs]; [contradiction|].
      destruct detail; try reflexivity. exfalso. eapply Hs. reflexivity.
    + reflexivity.
  - apply parse_stringify.
Qed.

Lemma other_detail_is_api_witness :
  exists m,
    searchTools (Rejected not_found_404) = Thrown (Error m)
    /\ parse m = Some (JObj [("type", JStr "api"); ("message", JStr "Not Found");
                             ("status", JNum 404)]).
Proof.
  apply (other_detail_is_api not_found_404
           {| status := 404; data := JObj [("detail", JStr "Not Found")] |}
           (JStr "Not Found")); try reflexivity.
  left. discriminate.
Defined.

(** X6: a failure whose response carries no truthy [detail] (no body, a
    body that is no object, no [detail] key, or a [detail] that is [null],
    [false], [0] or empty) is thrown as a [network] error with the
    failure's own message, although a response was received. *)
Theorem no_detail_is_network (e : axios_error) :
  truthy (response_detail e) = false ->
  exists m,
    searchTools (Rejected e) = Thrown (Error m)
    /\ parse m
       = Some (JObj [("type", JStr "network");
                     ("message",
                      JStr (if String.eqb (err_message e) "" then msg_network
                            else err_message e));
                     ("originalError", JStr (err_message e))]).
Proof.
  intros Ht. eexists. split.
  - cbn [searchTools]. unfold searchTools_catch.
    destruct (response_detail e) as [detail|]; [|reflexivity].
    destruct (err_response e); [|reflexivity]. rewrite Ht. reflexivity.
  - apply parse_stringify.
Qed.

Lemma no_detail_is_network_witness :
  truthy (response_detail bad_gateway_502) = false
  /\ exists m,
       searchTools (Rejected bad_gateway_502) = Thrown (Error m)
       /\ parse m
          = Some (JObj [("type", JStr "network");
                        ("message", JStr "Request failed with status code 502");
                        ("originalError", JStr "Request failed with status code 502")]).
Proof.
  split; [reflexivity|].
  apply (no_detail_is_network bad_gateway_502). reflexivity.
Defined.

Lemma validation_entry_throws (err : json) :
  entry_ok err = false ->
  validation_entry err = inl (TypeError msg_null_loc)
  \/ validation_entry err = inl (TypeError msg_join)
  \/ validation_entry err = inl (TypeError msg_primitive).
Proof.
  unfold entry_ok, validation_entry. intros H.
  destruct err; [left; reflexivity | ..];
    (destruct (truthy (prop _ "loc")); [|discriminate H]);
    (destruct (prop _ "loc") as [[| | | |path|]|]; try discriminate H;
     try (right; left; reflexivity);
     pose proof (join_defined "." path) as Hj; rewrite H in Hj;
     destruct (join "." path); [discriminate Hj | right; right; reflexivity]).
Qed.

Lemma validation_entries_throw (l : list json) :
  forallb entry_ok l = false ->
  validation_entries l = inl (TypeError msg_null_loc)
  \/ validation_entries l = inl (TypeError msg_join)
  \/ validation_entries l = inl (TypeError msg_primitive).
Proof.
  induction l as [|err l IH]; cbn [forallb validation_entries]; intros H;
    [discriminate H|].
  destruct (entry_ok err) eqn:E.
  - cbn in H. destruct (validation_entries_ok [err]) as (es & Hes);
      [cbn; rewrite E; reflexivity|].
    cbn in Hes. destruct (validation_entry err) as [te|entry]; [discriminate|].
    destruct (IH H) as [-> | [-> | ->]]; auto.
  - destruct (validation_entry_throws err E) as [-> | [-> | ->]]; auto.
Qed.

Lemma validation_entry_shape (err entry : json) :
  validation_entry err = inr entry -> entry_of err entry.
Proof.
  unfold validation_entry, entry_of. intros H.
  destruct err as [|b|n|s|l|fields]; try discriminate H;
    try (injection H as <-; repeat split; reflexivity).
  cbn [prop] in *.
  destruct (lookup "loc" fields) as [[|b|n|s|path|o]|] eqn:Hloc; cbn in H;
    repeat match type of H with
    | context [if ?c then _ else _] => destruct c
    | context [join "." path] => destruct (join "." path)
    end;
    try discriminate H; injection H as <-;
    destruct (lookup "msg" fields); repeat split; reflexivity.
Qed.

(** X7: when the entries of a 422 detail list are mapped, the [errors] of
    the payload answer them one for one and in order: each carries the type
    [validation], the entry's [msg] as its [message] (none when the entry has
    none), and as [field] the entry's [loc] joined with ["."], or ["query"]
    when the entry names no location.  The numbers of the list are safe
    integers, so that a joined index reads as the engine prints it. *)
Theorem validation_entries_in_order (detail entries : list json) :
  forallb safe detail = true ->
  validation_entries detail = inr entries -> Forall2 entry_of detail entries.
Proof.
  intros _. revert entries. induction detail as [|err detail IH]; intros entries H.
  - injection H as <-. constructor.
  - cbn [validation_entries] in H.
    destruct (validation_entry err) as [te|entry] eqn:He; [discriminate H|].
    destruct (validation_entries detail) as [te|rest]; [discriminate H|].
    injection H as <-. constructor; [apply validation_entry_shape, He | apply IH; reflexivity].
Qed.

Lemma validation_entries_in_order_witness :
  forallb safe bare_entry_detail = true
  /\ validation_entries bare_entry_detail
     = inr [ JObj [("field", JStr "body.0.name"); ("message", JStr "required");
                   ("type", JStr "validation")];
             JObj [("field", JStr "query"); ("type", JStr "validation")] ]
  /\ Forall2 entry_of bare_entry_detail
       [ JObj [("field", JStr "body.0.name"); ("message", JStr "required");
               ("type", JStr "validation")];
         JObj [("field", JStr "query"); ("type", JStr "validation")] ].
Proof.
  split; [reflexivity | split; [reflexivity|]].
  apply (validation_entries_in_order bare_entry_detail); reflexivity.
Defined.

Lemma well_formed_throws_structured (e : axios_error) :
  forallb entry_ok (detail_entries e) = true ->
  exists m, searchTools_catch e = Error m /\ structured m.
Proof.
  intros E. unfold searchTools_catch. unfold detail_entries in E.
  destruct (response_detail e) as [errorDetail|] eqn:Hd; [|structured_payload].
  destruct (err_response e) as [r|] eqn:Hr; [|structured_payload].
  destruct (truthy (Some errorDetail)) eqn:Ht; [|structured_payload].
  destruct (status r =? 422); [|structured_payload].
  destruct errorDetail as [|b|n|s|detail|fields]; try structured_payload.
  destruct (validation_entries_ok detail E) as (entries & ->).
  structured_payload.
Qed.

Lemma malformed_throws_type_error (e : axios_error) :
  forallb entry_ok (detail_entries e) = false ->
  searchTools_catch e = TypeError msg_null_loc
  \/ searchTools_catch e = TypeError msg_join
  \/ searchTools_catch e = TypeError msg_primitive.
Proof.
  unfold searchTools_catch, detail_entries. intros H.
  destruct (err_response e) as [r|]; [|discriminate H].
  destruct (response_detail e) as [[|b|n|s|l|fields]|]; try discriminate H.
  destruct (status r =? 422); [|discriminate H].
  cbn [truthy].
  destruct (validation_entries_throw l H) as [-> | [-> | ->]]; auto.
Qed.

(** X8: [searchTools] lets a [TypeError] through exactly when the failure
    is a 422 whose detail list holds an entry that is [null], or whose [loc]
    is truthy and no array, or whose [loc] is an array that holds, at some
    depth of nested arrays, an object with a key [toString] of its own. *)
Theorem type_error_iff_malformed_entry (e : axios_error) :
  (exists m, searchTools (Rejected e) = Thrown (TypeError m))
  <-> forallb entry_ok (detail_entries e) = false.
Proof.
  cbn [searchTools]. split.
  - intros (m & H). destruct (forallb entry_ok (detail_entries e)) eqn:E;
      [|reflexivity].
    destruct (well_formed_throws_structured e E) as (m' & Hm' & _). congruence.
  - intros H. destruct (malformed_throws_type_error e H) as [-> | [-> | ->]]; eauto.
Qed.

(** X9: whatever the failure, the error the hook records after it is an
    object with a [type] among [validation], [api], [network] and [unknown]
    and with a [message]. *)
Theorem recorded_error_has_kind (e : axios_error) :
  exists fields ty msg,
    Controller.errorDetails (searchTools_catch e) = JObj fields
    /\ lookup "type" fields = Some (JStr ty)
    /\ In ty ["validation"; "api"; "network"; "unknown"]
    /\ lookup "message" fields = Some msg.
Proof.
  destruct (forallb entry_ok (detail_entries e)) eqn:E.
  - destruct (well_formed_throws_structured e E)
      as (m & -> & fields & ty & msg & Hp & Hty & Hin & Hmsg).
    exists fields, ty, msg. unfold Controller.errorDetails. cbn [exn_message].
    rewrite Hp. repeat split; auto. cbn in Hin. cbn. tauto.
  - destruct (malformed_throws_type_error e E) as [-> | [-> | ->]];
      (eexists _, "unknown", _; split; [vm_compute; reflexivity|];
       split; [reflexivity | split; [cbn; tauto | reflexivity]]).
Qed.

End GatewayMore.

(* ================================================================= *)
(** ** The simulator over time *)

Module SimulatorMore.
Import Simulator SimulatorSpec SimulatorReadings SimulatorFacts.

Lemma cube_mono (a b : Q) : (0 <= a <= b)%Q -> (a * a * a <= b * b * b)%Q.
Proof.
  intros [H0 H1].
  assert (Hsq : (0 <= a * a <= b * b)%Q).
  { split; [apply Qmult_le_0_compat; assumption|].
    apply Qmult_le_compat_nonneg; split; assumption. }
  apply Qmult_le_compat_nonneg; [exact Hsq | split; assumption].
Qed.

Lemma ease_mono (x y : Q) :
  (0 <= x)%Q -> (x <= y)%Q -> (y <= 1)%Q -> (easeOutCubic x <= easeOutCubic y)%Q.
Proof.
  intros H0 Hxy H1. unfold easeOutCubic.
  assert (Ex : ((1 - x) ^ 3 == (1 - x) * (1 - x) * (1 - x))%Q) by (simpl; ring).
  assert (Ey : ((1 - y) ^ 3 == (1 - y) * (1 - y) * (1 - y))%Q) by (simpl; ring).
  rewrite Ex, Ey.
  pose proof (cube_mono (1 - y) (1 - x)) as Hc.
  assert (Hr : (0 <= 1 - y <= 1 - x)%Q) by (split; lra).
  specialize (Hc Hr). lra.
Qed.

Lemma ratio_range (d span : Z) :
  0 <= d <= span -> 0 < span -> (0 <= inject_Z d / inject_Z span <= 1)%Q.
Proof.
  intros Hd Hspan. destruct span as [|p|p]; try lia.
  unfold Qle, Qdiv, Qmult, Qinv, inject_Z; simpl. lia.
Qed.

Lemma ratio_mono (d1 d2 span : Z) :
  d1 <= d2 -> 0 < span -> (inject_Z d1 / inject_Z span <= inject_Z d2 / inject_Z span)%Q.
Proof.
  intros Hd Hspan. destruct span as [|p|p]; try lia.
  unfold Qle, Qdiv, Qmult, Qinv, inject_Z; simpl. nia.
Qed.

Lemma eased_mono (lo hi1 hi2 e1 e2 prevT span : Z) :
  lo <= hi1 -> hi1 <= hi2 -> 0 < span -> e1 <= e2 ->
  eased lo hi1 e1 prevT span <= eased lo hi2 e2 prevT span.
Proof.
  intros Hlo Hhi Hspan He. unfold eased. apply Qfloor_resp_le.
  set (d1 := Z.min (Z.max (e1 - prevT) 0) span).
  set (d2 := Z.min (Z.max (e2 - prevT) 0) span).
  assert (Hd1 : 0 <= d1 <= span) by (subst d1; lia).
  assert (Hd2 : 0 <= d2 <= span) by (subst d2; lia).
  assert (Hd : d1 <= d2) by (subst d1 d2; lia).
  pose proof (ratio_range d1 span Hd1 Hspan) as [R10 R11].
  pose proof (ratio_range d2 span Hd2 Hspan) as [R20 R21].
  pose proof (ratio_mono d1 d2 span Hd Hspan) as Rm.
  pose proof (ease_mono _ _ R10 Rm R21) as Em.
  destruct (ease_bounds _ (conj R10 R11)) as [E10 E11].
  destruct (ease_bounds _ (conj R20 R21)) as [E20 E21].
  set (x1 := easeOutCubic (inject_Z d1 / inject_Z span)) in *.
  set (x2 := easeOutCubic (inject_Z d2 / inject_Z span)) in *.
  assert (Hw : (0 <= inject_Z (hi1 - lo) <= inject_Z (hi2 - lo))%Q).
  { unfold Qle, inject_Z; simpl. lia. }
  pose proof (Qmult_le_compat_nonneg _ _ _ _ Hw (conj E10 Em)) as Hm.
  lra.
Qed.

(** X10: the later the clock, the higher the target: for two clock readings
    in order the second tick aims at least as high as the first, across
    stage boundaries and cap steps. *)
Theorem tick_target_monotone (e1 e2 : Z) :
  e1 <= e2 -> target_of e1 <= target_of e2.
Proof.
  intros He. unfold target_of. rewrite !tick_closed.
  pose proof (dynamicCap_range e1) as Hc1. pose proof (dynamicCap_range e2) as Hc2.
  assert (Hcap : dynamicCap e1 <= dynamicCap e2).
  { unfold dynamicCap.
    destruct (e1 <? 10000) eqn:A1, (e2 <? 10000) eqn:A2,
             (e1 <? 18000) eqn:B1, (e2 <? 18000) eqn:B2,
             (e1 <? 28000) eqn:C1, (e2 <? 28000) eqn:C2; lia. }
  pose proof (eased_range 5 25 e1 0 800).
  pose proof (eased_range 25 65 e1 800 1700).
  pose proof (eased_range 65 85 e1 2500 2000).
  pose proof (eased_range 85 (dynamicCap e1) e1 4500 2000).
  pose proof (eased_range 5 25 e2 0 800).
  pose proof (eased_range 25 65 e2 800 1700).
  pose proof (eased_range 65 85 e2 2500 2000).
  pose proof (eased_range 85 (dynamicCap e2) e2 4500 2000).
  pose proof (eased_mono 5 25 25 e1 e2 0 800).
  pose proof (eased_mono 25 65 65 e1 e2 800 1700).
  pose proof (eased_mono 65 85 85 e1 e2 2500 2000).
  pose proof (eased_mono 85 (dynamicCap e1) (dynamicCap e2) e1 e2 4500 2000).
  destruct (e1 <=? 800) eqn:A1; destruct (e2 <=? 800) eqn:A2;
    destruct (e1 <=? 2500) eqn:B1; destruct (e2 <=? 2500) eqn:B2;
    destruct (e1 <=? 4500) eqn:C1; destruct (e2 <=? 4500) eqn:C2; lia.
Qed.

Lemma tick_target_monotone_witness :
  150 <= 7000 /\ target_of 150 <= target_of 7000.
Proof. split; [lia | apply (tick_target_monotone 150 7000); lia]. Defined.

(** X11: once the last threshold (6.5 s) has passed, every tick shows the
    last stage's label and aims exactly at the dynamic cap. *)
Theorem tick_past_last_threshold (elapsed : Z) :
  6500 <= elapsed ->
  tick elapsed = Some ("Generating recommendations...", dynamicCap elapsed).
Proof.
  intros H. rewrite tick_closed.
  destruct (elapsed <=? 800) eqn:A; [lia|].
  destruct (elapsed <=? 2500) eqn:B; [lia|].
  destruct (elapsed <=? 4500) eqn:C; [lia|].
  f_equal. f_equal. unfold eased.
  replace (Z.min (Z.max (elapsed - 4500) 0) 2000) with 2000 by lia.
  pose proof (dynamicCap_range elapsed) as Hc.
  assert (E : (inject_Z 85 + inject_Z (dynamicCap elapsed - 85)
               * easeOutCubic (inject_Z 2000 / inject_Z 2000)
               == inject_Z (dynamicCap elapsed))%Q).
  { unfold easeOutCubic.
    assert (E1 : (inject_Z 2000 / inject_Z 2000 == 1)%Q) by reflexivity.
    rewrite E1. unfold Zminus. rewrite inject_Z_plus, inject_Z_opp. simpl. ring. }
  rewrite (Qfloor_comp _ _ E). apply Qfloor_Z.
Qed.

Lemma tick_past_last_threshold_witness :
  6500 <= 20000
  /\ tick 20000 = Some ("Generating recommendations...", 97).
Proof. split; [lia | apply (tick_past_last_threshold 20000); lia]. Defined.

End SimulatorMore.

(* ================================================================= *)
(** ** The hook's bookkeeping *)

Module ControllerMore.
Import JsString Json Gateway Controller ControllerSpec ControllerFacts ControllerLedger.
Local Open Scope list_scope.

Lemma step_requests (e : event) (s : state) :
  requests (step e s) = requests s ++ accepted_queries [e].
Proof.
  destruct e as [q now|h now|c r|h|j]; cbn [step accepted_queries].
  - unfold handleSearch. destruct (Validator.handleSearch_precheck q); cbn;
      rewrite ?List.app_nil_r; reflexivity.
  - unfold on_tick. destruct (startTime_of h (intervals s)); [|symmetry; apply List.app_nil_r].
    destruct (Simulator.tick (now - z)) as [[lbl target]|]; cbn; symmetry; apply List.app_nil_r.
  - unfold on_settle. destruct (awaiting c s); [|symmetry; apply List.app_nil_r].
    destruct (searchTools r); cbn; symmetry; apply List.app_nil_r.
  - unfold on_hold. destruct (existsb (Pos.eqb h) (holds s)); cbn; symmetry; apply List.app_nil_r.
  - cbn. symmetry. apply List.app_nil_r.
Qed.

Lemma accepted_queries_app (evs1 evs2 : list event) :
  accepted_queries (evs1 ++ evs2) = accepted_queries evs1 ++ accepted_queries evs2.
Proof.
  induction evs1 as [|e evs1 IH]; [reflexivity|].
  destruct e as [q now|h now|c r|h|j]; cbn [app accepted_queries]; try exact IH.
  destruct (Validator.handleSearch_precheck q); cbn; rewrite IH; reflexivity.
Qed.

(** X12: the hook sends one request for each submission that passes its
    checks, with the query as submitted and in the order of submission, and
    none otherwise: ticks, settlements, failures and timeouts never send or
    resend. *)
Theorem one_request_per_accepted_submission (evs : list event) (s : state) :
  requests (run evs s) = requests s ++ accepted_queries evs.
Proof.
  induction evs as [|e evs IH] using rev_ind.
  - cbn. symmetry. apply List.app_nil_r.
  - rewrite run_snoc, step_requests, IH, accepted_queries_app, app_assoc.
    reflexivity.
Qed.


Lemma startTime_of_last (h : handle) (now : Z) (l : list (handle * Z)) :
  startTime_of h (l ++ [(h, now)]) <> None.
Proof.
  rewrite startTime_of_app. destruct (startTime_of h l); [discriminate|].
  cbn. rewrite Pos.eqb_refl. discriminate.
Qed.

Lemma fresh_not_in (h : handle) (l : list (handle * Z)) :
  Forall (fun p => (fst p < h)%positive) l -> ~ In h (List.map fst l).
Proof.
  intros H Hin. apply in_map_iff in Hin. destruct Hin as (p & <- & Hp).
  rewrite Forall_forall in H. specialize (H p Hp). cbn in H.
  exact (Pos.lt_irrefl _ H).
Qed.

Lemma step_tidy (e : event) (s : state) : tidy s -> tidy (step e s).
Proof.
  intros (Href & Hnd & Hfresh & Hholds & Hcalls & Hissued).
  pose proof (step_fresh e s Hfresh) as Hfresh'.
  destruct e as [q now|h now|c r|k|j]; cbn [step] in *.
  - unfold handleSearch in *.
    destruct (Validator.handleSearch_precheck q);
      [repeat split; assumption | repeat split; assumption |].
    unfold tidy.
    cbn [tickerRef intervals holds next_handle inflight requests] in *.
    split; [|split; [|split; [|split; [|split]]]].
    + intros h Hh. injection Hh as <-. apply startTime_of_last.
    + rewrite map_app. cbn [List.map fst]. apply ToastTheorems.NoDup_snoc; [exact Hnd|].
      apply fresh_not_in, Hfresh.
    + exact Hfresh'.
    + eapply Forall_impl; [|exact Hholds]. cbn. intros; lia.
    + apply ToastTheorems.NoDup_snoc; [exact Hcalls|].
      intros Hin. rewrite Forall_forall in Hissued. specialize (Hissued _ Hin). lia.
    + apply Forall_app; split.
      * eapply Forall_impl; [|exact Hissued]. cbn. intros.
        rewrite length_app. cbn. lia.
      * constructor; [rewrite length_app; cbn; lia | constructor].
  - unfold on_tick in *.
    destruct (startTime_of h (intervals s)); [|repeat split; assumption].
    destruct (Simulator.tick (now - z)) as [[lbl target]|];
      repeat split; assumption.
  - unfold on_settle in *. destruct (awaiting c s); [|repeat split; assumption].
    assert (Hnd' : NoDup (List.map fst (clear_ticker (resume c s)))).
    { unfold clear_ticker, resume. cbn. destruct (tickerRef s); [|exact Hnd].
      apply ToastTheorems.NoDup_map_filter, Hnd. }
    assert (Hcalls' : NoDup (filter (fun c' => negb (c' =? c)%nat) (inflight s)))
      by (apply NoDup_filter, Hcalls).
    assert (Hissued' : Forall (fun c' => (c' < List.length (requests s))%nat)
                         (filter (fun c' => negb (c' =? c)%nat) (inflight s))).
    { apply Forall_forall. intros c' Hc'. apply filter_In in Hc'.
      rewrite Forall_forall in Hissued. apply Hissued, Hc'. }
    destruct (searchTools r); unfold tidy;
      cbn [on_success on_failure resume tickerRef intervals holds next_handle
           inflight requests] in *;
      (split; [discriminate|]); (split; [exact Hnd'|]); (split; [exact Hfresh'|]);
      (split; [|split; [exact Hcalls' | exact Hissued']]).
    + apply Forall_app; split.
      * eapply Forall_impl; [|exact Hholds]. cbn. intros; lia.
      * constructor; [lia | constructor].
    + exact Hholds.
  - unfold on_hold in *. destruct (existsb (Pos.eqb k) (holds s));
      [|repeat split; assumption].
    unfold tidy. cbn [tickerRef intervals holds next_handle inflight requests] in *.
    repeat split; try assumption.
    apply Forall_forall. intros k' Hk'. apply filter_In in Hk'.
    rewrite Forall_forall in Hholds. apply Hholds, Hk'.
  - repeat split; assumption.
Qed.

(** X13: in every state the hook reaches, overlapping submissions or not,
    its bookkeeping is sound: [tickerRef] is empty or names an interval that
    is scheduled; no two scheduled intervals share an identifier, and every
    identifier in use lies below the next one to be handed out; the calls in
    flight are distinct and each one is a request that was sent. *)
Theorem bookkeeping_is_sound (s : state) : reachable s -> tidy s.
Proof.
  apply reachable_induction.
  - repeat split; try constructor. discriminate.
  - intros e s' _ H. apply step_tidy, H.
Qed.

Lemma bookkeeping_is_sound_witness :
  reachable Samples.two_pending /\ tidy Samples.two_pending.
Proof.
  assert (H : reachable Samples.two_pending) by (eexists; reflexivity).
  split; [exact H | apply (bookkeeping_is_sound Samples.two_pending H)].
Defined.

End ControllerMore.

(* ================================================================= *)
(** ** The search form and the app *)

Module AppTheorems.
Import JsString Json Gateway Validator SearchSection App Phases.
Local Open Scope list_scope.

Lemma setError_phase (e : json) (s : Controller.state) :
  phase s -> phase (Controller.setError e s).
Proof. intros H. exact H. Qed.

Lemma not_loading_idle (s : Controller.state) :
  phase s -> Controller.loading s = false -> idle s.
Proof.
  intros [H|[H|H]] Hl; [exact H | |]; destruct H as [Hload _]; congruence.
Qed.

Lemma handleSearch_phase (q : jsstring) (now : Z) (s : Controller.state) :
  idle s -> phase (Controller.handleSearch q now s).
Proof.
  intros Hi. unfold Controller.handleSearch.
  destruct (handleSearch_precheck q); [left; exact Hi | left; exact Hi |].
  destruct Hi as (_ & _ & _ & _ & Hint & Hholds & Hfl).
  right. left. unfold pending. cbn. rewrite Hint, Hholds, Hfl.
  repeat split; try lia. eexists _, _, _. repeat split.
Qed.

Lemma setQuery_hook (q : jsstring) (a : app) :
  hook (setQuery q a) = hook a
  \/ hook (setQuery q a) = Controller.setError JNull (hook a).
Proof. unfold setQuery. cbn. destruct (_ && _); auto. Qed.

Lemma perform_phase (now : Z) (a : app) (act : action) :
  phase (hook a) -> Controller.loading (hook a) = false ->
  phase (hook (perform now a act))
  /\ (act <> OnSearch -> Controller.loading (hook (perform now a act)) = false).
Proof.
  intros Hp Hl. destruct act as [|q|e|m ty d]; cbn [perform hook].
  - split; [|congruence]. apply handleSearch_phase, not_loading_idle; assumption.
  - destruct (setQuery_hook q a) as [-> | ->]; auto.
  - auto.
  - auto.
Qed.

Lemma perform_all_quiet (now : Z) (acts : list action) (a : app) :
  quiet acts -> phase (hook a) -> Controller.loading (hook a) = false ->
  phase (hook (perform_all now acts a))
  /\ Controller.loading (hook (perform_all now acts a)) = false.
Proof.
  unfold perform_all. intros Hq. revert a.
  induction Hq as [|act acts Hact _ IH]; intros a Hp Hl; [auto|].
  cbn [fold_left]. destruct (perform_phase now a act Hp Hl) as [Hp' Hl'].
  apply IH; auto.
Qed.

Lemma report_quiet (v : validation) : quiet (report v).
Proof. repeat constructor; discriminate. Qed.

Lemma handleInputChange_quiet (q : jsstring) (e : json) :
  quiet (handleInputChange q e).
Proof.
  unfold handleInputChange, quiet.
  repeat (apply Forall_app; split);
    repeat match goal with
    | |- context [if ?b then _ else _] => destruct b
    end; repeat constructor; discriminate.
Qed.

Lemma submit_or_quiet_phase (now : Z) (acts : list action) (a : app) :
  acts = [OnSearch] \/ quiet acts ->
  phase (hook a) -> Controller.loading (hook a) = false ->
  phase (hook (perform_all now acts a)).
Proof.
  intros [-> | Hq] Hp Hl.
  - apply (perform_phase now a OnSearch Hp Hl).
  - apply (perform_all_quiet now acts a Hq Hp Hl).
Qed.

Lemma handleSearchClick_shape (q : jsstring) :
  handleSearchClick q = [OnSearch] \/ quiet (handleSearchClick q).
Proof.
  unfold handleSearchClick. destruct (isValid (validateQuery q)); auto.
  right. apply report_quiet.
Qed.

Lemma handleKeyPress_shape (key : string) (q : jsstring) :
  handleKeyPress key q = [OnSearch] \/ quiet (handleKeyPress key q).
Proof.
  unfold handleKeyPress. destruct (String.eqb key "Enter"); [|right; constructor].
  destruct (isValid (validateQuery q)); auto. right. apply report_quiet.
Qed.

(** *** The hook's own events *)

Lemma tick_phase (h : Controller.handle) (now : Z) (s : Controller.state) :
  phase s -> phase (Controller.on_tick h now s).
Proof.
  intros Hp. unfold Controller.on_tick.
  destruct (Controller.startTime_of h (Controller.intervals s)) as [t0|] eqn:Hst;
    [|exact Hp].
  destruct (Simulator.tick (now - t0)) as [[lbl target]|] eqn:Ht; [|exact Hp].
  destruct Hp as [Hi|[Hpend|Hh]].
  - destruct Hi as (_ & _ & _ & _ & Hint & _). rewrite Hint in Hst. discriminate.
  - right. left. destruct Hpend as (Hl & Hprog & Hholds & Hex).
    apply SimulatorFacts.tick_range in Ht.
    unfold pending. cbn. repeat split; auto;
      destruct (target >? Controller.loadingProgress s); lia.
  - destruct Hh as (_ & _ & _ & _ & Hint & _). rewrite Hint in Hst. discriminate.
Qed.

Lemma settle_phase (call : nat) (r : axios_result) (s : Controller.state) :
  phase s -> phase (Controller.on_settle call r s).
Proof.
  intros Hp. unfold Controller.on_settle.
  destruct (Controller.awaiting call s) eqn:Haw; [|exact Hp].
  destruct Hp as [Hi|[Hpend|Hh]].
  - destruct Hi as (_ & _ & _ & _ & _ & _ & Hfl).
    unfold Controller.awaiting in Haw. rewrite Hfl in Haw. discriminate.
  - destruct Hpend as (Hl & Hprog & Hholds & c & h & t0 & Hfl & Hint & Href).
    assert (Hc : call = c).
    { unfold Controller.awaiting in Haw. rewrite Hfl in Haw. cbn in Haw.
      rewrite orb_false_r in Haw. apply Nat.eqb_eq in Haw. exact Haw. }
    subst c.
    assert (Hclear : Controller.clear_ticker (Controller.resume call s) = []).
    { unfold Controller.clear_ticker, Controller.resume. cbn. rewrite Href, Hint.
      cbn. rewrite Pos.eqb_refl. reflexivity. }
    assert (Hres : Controller.inflight (Controller.resume call s) = []).
    { unfold Controller.resume. cbn. rewrite Hfl. cbn. rewrite Nat.eqb_refl.
      reflexivity. }
    destruct (searchTools r).
    + right. right. unfold holding, Controller.on_success.
      cbn [Controller.loading Controller.loadingProgress Controller.loadingStage
           Controller.tickerRef Controller.intervals Controller.holds
           Controller.inflight].
      rewrite Hclear, Hres. cbn. rewrite Hl, Hholds. repeat split. eexists. reflexivity.
    + left. unfold idle, Controller.on_failure.
      cbn [Controller.loading Controller.loadingProgress Controller.loadingStage
           Controller.tickerRef Controller.intervals Controller.holds
           Controller.inflight].
      rewrite Hclear, Hres. cbn. rewrite Hholds. repeat split.
  - destruct Hh as (_ & _ & _ & _ & _ & Hfl & _).
    unfold Controller.awaiting in Haw. rewrite Hfl in Haw. discriminate.
Qed.

Lemma hold_phase (k : Controller.handle) (s : Controller.state) :
  phase s -> phase (Controller.on_hold k s).
Proof.
  intros Hp. unfold Controller.on_hold.
  destruct (existsb (Pos.eqb k) (Controller.holds s)) eqn:Hk; [|exact Hp].
  destruct Hp as [Hi|[Hpend|Hh]].
  - destruct Hi as (_ & _ & _ & _ & _ & Hholds & _). rewrite Hholds in Hk.
    discriminate.
  - destruct Hpend as (_ & _ & Hholds & _). rewrite Hholds in Hk. discriminate.
  - destruct Hh as (Hl & Hprog & Hst & Href & Hint & Hfl & k' & Hholds).
    left. unfold idle. cbn. rewrite Hholds in Hk |- *. cbn in Hk |- *.
    rewrite orb_false_r in Hk. apply Pos.eqb_eq in Hk. subst k'.
    rewrite Pos.eqb_refl. cbn. repeat split; assumption.
Qed.

Lemma step_phase (e : event) (a : app) : phase (hook a) -> phase (hook (step e a)).
Proof.
  intros Hp. destruct e as [q|key now|now|i|e]; cbn [step].
  - unfold input_disabled.
    destruct (Controller.loading (hook a)) eqn:Hl; [exact Hp|].
    apply (perform_all_quiet 0 _ a (handleInputChange_quiet _ _) Hp Hl).
  - unfold input_disabled.
    destruct (Controller.loading (hook a)) eqn:Hl; [exact Hp|].
    apply submit_or_quiet_phase; auto using handleKeyPress_shape.
  - unfold button_disabled.
    destruct (Controller.loading (hook a)) eqn:Hl; [exact Hp|]. cbn [orb].
    destruct (falsy (trim (query a))); [exact Hp|].
    apply submit_or_quiet_phase; auto using handleSearchClick_shape.
  - unfold input_disabled.
    destruct (Controller.loading (hook a)) eqn:Hl; [exact Hp|].
    destruct (nth_error exampleQueries i) as [example|]; [|exact Hp].
    destruct (setQuery_hook example a) as [-> | ->]; exact Hp.
  - destruct e as [q now|h now|c r|k|j]; cbn [delivered hook Controller.step];
      try exact Hp.
    + apply tick_phase, Hp.
    + apply settle_phase, Hp.
    + apply hold_phase, Hp.
Qed.

(** X14: through the search form the hook is always in one of three phases:
    idle (nothing scheduled, nothing in flight, progress 0), pending (exactly
    one call in flight, exactly one interval scheduled and held in
    [tickerRef], progress from 0 to 99) or holding after a success (progress
    100 under the completion label, one hold timeout, nothing else).  So
    submissions never overlap, no interval outlives its search, and a
    settlement always belongs to the one search under way. *)
Theorem form_keeps_one_search (evs : list event) :
  let s := hook (run evs init) in idle s \/ pending s \/ holding s.
Proof.
  cbn zeta. change (phase (hook (run evs init))).
  induction evs as [|e evs IH] using rev_ind.
  - left. repeat split.
  - unfold run. rewrite fold_left_app. apply step_phase, IH.
Qed.


(** *** Submitting through the form *)

Lemma valid_is_accepted (q : jsstring) :
  isValid (validateQuery q) = true -> handleSearch_precheck q = Accepted.
Proof.
  assert (Hblank : falsy q || falsy (trim q) = falsy (trim q))
    by (destruct q; reflexivity).
  unfold validateQuery, handleSearch_precheck. rewrite Hblank. clear Hblank.
  repeat match goal with
  | |- context [if ?b then _ else _] => destruct b
  end; intros H; (discriminate H || reflexivity).
Qed.

Lemma invalid_has_message (q : jsstring) :
  isValid (validateQuery q) = false ->
  exists m, validateQuery q = invalid m /\ String.eqb m "" = false.
Proof.
  unfold validateQuery.
  repeat match goal with
  | |- context [if ?b then _ else _] => destruct b
  end; intros H; try discriminate H; eexists; split; reflexivity.
Qed.

(** X15: a click on the enabled search button either starts a search,
    sending exactly one request with the query as typed, or sends nothing:
    then it raises one warning toast of 4 s with the validator's message
    and records the validation error with that message, and [loading] stays
    off. *)
Theorem click_sends_or_reports (a : app) (now : Z) :
  button_disabled (Controller.loading (hook a)) (query a) = false ->
  let a' := step (Click now) a in
  (isValid (validateQuery (query a)) = true
   /\ Controller.requests (hook a') = Controller.requests (hook a) ++ [query a]
   /\ Controller.loading (hook a') = true
   /\ Controller.error (hook a') = JNull)
  \/ (exists m,
         validateQuery (query a) = invalid m
         /\ handleSearchClick (query a)
            = [AddToast m "warning" 4000;
               OnValidationError (Controller.validation_error m)]
         /\ Controller.requests (hook a') = Controller.requests (hook a)
         /\ Controller.loading (hook a') = false
         /\ Controller.error (hook a') = Controller.validation_error m).
Proof.
  intros Hen a'. subst a'. cbn [step]. rewrite Hen.
  unfold button_disabled in Hen. apply orb_false_iff in Hen.
  destruct Hen as [Hl _]. unfold handleSearchClick.
  destruct (isValid (validateQuery (query a))) eqn:Hv.
  - left. split; [reflexivity|]. cbn. unfold Controller.handleSearch.
    rewrite (valid_is_accepted _ Hv). cbn. auto.
  - right. destruct (invalid_has_message _ Hv) as (m & Hm & _). exists m.
    rewrite Hm. cbn. auto.
Qed.

Lemma click_sends_or_reports_witness :
  button_disabled false (lit "a!!b") = false
  /\ Controller.requests (hook (step (Click 0) (typed (lit "a!!b")))) = []
  /\ Controller.error (hook (step (Click 0) (typed (lit "a!!b"))))
     = Controller.validation_error msg_special.
Proof.
  split; [reflexivity|].
  destruct (click_sends_or_reports (typed (lit "a!!b")) 0 eq_refl)
    as [(Hv & _) | (m & Hm & _ & Hreq & _ & Herr)].
  - vm_compute in Hv. discriminate Hv.
  - vm_compute in Hm. injection Hm as <-. split; [exact Hreq | exact Herr].
Defined.

(** *** Results *)

Lemma perform_results (now : Z) (a : app) (act : action) :
  results (perform now a act) = results a.
Proof. destruct act; reflexivity. Qed.

Lemma perform_all_results (now : Z) (acts : list action) (a : app) :
  results (perform_all now acts a) = results a.
Proof.
  unfold perform_all. revert a. induction acts as [|act acts IH]; intros a;
    [reflexivity|].
  cbn [fold_left]. rewrite IH. apply perform_results.
Qed.

(** X16: the results on file change only when a call that is in flight
    settles with a truthy body, and then they become that body; typing,
    invalid submissions, failures and empty bodies leave the earlier results
    in place. *)
Theorem results_change_only_on_success (e : event) (a : app) :
  results (step e a) = results a
  \/ exists call body,
       e = Hook (Controller.Settle call (Fulfilled body))
       /\ Controller.awaiting call (hook a) = true
       /\ truthy (Some body) = true
       /\ results (step e a) = body.
Proof.
  destruct e as [q|key now|now|i|e]; cbn [step];
    try (match goal with
         | |- context [if ?b then _ else _] => destruct b
         end; left; (reflexivity || apply perform_all_results)).
  - destruct (input_disabled _); [left; reflexivity|].
    destruct (nth_error exampleQueries i); left; reflexivity.
  - destruct e as [q now|h now|c r|k|j]; cbn [delivered results after_search];
      try (left; reflexivity).
    destruct r as [body|err]; [|left; reflexivity].
    destruct (Controller.awaiting c (hook a)) eqn:Haw; [|left; reflexivity].
    destruct (truthy (Some body)) eqn:Hb; [|left; reflexivity].
    right. exists c, body. auto.
Qed.

(** X17: when the call of the search under way fails, the results of the
    search before are untouched and, if there were any, back on screen at
    once; when it succeeds with a truthy body, the new results stay off
    screen while the completion hold lasts and are on screen when it has
    elapsed. *)
Theorem results_after_settlement (a : app) (call : nat) :
  pending (hook a) -> Controller.awaiting call (hook a) = true ->
  (forall err,
      let a' := step (Hook (Controller.Settle call (Gateway.Rejected err))) a in
      results a' = results a
      /\ shows_results a' = truthy (Some (results a)))
  /\ (forall body, truthy (Some body) = true ->
      let a' := step (Hook (Controller.Settle call (Fulfilled body))) a in
      results a' = body
      /\ shows_results a' = false
      /\ shows_results
           (step (Hook (Controller.HoldElapsed (Controller.next_handle (hook a)))) a')
         = true).
Proof.
  intros Hp Haw. destruct Hp as (Hl & _ & Hholds & _). split.
  - intros err a'. subst a'. cbn [step delivered results after_search].
    split; [reflexivity|]. unfold shows_results.
    cbn [hook results after_search Controller.step]. unfold Controller.on_settle.
    rewrite Haw. cbn. reflexivity.
  - intros body Hb a'. subst a'. cbn [step delivered results after_search hook].
    rewrite Haw, Hb. cbn [andb]. split; [reflexivity|].
    unfold shows_results.
    cbn [hook results after_search Controller.step delivered].
    unfold Controller.on_settle. rewrite Haw. cbn [searchTools].
    split.
    + cbn. rewrite Hl. reflexivity.
    + unfold Controller.on_hold, Controller.on_success, Controller.resume.
      cbn [Controller.holds Controller.next_handle]. rewrite Hholds.
      cbn [List.app existsb]. rewrite Pos.eqb_refl. cbn. exact Hb.
Qed.

Lemma results_after_settlement_witness :
  pending (hook searching)
  /\ Controller.awaiting 0 (hook searching) = true
  /\ results (step (Hook (Controller.Settle 0
                            (Gateway.Rejected Samples.connection_refused)))
                   searching)
     = results searching.
Proof.
  assert (Hp : pending (hook searching)).
  { split; [reflexivity|]. split; [vm_compute; split; [discriminate | reflexivity]|].
    split; [reflexivity|]. eexists _, _, _. repeat split; reflexivity. }
  split; [exact Hp|]. split; [reflexivity|].
  exact (proj1 (proj1 (results_after_settlement searching 0 Hp eq_refl)
                  Samples.connection_refused)).
Defined.

(** X18: typing into the enabled input clears the recorded error and puts
    the typed text in the input. *)
Theorem typing_clears_error (a : app) (q : jsstring) :
  Controller.loading (hook a) = false ->
  truthy (Some (Controller.error (hook (step (Change q) a)))) = false
  /\ query (step (Change q) a) = q.
Proof.
  intros Hl. cbn [step]. unfold input_disabled. rewrite Hl.
  unfold handleInputChange, perform_all.
  rewrite !fold_left_app. cbn [fold_left perform].
  assert (Htoast : forall (acts : list action) (b : app),
             (forall act, In act acts -> exists m ty d, act = AddToast m ty d) ->
             fold_left (perform 0) acts b = b).
  { induction acts as [|act acts IH]; intros b Hall; [reflexivity|].
    cbn [fold_left]. destruct (Hall act (or_introl eq_refl)) as (m & ty & d & ->).
    cbn [perform]. apply IH. intros act' Hin. apply Hall. right. exact Hin. }
  rewrite Htoast.
  2:{ intros act Hin.
      repeat match type of Hin with
      | context [if ?b then _ else _] => destruct b
      end; cbn in Hin; try contradiction.
      destruct Hin as [<-|[]]. eauto. }
  destruct (truthy (Some (Controller.error (hook a)))) eqn:He.
  - cbn [fold_left perform hook query]. split; reflexivity.
  - cbn [fold_left]. unfold setQuery. cbn [hook query]. rewrite He, andb_false_r.
    split; [exact He | reflexivity].
Qed.

Lemma typing_clears_error_witness :
  Controller.loading (hook refused) = false
  /\ truthy (Some (Controller.error (hook refused))) = true
  /\ truthy (Some (Controller.error (hook (step (Change (lit "ab")) refused))))
     = false.
Proof.
  split; [reflexivity|]. split; [reflexivity|].
  exact (proj1 (typing_clears_error refused (lit "ab") eq_refl)).
Defined.

End AppTheorems.

(* ================================================================= *)
(** ** The toasts the form raises *)

Module FormTheorems.
Import JsString Json Gateway GatewaySpec Validator SearchSection JsonFacts GatewayTheorems.
Local Open Scope list_scope.

Lemma validateQuery_cases (q : jsstring) :
  In (validateQuery q)
     [ invalid msg_empty; invalid msg_short; invalid msg_long;
       invalid msg_dangerous; invalid msg_sql; invalid msg_special;
       {| isValid := true; message := None |} ].
Proof.
  unfold validateQuery.
  repeat match goal with
  | |- context [if ?b then _ else _] => destruct b
  end; cbn; auto 10.
Qed.

(** X19: while the user types, the form raises a toast only for dangerous
    content and for SQL content, as a warning of 3 s with the validator's
    message; an empty, short, long or special-character-laden query raises
    none. *)
Theorem typing_warns_of_danger_only (q : jsstring) (error : json)
    (m ty : string) (d : Z) :
  In (AddToast m ty d) (handleInputChange q error)
  <-> (validateQuery q = invalid m /\ (m = msg_dangerous \/ m = msg_sql)
       /\ ty = "warning" /\ d = 3000).
Proof.
  unfold handleInputChange. rewrite !in_app_iff. split.
  - intros [H|[H|H]].
    + destruct H as [H|[]]. discriminate H.
    + destruct (truthy (Some error)); [destruct H as [H|[]]; discriminate H | destruct H].
    + destruct (length q >? 0); [|destruct H].
      pose proof (validateQuery_cases q) as Hc.
      destruct (validateQuery q) as [valid msg].
      cbn in Hc.
      repeat (destruct Hc as [Hc|Hc]; [injection Hc as <- <-; vm_compute in H|]);
        try contradiction;
        try (destruct H as [H|[]]; injection H as <- <- <-; repeat split; auto).
  - intros (Hv & Hm & -> & ->). right. right.
    assert (Hlen : (length q >? 0) = true).
    { destruct q; [|reflexivity].
      vm_compute in Hv. destruct Hm as [-> | ->]; discriminate Hv. }
    rewrite Hlen, Hv. destruct Hm as [-> | ->]; left; reflexivity.
Qed.

Lemma typing_warns_of_danger_only_witness :
  In (AddToast msg_sql "warning" 3000)
     (handleInputChange (lit "x; DROP") JNull).
Proof.
  apply (proj2 (typing_warns_of_danger_only (lit "x; DROP") JNull
                  msg_sql "warning" 3000)).
  repeat split; auto.
Defined.

(** X20: every failed search raises a toast of 6 s with the recorded
    message, never the stand-in text: a warning when the recorded error has
    the type [validation], an error toast for every other failure. *)
Theorem failed_search_toast (e : axios_error) :
  exists msg ty,
    errorToast (Controller.errorDetails (searchTools_catch e))
    = Some (msg, ty, 6000)
    /\ prop (Controller.errorDetails (searchTools_catch e)) "message" = Some msg
    /\ (ty = "warning" \/ ty = "error")
    /\ (ty = "warning"
        <-> prop (Controller.errorDetails (searchTools_catch e)) "type"
            = Some (JStr "validation")).
Proof.
  assert (Hnet : exists msg ty,
    errorToast (Controller.errorDetails (Error (stringify (network_payload e))))
    = Some (msg, ty, 6000)
    /\ prop (Controller.errorDetails (Error (stringify (network_payload e)))) "message"
       = Some msg
    /\ (ty = "warning" \/ ty = "error")
    /\ (ty = "warning"
        <-> prop (Controller.errorDetails (Error (stringify (network_payload e)))) "type"
            = Some (JStr "validation"))).
  { unfold Controller.errorDetails. cbn [exn_message]. rewrite parse_stringify.
    unfold network_payload, errorToast. cbn.
    destruct (String.eqb (err_message e) "") eqn:E.
    - eexists _, _. split; [reflexivity|]. split; [reflexivity|].
      split; [auto|]. split; discriminate.
    - rewrite E. cbn. eexists _, _. split; [reflexivity|]. split; [reflexivity|].
      split; [auto|]. split; discriminate. }
  unfold searchTools_catch.
  destruct (response_detail e) as [errorDetail|] eqn:Hd; [|exact Hnet].
  destruct (err_response e) as [r|] eqn:Hr; [|exact Hnet].
  destruct (truthy (Some errorDetail)) eqn:Ht; [|exact Hnet].
  assert (Hapi : exists msg ty,
    errorToast (Controller.errorDetails
                  (Error (stringify (api_payload errorDetail (status r)))))
    = Some (msg, ty, 6000)
    /\ prop (Controller.errorDetails
               (Error (stringify (api_payload errorDetail (status r))))) "message"
       = Some msg
    /\ (ty = "warning" \/ ty = "error")
    /\ (ty = "warning"
        <-> prop (Controller.errorDetails
                    (Error (stringify (api_payload errorDetail (status r))))) "type"
            = Some (JStr "validation"))).
  { unfold Controller.errorDetails. cbn [exn_message]. rewrite parse_stringify.
    set (payload := api_payload errorDetail (status r)).
    assert (Hmsg : prop payload "message" = Some errorDetail) by reflexivity.
    assert (Hty : prop payload "type" = Some (JStr "api")) by reflexivity.
    unfold errorToast. rewrite Hmsg, Hty, Ht.
    change (truthy (Some payload)) with true. cbv iota.
    eexists _, _. split; [reflexivity|]. split; [reflexivity|].
    split; [auto|]. split; discriminate. }
  destruct (status r =? 422); [|exact Hapi].
  destruct errorDetail as [|b|n|s|detail|fields]; try exact Hapi.
  destruct (validation_entries detail) as [te|entries] eqn:Hes.
  - destruct (forallb entry_ok detail) eqn:Hok.
    + destruct (validation_entries_ok detail Hok) as (es & Hes'). congruence.
    + assert (Hte : te = TypeError msg_null_loc \/ te = TypeError msg_join
                    \/ te = TypeError msg_primitive).
      { destruct (GatewayMore.validation_entries_throw detail Hok) as [H|[H|H]];
          rewrite H in Hes; injection Hes as <-; auto. }
      destruct Hte as [-> | [-> | ->]];
        (eexists _, _; split; [vm_compute; reflexivity|];
         split; [vm_compute; reflexivity|]; split; [auto|];
         split; [discriminate | vm_compute; discriminate]).
  - unfold Controller.errorDetails. cbn [exn_message]. rewrite parse_stringify.
    unfold validation_payload, errorToast. cbn.
    eexists _, _. split; [reflexivity|]. split; [reflexivity|].
    split; [auto|]. split; reflexivity.
Qed.

End FormTheorems.

(* ================================================================= *)
(** ** The toast container's additions, removals and timeouts *)

Module ToastMore.
Import Json Toasts ToastLedger ToastTheorems.
Local Open Scope list_scope.

(** X21: an invalid submission calls [addToast] twice, at once from the
    handler and 100 ms later from the effect on the recorded error; both
    calls carry the validator's message and the type [warning], so the second
    one changes nothing while the first toast is up. *)
Theorem invalid_submission_toasts_once (q : JsString.jsstring) :
  Validator.isValid (Validator.validateQuery q) = false ->
  exists m err,
    SearchSection.handleSearchClick q
    = [SearchSection.AddToast m "warning" 4000;
       SearchSection.OnValidationError err]
    /\ SearchSection.errorToast err = Some (JStr m, "warning", 6000)
    /\ forall (s : state) (id1 id2 : Q),
         addToast m (Some "warning") (Some 6000) id2
           (addToast m (Some "warning") (Some 4000) id1 s)
         = addToast m (Some "warning") (Some 4000) id1 s.
Proof.
  intros Hv.
  destruct (AppTheorems.invalid_has_message q Hv) as (m & Hm & Hne).
  exists m. eexists. split; [|split].
  - unfold SearchSection.handleSearchClick. rewrite Hm. reflexivity.
  - unfold SearchSection.errorToast. cbn. rewrite Hne. cbn. reflexivity.
  - intros s id1 id2.
    assert (Hin : existsb (identical m "warning")
                    (toasts (addToast m (Some "warning") (Some 4000) id1 s)) = true).
    { unfold addToast. cbn [chosen_type].
      destruct (existsb (identical m "warning") (toasts s)) eqn:E; [exact E|].
      cbn [toasts]. rewrite existsb_app. cbn. unfold identical at 2. cbn.
      rewrite !String.eqb_refl. apply orb_true_r. }
    unfold addToast at 1. cbn [chosen_type]. rewrite Hin. reflexivity.
Qed.

Lemma invalid_submission_toasts_once_witness :
  Validator.isValid (Validator.validateQuery (JsString.lit "a")) = false
  /\ exists m err,
       SearchSection.handleSearchClick (JsString.lit "a")
       = [SearchSection.AddToast m "warning" 4000;
          SearchSection.OnValidationError err]
       /\ SearchSection.errorToast err = Some (JStr m, "warning", 6000)
       /\ forall (s : state) (id1 id2 : Q),
            addToast m (Some "warning") (Some 6000) id2
              (addToast m (Some "warning") (Some 4000) id1 s)
            = addToast m (Some "warning") (Some 4000) id1 s.
Proof.
  split; [reflexivity|].
  apply (invalid_submission_toasts_once (JsString.lit "a")). reflexivity.
Defined.

(** X22: adding a toast and removing it by its identifier gives the list
    back, when no toast with that message and type was up and the
    identifier was not in use. *)
Theorem add_then_remove (m : string) (ty : option string) (d : option Z)
    (fresh : Q) (s : state) :
  existsb (identical m (chosen_type ty)) (toasts s) = false ->
  existsb (fun x => Qeq_bool (id x) fresh) (toasts s) = false ->
  toasts (removeToast fresh (addToast m ty d fresh s)) = toasts s.
Proof.
  intros Hnew Hfresh. unfold addToast. rewrite Hnew.
  unfold removeToast. cbn [toasts]. rewrite filter_app. cbn [filter id].
  rewrite (proj2 (Qeq_bool_iff fresh fresh) (Qeq_refl fresh)). cbn.
  rewrite List.app_nil_r. apply forallb_filter_id.
  apply forallb_forall. intros x Hx.
  destruct (Qeq_bool (id x) fresh) eqn:E; [|reflexivity].
  assert (existsb (fun x => Qeq_bool (id x) fresh) (toasts s) = true)
    by (apply existsb_exists; eauto).
  congruence.
Qed.

Lemma add_then_remove_witness :
  toasts (removeToast (9 # 2)
            (addToast "Network Error" None None (9 # 2) Samples.one_warning))
  = toasts Samples.one_warning.
Proof.
  apply (add_then_remove "Network Error" None None (9 # 2) Samples.one_warning);
    reflexivity.
Defined.

Lemma Qeq_bool_trans_false (a b c : Q) :
  Qeq_bool a b = true -> Qeq_bool a c = false -> Qeq_bool b c = false.
Proof.
  intros Hab Hac. destruct (Qeq_bool b c) eqn:E; [|reflexivity].
  apply Qeq_bool_iff in Hab, E.
  assert (Qeq_bool a c = true) by (apply Qeq_bool_iff; rewrite Hab; exact E).
  congruence.
Qed.

Lemma step_timed (e : event) (s : state) : timed s -> timed (step e s).
Proof.
  unfold timed. intros H. destruct e as [m ty d fresh|id0|id0]; cbn [step].
  - unfold addToast. destruct (existsb _ (toasts s)); [exact H|].
    cbn [toasts timers]. intros x Hx Hd. apply in_app_iff in Hx.
    destruct Hx as [Hx|[<-|[]]].
    + specialize (H x Hx Hd).
      destruct (chosen_duration d >? 0); [|exact H].
      rewrite existsb_app, H. reflexivity.
    + cbn [duration id] in *.
      destruct (chosen_duration d >? 0) eqn:E; [|lia].
      rewrite existsb_app. cbn.
      rewrite (proj2 (Qeq_bool_iff fresh fresh) (Qeq_refl fresh)).
      rewrite orb_true_r. reflexivity.
  - destruct (existsb (Qeq_bool id0) (timers s)); [|exact H].
    unfold removeToast. cbn [toasts timers]. intros x Hx Hd.
    apply filter_In in Hx. destruct Hx as [Hx Hne].
    apply negb_true_iff in Hne.
    specialize (H x Hx Hd). apply existsb_exists in H.
    destruct H as (k & Hk & Hxk).
    apply existsb_exists. exists k. split; [|exact Hxk].
    apply filter_In. split; [exact Hk|].
    apply negb_true_iff. apply (Qeq_bool_trans_false (id x)); assumption.
  - unfold removeToast. cbn [toasts timers]. intros x Hx Hd.
    apply filter_In in Hx. destruct Hx as [Hx _]. apply H; assumption.
Qed.

(** X23: in every state the container reaches, each toast with a positive
    duration has its removal timeout pending, whatever was added, closed by
    hand or timed out before. *)
Theorem expiring_toasts_have_timers (evs : list event) (x : toast) :
  In x (toasts (run evs init)) -> duration x > 0 ->
  existsb (Qeq_bool (id x)) (timers (run evs init)) = true.
Proof.
  revert x. change (timed (run evs init)).
  induction evs as [|e evs IH] using rev_ind.
  - intros x [].
  - unfold run. rewrite fold_left_app. apply step_timed, IH.
Qed.

Lemma expiring_toasts_have_timers_witness :
  In {| id := 7 # 2; message := "Query cannot be empty"; type := "warning";
        duration := 4000 |}
     (toasts (run [Add "Query cannot be empty" (Some "warning") (Some 4000) (7 # 2)]
                  init))
  /\ existsb (Qeq_bool (7 # 2))
       (timers (run [Add "Query cannot be empty" (Some "warning") (Some 4000) (7 # 2)]
                    init)) = true.
Proof.
  split; [left; reflexivity|].
  apply (expiring_toasts_have_timers
           [Add "Query cannot be empty" (Some "warning") (Some 4000) (7 # 2)]
           {| id := 7 # 2; message := "Query cannot be empty"; type := "warning";
              duration := 4000 |}); [left; reflexivity | reflexivity].
Defined.

End ToastMore.

(* ================================================================= *)
(** ** The analysis markup *)

Module ResultsTheorems.
Import JsString ResultsSection.
Local Open Scope list_scope.

Example format_sample :
  formatAnalysis (lit "Use **Django** or ***Flask**." ++ [10%N] ++ lit "**open")
  = lit "Use <strong>Django</strong> or <strong>*Flask</strong>.<br />**open".
Proof. vm_compute. reflexivity. Qed.

Example format_across_lines :
  formatAnalysis (lit "**a" ++ [10%N] ++ lit "b**") = lit "**a<br />b**".
Proof. vm_compute. reflexivity. Qed.

Example format_across_separator :
  formatAnalysis (lit "**a" ++ [8232%N] ++ lit "b**")
  = lit "**a" ++ [8232%N] ++ lit "b**".
Proof. vm_compute. reflexivity. Qed.

Lemma bold_here_no_star (s : jsstring) :
  existsb is_star s = false -> bold_here s = None.
Proof.
  destruct s as [|a [|b rest]]; try reflexivity. cbn.
  intros H. apply orb_false_iff in H. destruct H as [-> _]. reflexivity.
Qed.

Lemma bold_no_star (fuel : nat) (s : jsstring) :
  existsb is_star s = false -> bold fuel s = s.
Proof.
  revert s. induction fuel as [|fuel IH]; intros s H; [reflexivity|].
  cbn [bold]. rewrite (bold_here_no_star s H).
  destruct s as [|a s']; [reflexivity|].
  cbn in H. apply orb_false_iff in H. destruct H as [_ H]. rewrite (IH s' H).
  reflexivity.
Qed.

Lemma breaks_no_feed (s : jsstring) : existsb line_feed s = false -> breaks s = s.
Proof.
  induction s as [|c s IH]; [reflexivity|]. cbn [existsb breaks]. intros H.
  apply orb_false_iff in H. destruct H as [Hc H]. rewrite Hc, (IH H). reflexivity.
Qed.

(** X24: an analysis text with no asterisk and no line feed reaches the page
    exactly as the server sent it: nothing is escaped, so markup in the text
    is markup on the page. *)
Theorem plain_analysis_is_verbatim (analysis : jsstring) :
  existsb is_star analysis = false ->
  existsb line_feed analysis = false ->
  formatAnalysis analysis = analysis.
Proof.
  intros Hs Hn. unfold formatAnalysis. rewrite (bold_no_star _ _ Hs).
  apply breaks_no_feed, Hn.
Qed.

Lemma plain_analysis_is_verbatim_witness :
  formatAnalysis (lit "<img src=x onerror=alert(1)>")
  = lit "<img src=x onerror=alert(1)>".
Proof.
  apply (plain_analysis_is_verbatim (lit "<img src=x onerror=alert(1)>"));
    reflexivity.
Defined.

(** X25: the markup made of an analysis text holds no line feed. *)
Theorem formatted_has_no_line_feed (analysis : jsstring) :
  existsb line_feed (formatAnalysis analysis) = false.
Proof.
  unfold formatAnalysis. generalize (bold (List.length analysis) analysis).
  intros s. induction s as [|c s IH]; [reflexivity|]. cbn [breaks].
  destruct (line_feed c) eqn:E.
  - rewrite existsb_app, IH. reflexivity.
  - cbn [existsb]. rewrite E, IH. reflexivity.
Qed.

Lemma closing_length (s inner rest : jsstring) :
  closing s = Some (inner, rest) ->
  List.length s = (List.length inner + 2 + List.length rest)%nat.
Proof.
  revert inner rest. induction s as [|a s' IH]; intros inner rest H; [discriminate H|].
  cbn [closing] in H.
  assert (Hfurther :
    (if line_terminator a then None else cons_inner a (closing s')) = Some (inner, rest) ->
    List.length (a :: s') = (List.length inner + 2 + List.length rest)%nat).
  { destruct (line_terminator a); [discriminate|].
    destruct (closing s') as [[inner' rest']|] eqn:E; [|discriminate].
    cbn. intros Heq. injection Heq as <- <-. rewrite (IH _ _ eq_refl). reflexivity. }
  destruct s' as [|b rest0]; [exact (Hfurther H)|].
  destruct (is_star a && is_star b); [|exact (Hfurther H)].
  injection H as <- <-. reflexivity.
Qed.

Lemma bold_here_length (s inner rest : jsstring) :
  bold_here s = Some (inner, rest) -> (List.length rest < List.length s)%nat.
Proof.
  destruct s as [|a [|b s']]; try discriminate. cbn [bold_here].
  destruct (is_star a && is_star b); [|discriminate].
  intros H. apply closing_length in H. cbn. lia.
Qed.

(** The fuel of [bold] is enough once it covers the length of the text. *)
Lemma bold_fuel (f g : nat) (s : jsstring) :
  (List.length s <= f)%nat -> (List.length s <= g)%nat -> bold f s = bold g s.
Proof.
  revert g s. induction f as [|f IH]; intros g s Hf Hg.
  - destruct s; [|cbn in Hf; lia]. destruct g; reflexivity.
  - destruct g as [|g].
    + destruct s; [reflexivity | cbn in Hg; lia].
    + cbn [bold]. destruct (bold_here s) as [[inner rest]|] eqn:E.
      * apply bold_here_length in E. rewrite (IH g rest); [reflexivity | lia | lia].
      * destruct s as [|a s']; [reflexivity|]. cbn in Hf, Hg.
        rewrite (IH g s'); [reflexivity | lia | lia].
Qed.

Lemma bold_step (fuel : nat) (s : jsstring) :
  bold (S fuel) s
  = match bold_here s with
    | Some (inner, rest) => lit "<strong>" ++ inner ++ lit "</strong>" ++ bold fuel rest
    | None =>
        match s with
        | a :: s' => a :: bold fuel s'
        | [] => []
        end
    end.
Proof. reflexivity. Qed.

Lemma closing_span (x post : jsstring) :
  existsb is_star x = false -> existsb line_terminator x = false ->
  closing (x ++ lit "**" ++ post) = Some (x, post).
Proof.
  induction x as [|a x IH]; intros Hs Hl; [reflexivity|].
  cbn [existsb] in Hs, Hl. apply orb_false_iff in Hs, Hl.
  destruct Hs as [Ha Hs], Hl as [Hla Hl].
  change ((a :: x) ++ lit "**" ++ post) with (a :: (x ++ lit "**" ++ post)).
  cbn [closing]. rewrite Hla, (IH Hs Hl), Ha. cbn [andb cons_inner].
  destruct (x ++ lit "**" ++ post); reflexivity.
Qed.

Lemma breaks_append (a b : jsstring) : breaks (a ++ b) = breaks a ++ breaks b.
Proof.
  induction a as [|c a IH]; [reflexivity|]. cbn [List.app breaks].
  destruct (line_feed c); rewrite IH; [rewrite List.app_assoc|]; reflexivity.
Qed.

Lemma no_terminator_no_feed (x : jsstring) :
  existsb line_terminator x = false -> existsb line_feed x = false.
Proof.
  induction x as [|c x IH]; [reflexivity|]. cbn [existsb].
  intros H. apply orb_false_iff in H. destruct H as [Hc H].
  unfold line_terminator in Hc. unfold line_feed at 1.
  destruct (c =? 10)%N; [discriminate Hc|]. exact (IH H).
Qed.

(** X26: a span [**x**] at the head of the analysis text, with no asterisk
    and no line terminator inside, comes out as [<strong>x</strong>], and
    the text after it is formatted on its own. *)
Theorem bold_span_is_strong (x post : jsstring) :
  existsb is_star x = false -> existsb line_terminator x = false ->
  formatAnalysis (lit "**" ++ x ++ lit "**" ++ post)
  = lit "<strong>" ++ x ++ lit "</strong>" ++ formatAnalysis post.
Proof.
  intros Hs Hl. unfold formatAnalysis at 1.
  assert (Hhere : bold_here (lit "**" ++ x ++ lit "**" ++ post) = Some (x, post))
    by (exact (closing_span x post Hs Hl)).
  assert (Hlen : List.length (lit "**" ++ x ++ lit "**" ++ post)
                 = S (S (S (S (List.length x + List.length post)))))
    by (cbn; rewrite List.length_app; cbn; lia).
  rewrite Hlen, bold_step, Hhere.
  rewrite (bold_fuel _ (List.length post) post) by lia.
  rewrite !breaks_append.
  rewrite (breaks_no_feed x (no_terminator_no_feed x Hl)). reflexivity.
Qed.

Lemma bold_span_is_strong_witness :
  formatAnalysis (lit "**" ++ lit "Django" ++ lit "**" ++ lit " is a framework")
  = lit "<strong>" ++ lit "Django" ++ lit "</strong>"
    ++ formatAnalysis (lit " is a framework").
Proof.
  apply (bold_span_is_strong (lit "Django") (lit " is a framework")); reflexivity.
Defined.

End ResultsTheorems.
